(** * WFGY orchestration suite: validator, attention manager, pipeline and
      contradiction engine of [organized_tutorial/scripts/wfgy_*.py].

    The Python code is embedded shallowly.  Texts are byte strings
    ([string] of [ascii]); [str.lower], the [in] substring test and the
    fragment of [re] the scripts use (literals, [.], [?], [*], [|], a
    backslash escape, [re.IGNORECASE]) are executable functions.  Floats
    are modelled by exact rationals ([Q]).  Mutable objects shared between
    a dictionary and the lists built from it live in an explicit object
    store addressed by references. *)

From Stdlib Require Import Ascii String QArith Qminmax Qround Lqa.
From stdpp Require Import gmap strings list pretty.

Open Scope string_scope.
Open Scope list_scope.

(** ** Text primitives *)

Module Text.

(** [str.lower] on one byte: only [A]..[Z] move. *)
Definition lower_ascii (c : ascii) : ascii :=
  let n := nat_of_ascii c in
  if (65 <=? n)%nat && (n <=? 90)%nat then ascii_of_nat (n + 32) else c.

(** [s.lower()] *)
Fixpoint lower (s : string) : string :=
  match s with
  | EmptyString => EmptyString
  | String c s' => String (lower_ascii c) (lower s')
  end.

(** [hay.startswith(needle)] *)
Fixpoint startswith (needle hay : string) : bool :=
  match needle, hay with
  | EmptyString, _ => true
  | String _ _, EmptyString => false
  | String a n', String b h' => Ascii.eqb a b && startswith n' h'
  end.

(** [needle in hay] *)
Fixpoint contains (needle hay : string) : bool :=
  startswith needle hay ||
  match hay with
  | EmptyString => false
  | String _ h' => contains needle h'
  end.

(** [str.isspace] on one byte. *)
Definition is_space (c : ascii) : bool :=
  let n := nat_of_ascii c in
  ((9 <=? n)%nat && (n <=? 13)%nat) || ((28 <=? n)%nat && (n <=? 32)%nat).

Fixpoint lstrip (s : string) : string :=
  match s with
  | EmptyString => EmptyString
  | String c s' => if is_space c then lstrip s' else s
  end.

Fixpoint rstrip (s : string) : string :=
  match s with
  | EmptyString => EmptyString
  | String c s' =>
      match rstrip s' with
      | EmptyString => if is_space c then EmptyString else String c EmptyString
      | t => String c t
      end
  end.

(** [s.strip()] *)
Definition strip (s : string) : string := rstrip (lstrip s).

(** [sum(1 for k in keywords if k in text)] *)
Definition count_hits (keywords : list string) (text : string) : nat :=
  length (filter (fun k => contains k text = true) keywords).

(** [any(k in text for k in keywords)] *)
Definition any_hit (keywords : list string) (text : string) : bool :=
  existsb (fun k => contains k text) keywords.

End Text.

(** ** The fragment of Python's [re] used by the scripts *)

Module Re.

Inductive regex : Type :=
| REmpty                       (* matches nothing *)
| REps                         (* matches the empty text *)
| RChr (c : ascii)             (* a literal character *)
| RAny                         (* [.]: any character but a newline *)
| RSeq (r1 r2 : regex)
| RAlt (r1 r2 : regex)
| ROpt (r : regex)             (* [r?] *)
| RStar (r : regex).           (* [r*] *)

Definition newline : ascii := ascii_of_nat 10.

(** Character comparison, with or without [re.IGNORECASE]. *)
Definition chr_match (ignorecase : bool) (c a : ascii) : bool :=
  if ignorecase then Ascii.eqb (Text.lower_ascii c) (Text.lower_ascii a)
  else Ascii.eqb c a.

Fixpoint nullable (r : regex) : bool :=
  match r with
  | REmpty => false
  | REps => true
  | RChr _ => false
  | RAny => false
  | RSeq r1 r2 => nullable r1 && nullable r2
  | RAlt r1 r2 => nullable r1 || nullable r2
  | ROpt _ => true
  | RStar _ => true
  end.

Definition seq (r1 r2 : regex) : regex :=
  match r1, r2 with
  | REmpty, _ => REmpty
  | _, REmpty => REmpty
  | REps, _ => r2
  | _, _ => RSeq r1 r2
  end.

Definition alt (r1 r2 : regex) : regex :=
  match r1, r2 with
  | REmpty, _ => r2
  | _, REmpty => r1
  | _, _ => RAlt r1 r2
  end.

(** Brzozowski derivative by one input character. *)
Fixpoint deriv (ignorecase : bool) (a : ascii) (r : regex) : regex :=
  match r with
  | REmpty => REmpty
  | REps => REmpty
  | RChr c => if chr_match ignorecase c a then REps else REmpty
  | RAny => if Ascii.eqb a newline then REmpty else REps
  | RSeq r1 r2 =>
      if nullable r1
      then alt (seq (deriv ignorecase a r1) r2) (deriv ignorecase a r2)
      else seq (deriv ignorecase a r1) r2
  | RAlt r1 r2 => alt (deriv ignorecase a r1) (deriv ignorecase a r2)
  | ROpt r1 => deriv ignorecase a r1
  | RStar r1 => seq (deriv ignorecase a r1) (RStar r1)
  end.

(** [re.match]: some prefix of the text is in the language. *)
Fixpoint match_prefix (ignorecase : bool) (r : regex) (s : string) : bool :=
  nullable r ||
  match s with
  | EmptyString => false
  | String a s' => match_prefix ignorecase (deriv ignorecase a r) s'
  end.

(** [re.search] on a compiled pattern, as a truth value. *)
Fixpoint search_regex (ignorecase : bool) (r : regex) (s : string) : bool :=
  match_prefix ignorecase r s ||
  match s with
  | EmptyString => false
  | String _ s' => search_regex ignorecase r s'
  end.

(** Pattern syntax: alternatives separated by [|]; in an alternative a
    sequence of atoms (a character, [.], or a backslash-escaped
    character), each optionally followed by [?] or [*]. *)
Definition sequence (atoms_rev : list regex) : regex :=
  fold_left (fun acc a => RSeq a acc) atoms_rev REps.

Definition postfix (f : regex -> regex) (atoms_rev : list regex) : list regex :=
  match atoms_rev with
  | [] => []
  | a :: rest => f a :: rest
  end.

Fixpoint parse (p : string) (alts : option regex) (cur : list regex) : regex :=
  let close := match alts with
               | None => sequence cur
               | Some r => RAlt r (sequence cur)
               end in
  match p with
  | EmptyString => close
  | String c p' =>
      if Ascii.eqb c "|" then parse p' (Some close) []
      else if Ascii.eqb c "?" then parse p' alts (postfix ROpt cur)
      else if Ascii.eqb c "*" then parse p' alts (postfix RStar cur)
      else if Ascii.eqb c "." then parse p' alts (RAny :: cur)
      else if Ascii.eqb c "\" then
        match p' with
        | EmptyString => close
        | String e p'' => parse p'' alts (RChr e :: cur)
        end
      else parse p' alts (RChr c :: cur)
  end.

(** [re.compile(pattern)] *)
Definition compile (pattern : string) : regex := parse pattern None [].

(** [bool(re.search(pattern, text))] and
    [bool(re.search(pattern, text, re.IGNORECASE))] *)
Definition search (pattern text : string) : bool :=
  search_regex false (compile pattern) text.

Definition search_ignorecase (pattern text : string) : bool :=
  search_regex true (compile pattern) text.

(** A pattern none of whose literals is an upper-case letter. *)
Fixpoint lowercase (r : regex) : bool :=
  match r with
  | REmpty | REps | RAny => true
  | RChr c => Ascii.eqb (Text.lower_ascii c) c
  | RSeq r1 r2 | RAlt r1 r2 => lowercase r1 && lowercase r2
  | ROpt r1 | RStar r1 => lowercase r1
  end.

(** The texts a pattern matches in full.  An iteration of a star consumes
    at least one character. *)
Inductive lang (ic : bool) : regex -> string -> Prop :=
| LEps : lang ic REps EmptyString
| LChr c a : chr_match ic c a = true -> lang ic (RChr c) (String a EmptyString)
| LAny a : Ascii.eqb a newline = false -> lang ic RAny (String a EmptyString)
| LSeq r1 r2 s1 s2 : lang ic r1 s1 -> lang ic r2 s2 -> lang ic (RSeq r1 r2) (s1 +:+ s2)
| LAltL r1 r2 s : lang ic r1 s -> lang ic (RAlt r1 r2) s
| LAltR r1 r2 s : lang ic r2 s -> lang ic (RAlt r1 r2) s
| LOptNone r : lang ic (ROpt r) EmptyString
| LOptSome r s : lang ic r s -> lang ic (ROpt r) s
| LStarNil r : lang ic (RStar r) EmptyString
| LStarCons r a s1 s2 :
    lang ic r (String a s1) -> lang ic (RStar r) s2 ->
    lang ic (RStar r) (String a (s1 +:+ s2)).

End Re.

(** ** Python built-ins used below *)

Module Py.

(** [x < y] on floats, modelled on rationals. *)
Definition Qltb (x y : Q) : bool :=
  match (x ?= y)%Q with Lt => true | _ => false end.

(** [int(x)] on a float: truncation towards zero. *)
Definition int_of_Q (x : Q) : Z := Z.quot (Qnum x) (Z.pos (Qden x)).

(** [max(d, key=d.get)] over a non-empty dictionary given by its items in
    insertion order: the first key whose value is maximal. *)
Definition max_by_value (items : list (string * nat)) : string * nat :=
  match items with
  | [] => ("", 0%nat)
  | first :: rest =>
      fold_left (fun best item => if (snd best <? snd item)%nat then item else best)
                rest first
  end.

(** [x in l] for a list of strings. *)
Definition mem (x : string) (l : list string) : bool :=
  existsb (String.eqb x) l.

Section Sorted.
Context {A K : Type} (key : A -> K) (lt : K -> K -> bool).

Fixpoint insert_desc (x : A) (l : list A) : list A :=
  match l with
  | [] => [x]
  | y :: l' => if lt (key x) (key y) then y :: insert_desc x l' else x :: l
  end.

(** [sorted(l, key=key, reverse=True)]: descending and stable, elements
    with equal keys keep their original order. *)
Definition sorted_reverse (l : list A) : list A :=
  fold_right insert_desc [] l.

End Sorted.

End Py.

(** ** [wfgy_validation.py] *)

Module Validation.
Import Text.

Inductive IdeaComplexity := SIMPLE | MEDIUM | COMPLEX.

Definition complexity_value (c : IdeaComplexity) : string :=
  match c with
  | SIMPLE => "simple"
  | MEDIUM => "medium"
  | COMPLEX => "complex"
  end.

Definition complexity_eqb (a b : IdeaComplexity) : bool :=
  match a, b with
  | SIMPLE, SIMPLE | MEDIUM, MEDIUM | COMPLEX, COMPLEX => true
  | _, _ => false
  end.

Record IdeaValidationResult := {
  is_valid : bool;
  complexity : IdeaComplexity;
  missing_elements : list string;
  recommendations : list string;
  estimated_agents : Z;
  suggested_sparc_mode : string;
  suggested_topology : string
}.

(** [self.required_elements], in insertion order. *)
Definition required_elements : list (string * string) :=
  [ ("users", "users?|audience|target|who");
    ("goal", "goal|objective|purpose|problem|solve");
    ("inputs", "input|data|source|feed");
    ("outputs", "output|produce|result|deliver");
    ("runtime", "runtime|deploy|environment|local|cloud") ].

(** [self.sparc_mode_keywords] *)
Definition sparc_mode_keywords : list (string * list string) :=
  [ ("architect", ["architecture"; "system design"; "microservices"; "distributed"; "scalable"]);
    ("api", ["api"; "backend"; "service"; "rest"; "endpoint"]);
    ("ui", ["frontend"; "interface"; "web"; "mobile"; "dashboard"]);
    ("ml", ["machine learning"; "ai"; "prediction"; "model"; "data science"]);
    ("tdd", ["test"; "testing"; "quality"; "tdd"; "bdd"]);
    ("devops", ["deploy"; "ci/cd"; "docker"; "kubernetes"; "infrastructure"]) ].

Definition simple_indicators : list string :=
  [ "simple"; "basic"; "single"; "one"; "individual"; "personal";
    "task"; "todo"; "list"; "note"; "calculator" ].

Definition complex_indicators : list string :=
  [ "comprehensive"; "enterprise"; "distributed"; "microservices";
    "real-time"; "machine learning"; "ai"; "analytics"; "dashboard";
    "multi-user"; "scalable"; "high-performance"; "production" ].

Definition _assess_complexity (idea_text : string) : IdeaComplexity :=
  let idea_lower := lower idea_text in
  let simple_score := count_hits simple_indicators idea_lower in
  let complex_score := count_hits complex_indicators idea_lower in
  if (3 <=? complex_score)%nat then COMPLEX
  else if (2 <=? simple_score)%nat then SIMPLE
  else MEDIUM.

Definition _suggest_sparc_mode (idea_text : string) : string :=
  let idea_lower := lower idea_text in
  let mode_scores :=
    map (fun mk => (fst mk, count_hits (snd mk) idea_lower)) sparc_mode_keywords in
  let best := Py.max_by_value mode_scores in
  if (snd best =? 0)%nat then "architect" else fst best.

Definition parallel_indicators : list string :=
  [ "microservices"; "distributed"; "real-time"; "analytics";
    "dashboard"; "multiple"; "integration"; "api" ].

Definition _suggest_topology (c : IdeaComplexity) (idea_text : string) : string * Z :=
  let idea_lower := lower idea_text in
  let needs_parallel := any_hit parallel_indicators idea_lower in
  if complexity_eqb c COMPLEX || needs_parallel then ("swarm", 7%Z)
  else if complexity_eqb c MEDIUM then ("swarm", 5%Z)
  else ("hive", 3%Z).

Definition _generate_recommendations (missing : list string) (c : IdeaComplexity)
  : list string :=
  let r0 : list string := [] in
  let r1 := if Py.mem "users" missing
            then r0 ++ ["Specify target users/audience for better scope definition"] else r0 in
  let r2 := if Py.mem "goal" missing
            then r1 ++ ["Define clear problem/goal to solve"] else r1 in
  let r3 := if Py.mem "inputs" missing
            then r2 ++ ["Describe data sources and inputs needed"] else r2 in
  let r4 := if Py.mem "outputs" missing
            then r3 ++ ["Specify expected outputs and deliverables"] else r3 in
  let r5 := if Py.mem "runtime" missing
            then r4 ++ ["Mention deployment environment (local/cloud)"] else r4 in
  let r6 := if complexity_eqb c SIMPLE
            then r5 ++ ["Consider adding more technical details for better implementation"]
            else r5 in
  if complexity_eqb c COMPLEX
  then r6 ++ ["Consider breaking down into smaller components for better manageability"]
  else r6.

(** The loop over [self.required_elements.items()]: one step appends the
    element to [missing_elements] or to [found_elements]. *)
Definition check_element (idea_lower : string)
    (acc : list string * list string) (item : string * string)
  : list string * list string :=
  let '(missing, found) := acc in
  let '(element, pattern) := item in
  if negb (Re.search pattern idea_lower)
  then (missing ++ [element], found)
  else (missing, found ++ [element]).

Definition validate_idea_structure (idea_text : string) : IdeaValidationResult :=
  let idea_lower := lower idea_text in
  let '(missing, found) :=
    fold_left (check_element idea_lower) required_elements ([], []) in
  let c := _assess_complexity idea_text in
  let mode := _suggest_sparc_mode idea_text in
  let '(topology, agents) := _suggest_topology c idea_text in
  let recs := _generate_recommendations missing c in
  {| is_valid := (3 <=? length found)%nat;
     complexity := c;
     missing_elements := missing;
     recommendations := recs;
     estimated_agents := agents;
     suggested_sparc_mode := mode;
     suggested_topology := topology |}.

Definition validate_claude_flow_input (idea_text : string) : IdeaValidationResult :=
  validate_idea_structure idea_text.

End Validation.

(** ** [wfgy_attention.py] *)

Module Attention.
Import Text.

Inductive AttentionPriority := CRITICAL | HIGH | MEDIUM | LOW.

(** [priority.value] *)
Definition priority_value (p : AttentionPriority) : string :=
  match p with
  | CRITICAL => "critical"
  | HIGH => "high"
  | MEDIUM => "medium"
  | LOW => "low"
  end.

Inductive ResourceType := AGENTS | TIME | MEMORY | COMPLEXITY.

Record AttentionTarget := {
  name : string;
  priority : AttentionPriority;
  resource_type : ResourceType;
  impact_score : Q;
  description : string;
  optimization_strategy : string
}.

(** [target.priority = p] *)
Definition set_priority (p : AttentionPriority) (t : AttentionTarget) : AttentionTarget :=
  {| name := name t; priority := p; resource_type := resource_type t;
     impact_score := impact_score t; description := description t;
     optimization_strategy := optimization_strategy t |}.

Definition _define_attention_targets : list (string * AttentionTarget) :=
  [ ("idea_clarity",
     {| name := "idea_clarity"; priority := CRITICAL; resource_type := AGENTS;
        impact_score := 0.95;
        description := "Clarity and completeness of user idea";
        optimization_strategy := "Validate idea structure before orchestration" |});
    ("sparc_mode_selection",
     {| name := "sparc_mode_selection"; priority := CRITICAL; resource_type := AGENTS;
        impact_score := 0.90;
        description := "Optimal SPARC mode for project type";
        optimization_strategy := "Analyze idea content for mode selection" |});
    ("topology_optimization",
     {| name := "topology_optimization"; priority := CRITICAL; resource_type := AGENTS;
        impact_score := 0.85;
        description := "Optimal agent topology and count";
        optimization_strategy := "Match topology to project complexity" |});
    ("agent_coordination",
     {| name := "agent_coordination"; priority := HIGH; resource_type := TIME;
        impact_score := 0.75;
        description := "Efficient agent communication and coordination";
        optimization_strategy := "Optimize communication patterns" |});
    ("memory_management",
     {| name := "memory_management"; priority := HIGH; resource_type := MEMORY;
        impact_score := 0.70;
        description := "Efficient memory usage across agents";
        optimization_strategy := "Implement memory sharing and cleanup" |});
    ("error_handling",
     {| name := "error_handling"; priority := HIGH; resource_type := COMPLEXITY;
        impact_score := 0.65;
        description := "Robust error detection and recovery";
        optimization_strategy := "Implement comprehensive error handling" |});
    ("progress_tracking",
     {| name := "progress_tracking"; priority := MEDIUM; resource_type := TIME;
        impact_score := 0.50;
        description := "Real-time progress monitoring";
        optimization_strategy := "Implement progress indicators" |});
    ("resource_monitoring",
     {| name := "resource_monitoring"; priority := MEDIUM; resource_type := MEMORY;
        impact_score := 0.45;
        description := "System resource usage monitoring";
        optimization_strategy := "Monitor CPU, memory, and network usage" |});
    ("logging",
     {| name := "logging"; priority := LOW; resource_type := MEMORY;
        impact_score := 0.25;
        description := "Detailed logging and debugging";
        optimization_strategy := "Implement structured logging" |});
    ("documentation",
     {| name := "documentation"; priority := LOW; resource_type := TIME;
        impact_score := 0.20;
        description := "Real-time documentation generation";
        optimization_strategy := "Generate documentation as needed" |}) ].

(** [self.resource_limits[ResourceType.MEMORY]["max_memory_per_agent"]] *)
Definition max_memory_per_agent : Z := 512.

(** A reference to an [AttentionTarget] object: its index in the store. *)
Definition ref := nat.

(** The manager: the [AttentionTarget] objects it allocated, and the
    dictionary [self.attention_targets] from names to those objects, in
    insertion order.  Lists built from the dictionary's values hold the
    same references. *)
Record BBAMManager := {
  objects : list AttentionTarget;
  attention_targets : list (string * ref)
}.

(** [BBAMManager()] *)
Definition new_manager : BBAMManager :=
  {| objects := map snd _define_attention_targets;
     attention_targets := imap (fun i kv => (fst kv, i)) _define_attention_targets |}.

(** The catalog as an observer sees it: each name with the fields of the
    object it is bound to. *)
Definition catalog_view (m : BBAMManager) : list (string * option AttentionTarget) :=
  map (fun kv => (fst kv, objects m !! snd kv)) (attention_targets m).

Definition clarity_indicators : list (string * string) :=
  [ ("users", "users?|audience|target|who");
    ("goal", "goal|objective|purpose|problem|solve");
    ("inputs", "input|data|source|feed");
    ("outputs", "output|produce|result|deliver");
    ("runtime", "runtime|deploy|environment|local|cloud");
    ("technical_details", "api|database|framework|language|architecture") ].

Definition count_found (idea_lower : string) (indicators : list (string * string)) : nat :=
  fold_left (fun found item =>
               if Re.search (snd item) idea_lower then S found else found)
            indicators 0%nat.

Definition _analyze_idea_clarity (idea_text : string) : Q :=
  let idea_lower := lower idea_text in
  let found_elements := count_found idea_lower clarity_indicators in
  let total_elements := length clarity_indicators in
  let base_score := (inject_Z (Z.of_nat found_elements)
                     / inject_Z (Z.of_nat total_elements))%Q in
  let technical_bonus :=
    if Re.search "technical|architecture|framework" idea_lower then 0.1%Q else 0%Q in
  let vagueness_penalty :=
    if Re.search "something|anything|whatever" idea_lower then 0.1%Q else 0%Q in
  Qmin 1 (Qmax 0 (base_score + technical_bonus - vagueness_penalty)).

Definition mode_keywords : list (string * list string) :=
  [ ("architect", ["architecture"; "system design"; "microservices"; "distributed"; "scalable"]);
    ("api", ["api"; "backend"; "service"; "rest"; "endpoint"]);
    ("ui", ["frontend"; "interface"; "web"; "mobile"; "dashboard"]);
    ("ml", ["machine learning"; "ai"; "prediction"; "model"; "data science"]);
    ("tdd", ["test"; "testing"; "quality"; "tdd"; "bdd"]);
    ("devops", ["deploy"; "ci/cd"; "docker"; "kubernetes"; "infrastructure"]) ].

Definition _determine_optimal_sparc_mode (idea_text : string) : string :=
  let idea_lower := lower idea_text in
  let mode_scores :=
    map (fun mk => (fst mk, count_hits (snd mk) idea_lower)) mode_keywords in
  let best := Py.max_by_value mode_scores in
  if (0 <? snd best)%nat then fst best else "architect".

Record Topology := {
  topology : string;
  agent_count : Z;
  reasoning : string
}.

(** [complexity_scores.get(complexity.lower(), 2)] *)
Definition complexity_scores_get (complexity : string) : Z :=
  let c := lower complexity in
  if String.eqb c "simple" then 1
  else if String.eqb c "medium" then 2
  else if String.eqb c "complex" then 3
  else 2.

Definition parallel_indicators : list string :=
  [ "microservices"; "distributed"; "real-time"; "analytics";
    "dashboard"; "multiple"; "integration"; "api" ].

Definition _determine_optimal_topology (complexity idea_text : string) : Topology :=
  let complexity_score := complexity_scores_get complexity in
  let idea_lower := lower idea_text in
  let parallel_score := count_hits parallel_indicators idea_lower in
  let '(topo, agents) :=
    if (3 <=? complexity_score)%Z || (2 <=? parallel_score)%nat
    then ("swarm", Z.min 8 (5 + complexity_score))
    else if (2 <=? complexity_score)%Z then ("swarm", 5%Z)
    else ("hive", 3%Z) in
  {| topology := topo;
     agent_count := agents;
     reasoning := "Complexity: " +:+ pretty complexity_score
                  +:+ ", Parallel indicators: " +:+ pretty parallel_score |}.

Record ResourceRequirements := {
  estimated_time_seconds : Z;
  memory_requirements_mb : Z;
  complexity_score : Q;
  req_agent_count : Z
}.

(** [complexity_multiplier.get(complexity.lower(), 1.5)] *)
Definition complexity_multiplier_get (complexity : string) : Q :=
  let c := lower complexity in
  if String.eqb c "simple" then 1.0
  else if String.eqb c "medium" then 1.5
  else if String.eqb c "complex" then 2.5
  else 1.5.

Definition _calculate_resource_requirements
    (clarity_score : Q) (topo : Topology) (complexity : string)
  : ResourceRequirements :=
  let agents := agent_count topo in
  let base_time := 300%Q in
  let time_multiplier := complexity_multiplier_get complexity in
  let estimated_time := (base_time * time_multiplier * (1 + (1 - clarity_score)))%Q in
  let memory_per_agent := max_memory_per_agent in
  let total_memory := (agents * memory_per_agent)%Z in
  let score := Qmin 10 (inject_Z agents * 1.5 + (1 - clarity_score) * 3)%Q in
  {| estimated_time_seconds := Py.int_of_Q estimated_time;
     memory_requirements_mb := total_memory;
     complexity_score := score;
     req_agent_count := agents |}.

Definition _generate_optimization_recommendations
    (clarity_score : Q) (sparc_mode : string) (topo : Topology) : list string :=
  let r1 := if Py.Qltb clarity_score 0.6
            then [ "Request clarification for missing project elements";
                   "Suggest specific technical requirements" ]
            else [] in
  let r2 := if String.eqb sparc_mode "architect"
            then r1 ++ ["Focus on system architecture and design patterns"]
            else if String.eqb sparc_mode "api"
            then r1 ++ ["Prioritize API design and backend implementation"]
            else if String.eqb sparc_mode "ui"
            then r1 ++ ["Focus on user interface and frontend development"]
            else r1 in
  if String.eqb (topology topo) "swarm"
  then r2 ++ ["Optimize for parallel processing and agent coordination"]
  else r2 ++ ["Focus on sequential task execution and agent efficiency"].

(** One iteration of the loop [for target in all_targets] of
    [_get_attention_priorities]: the assignment writes through the
    reference into the shared object. *)
Definition adjust_priority (clarity_score : Q) (complexity : string)
    (store : list AttentionTarget) (r : ref) : list AttentionTarget :=
  match store !! r with
  | None => store
  | Some target =>
      if String.eqb (name target) "idea_clarity" && Py.Qltb clarity_score 0.7
      then <[r := set_priority CRITICAL target]> store
      else if String.eqb (name target) "topology_optimization"
              && String.eqb (lower complexity) "complex"
      then <[r := set_priority CRITICAL target]> store
      else store
  end.

(** Order on the sort keys [(x.priority.value, x.impact_score)]: tuples
    compare lexicographically, the strings by code points. *)
Definition key_lt (k1 k2 : string * Q) : bool :=
  match String.compare (fst k1) (fst k2) with
  | Lt => true
  | Gt => false
  | Eq => Py.Qltb (snd k1) (snd k2)
  end.

Definition sort_key (store : list AttentionTarget) (r : ref) : string * Q :=
  match store !! r with
  | Some x => (priority_value (priority x), impact_score x)
  | None => ("", 0%Q)
  end.

Definition _get_attention_priorities (clarity_score : Q) (complexity : string)
    (m : BBAMManager) : BBAMManager * list ref :=
  let all_targets := map snd (attention_targets m) in
  let store := fold_left (adjust_priority clarity_score complexity)
                         all_targets (objects m) in
  let sorted_targets := Py.sorted_reverse (sort_key store) key_lt all_targets in
  ({| objects := store; attention_targets := attention_targets m |},
   take 5 sorted_targets).

Record Analysis := {
  clarity_score : Q;
  optimal_sparc_mode : string;
  optimal_topology : Topology;
  resource_requirements : ResourceRequirements;
  optimization_recommendations : list string;
  attention_priorities : list ref
}.

Definition analyze_attention_requirements (idea_text project_complexity : string)
    (m : BBAMManager) : BBAMManager * Analysis :=
  let clarity := _analyze_idea_clarity idea_text in
  let mode := _determine_optimal_sparc_mode idea_text in
  let topo := _determine_optimal_topology project_complexity idea_text in
  let reqs := _calculate_resource_requirements clarity topo project_complexity in
  let optimizations := _generate_optimization_recommendations clarity mode topo in
  let '(m', priorities) := _get_attention_priorities clarity project_complexity m in
  (m', {| clarity_score := clarity;
          optimal_sparc_mode := mode;
          optimal_topology := topo;
          resource_requirements := reqs;
          optimization_recommendations := optimizations;
          attention_priorities := priorities |}).

(** *** [BBAMOptimizer] *)

Record OptimizedParameters := {
  sparc_mode : string;
  param_topology : string;
  param_agent_count : Z;
  timeout_seconds : Z;
  memory_limit_mb : Z;
  complexity_threshold : Q
}.

Record Phase := {
  phase : string;
  phase_description : string;
  phase_priority : string;
  estimated_time : Z;
  agents_required : Z
}.

Record Allocation := {
  agents_total : Z;
  critical_tasks : Z;
  high_priority_tasks : Z;
  monitoring_tasks : Z;
  total_mb : Z;
  per_agent_mb : Z;
  reserve_mb : Z;
  total_seconds : Z;
  validation_phase : Z;
  planning_phase : Z;
  implementation_phase : Z;
  testing_phase : Z
}.

Record Optimization := {
  analysis : Analysis;
  optimized_parameters : OptimizedParameters;
  execution_plan : list Phase;
  resource_allocation : Allocation
}.

Definition _generate_optimized_parameters (a : Analysis) : OptimizedParameters :=
  {| sparc_mode := optimal_sparc_mode a;
     param_topology := topology (optimal_topology a);
     param_agent_count := agent_count (optimal_topology a);
     timeout_seconds := estimated_time_seconds (resource_requirements a);
     memory_limit_mb := memory_requirements_mb (resource_requirements a);
     complexity_threshold := complexity_score (resource_requirements a) |}.

Definition _create_execution_plan (a : Analysis) (params : OptimizedParameters)
  : list Phase :=
  [ {| phase := "validation";
       phase_description := "Validate idea clarity and structure";
       phase_priority := "critical"; estimated_time := 60; agents_required := 1 |};
    {| phase := "planning";
       phase_description :=
         "Create implementation plan using " +:+ sparc_mode params +:+ " mode";
       phase_priority := "critical"; estimated_time := 120;
       agents_required := param_agent_count params |};
    {| phase := "implementation";
       phase_description :=
         "Implement project using " +:+ param_topology params +:+ " topology";
       phase_priority := "high";
       estimated_time := timeout_seconds params - 180;
       agents_required := param_agent_count params |};
    {| phase := "validation";
       phase_description := "Validate implementation and run tests";
       phase_priority := "high"; estimated_time := 120; agents_required := 2 |} ].

Definition _allocate_resources (a : Analysis) : Allocation :=
  let requirements := resource_requirements a in
  let agents := req_agent_count requirements in
  {| agents_total := agents;
     critical_tasks := Py.int_of_Q (inject_Z agents * 0.6);
     high_priority_tasks := Py.int_of_Q (inject_Z agents * 0.3);
     monitoring_tasks := Py.int_of_Q (inject_Z agents * 0.1);
     total_mb := memory_requirements_mb requirements;
     per_agent_mb := memory_requirements_mb requirements / agents;
     reserve_mb := 512;
     total_seconds := estimated_time_seconds requirements;
     validation_phase := 60;
     planning_phase := 120;
     implementation_phase := estimated_time_seconds requirements - 180;
     testing_phase := 120 |}.

Definition optimize_orchestration (idea_text project_complexity : string)
    (m : BBAMManager) : BBAMManager * Optimization :=
  let '(m', a) := analyze_attention_requirements idea_text project_complexity m in
  let params := _generate_optimized_parameters a in
  let plan := _create_execution_plan a params in
  (m', {| analysis := a;
          optimized_parameters := params;
          execution_plan := plan;
          resource_allocation := _allocate_resources a |}).

Definition bbam_optimize_claude_flow (idea_text project_complexity : string)
  : Optimization :=
  snd (optimize_orchestration idea_text project_complexity new_manager).

End Attention.

(** ** [wfgy_pipeline.py] *)

Module Pipeline.
Import Text.

Inductive PipelineStage :=
  VALIDATION | ANALYSIS | PLANNING | IMPLEMENTATION | TESTING | DEPLOYMENT.

Definition stage_value (s : PipelineStage) : string :=
  match s with
  | VALIDATION => "validation"
  | ANALYSIS => "analysis"
  | PLANNING => "planning"
  | IMPLEMENTATION => "implementation"
  | TESTING => "testing"
  | DEPLOYMENT => "deployment"
  end.

(** [list(PipelineStage)]: the members in definition order. *)
Definition all_stages : list PipelineStage :=
  [VALIDATION; ANALYSIS; PLANNING; IMPLEMENTATION; TESTING; DEPLOYMENT].

Definition stage_index (s : PipelineStage) : nat :=
  match s with
  | VALIDATION => 0
  | ANALYSIS => 1
  | PLANNING => 2
  | IMPLEMENTATION => 3
  | TESTING => 4
  | DEPLOYMENT => 5
  end.

Definition stage_of_index (n : nat) : PipelineStage :=
  match n with
  | 0 => VALIDATION
  | 1 => ANALYSIS
  | 2 => PLANNING
  | 3 => IMPLEMENTATION
  | 4 => TESTING
  | _ => DEPLOYMENT
  end.

#[global] Instance PipelineStage_eq_dec : EqDecision PipelineStage.
Proof. solve_decision. Defined.

#[global] Instance PipelineStage_countable : Countable PipelineStage.
Proof. refine (inj_countable' stage_index stage_of_index _); by intros []. Defined.

Inductive PipelineStatus := PENDING | RUNNING | SUCCESS | FAILED | ROLLBACK.

#[global] Instance PipelineStatus_eq_dec : EqDecision PipelineStatus.
Proof. solve_decision. Defined.

Record PipelineStep := {
  stage : PipelineStage;
  command : string;
  dependencies : list PipelineStage;
  rollback_command : option string;
  validation_check : option string;
  timeout : Z
}.

Record PipelineResult := {
  result_stage : PipelineStage;
  status : PipelineStatus;
  output : string;
  error : option string;
  execution_time : Q
}.

(** [_define_pipeline_steps]: the dictionary has one entry per member of
    [PipelineStage], hence a total function. *)
Definition _define_pipeline_steps (s : PipelineStage) : PipelineStep :=
  match s with
  | VALIDATION =>
      {| stage := VALIDATION;
         command := "python3 wfgy_validation.py";
         dependencies := [];
         validation_check := Some "validate_idea_structure";
         rollback_command := Some "echo 'Validation failed - cannot proceed'";
         timeout := 300 |}
  | ANALYSIS =>
      {| stage := ANALYSIS;
         command := "claude-flow sparc architect 'Analyze requirements and suggest architecture'";
         dependencies := [VALIDATION];
         validation_check := Some "check_analysis_output";
         rollback_command := Some "echo 'Analysis failed - rollback to validation'";
         timeout := 300 |}
  | PLANNING =>
      {| stage := PLANNING;
         command := "claude-flow swarm 'Create detailed implementation plan'";
         dependencies := [ANALYSIS];
         validation_check := Some "check_planning_output";
         rollback_command := Some "echo 'Planning failed - rollback to analysis'";
         timeout := 300 |}
  | IMPLEMENTATION =>
      {| stage := IMPLEMENTATION;
         command := "claude-flow swarm 'Implement the project according to plan'";
         dependencies := [PLANNING];
         validation_check := Some "check_implementation_output";
         rollback_command :=
           Some "rm -rf /tmp/{project_name} && echo 'Implementation rolled back'";
         timeout := 300 |}
  | TESTING =>
      {| stage := TESTING;
         command := "claude-flow sparc tdd 'Run comprehensive tests'";
         dependencies := [IMPLEMENTATION];
         validation_check := Some "check_testing_output";
         rollback_command := Some "echo 'Testing failed - rollback to implementation'";
         timeout := 300 |}
  | DEPLOYMENT =>
      {| stage := DEPLOYMENT;
         command := "claude-flow sparc devops 'Deploy and verify'";
         dependencies := [TESTING];
         validation_check := Some "check_deployment_output";
         rollback_command := Some "echo 'Deployment failed - rollback to testing'";
         timeout := 300 |}
  end.

(** *** The custom validation functions *)

Definition validate_idea_structure (out : string) : bool :=
  contains "is_valid: True" out.

Definition check_analysis_output (out : string) : bool :=
  (100 <? String.length (strip out))%nat && contains "architecture" (lower out).

Definition check_planning_output (out : string) : bool :=
  contains "plan" (lower out) || contains "steps" (lower out).

Definition check_implementation_output (out : string) : bool :=
  contains "created" (lower out) || contains "generated" (lower out).

Definition check_testing_output (out : string) : bool :=
  contains "passed" (lower out) || contains "success" (lower out).

Definition check_deployment_output (out : string) : bool :=
  contains "deployed" (lower out) || contains "running" (lower out).

(** [getattr(self, name, None)] restricted to the validation functions,
    the only attributes the step table names. *)
Definition getattr_validation (attr : string) : option (string -> bool) :=
  if String.eqb attr "validate_idea_structure" then Some validate_idea_structure
  else if String.eqb attr "check_analysis_output" then Some check_analysis_output
  else if String.eqb attr "check_planning_output" then Some check_planning_output
  else if String.eqb attr "check_implementation_output" then Some check_implementation_output
  else if String.eqb attr "check_testing_output" then Some check_testing_output
  else if String.eqb attr "check_deployment_output" then Some check_deployment_output
  else None.

Definition error_indicators : list string := ["error"; "failed"; "exception"; "timeout"].

(** A string is true in a condition when it is not empty. *)
Definition truthy (o : option string) : option string :=
  match o with
  | Some "" => None
  | _ => o
  end.

Definition _validate_step_output (step : PipelineStep) (out : string) : bool :=
  let default := negb (any_hit error_indicators (lower out)) in
  match truthy (validation_check step) with
  | Some attr =>
      match getattr_validation attr with
      | Some validation_func => validation_func out
      | None => default
      end
  | None => default
  end.

(** *** The command runner *)

(** What [subprocess.run] (with the [os.chdir] before it) does for a step:
    the process exits, the timeout expires, or another exception is raised. *)
Inductive RunOutcome :=
| Exited (returncode : Z) (stdout stderr : string) (elapsed : Q)
| TimeoutExpired
| Raised (message : string).

(** The environment of one pipeline run: the outcome of each stage's
    command, and for a rollback command whether it exits with status 0
    ([check=True] raises [CalledProcessError] otherwise). *)
Record World := {
  run : PipelineStep -> RunOutcome;
  run_rollback : string -> bool
}.

(** What the run does to its environment and prints, in order. *)
Inductive Event :=
| DependenciesNotMet (s : PipelineStage)
| Executed (s : PipelineStage) (cmd : string)
| ValidationFailed (s : PipelineStage)
| PipelineFailed (s : PipelineStage)
| StageCompleted (s : PipelineStage)
| PipelineCompleted
| RollingBack (s : PipelineStage)
| RollbackExecuted (cmd : string)
| RollbackSuccessful (s : PipelineStage)
| RollbackFailed (s : PipelineStage)
| NoPreviousStage.

(** The mutable part of a [BBPFPipeline] together with the trace of the
    run so far. *)
Record State := {
  results : gmap PipelineStage PipelineResult;
  trace : list Event
}.

Definition emit (e : Event) (st : State) : State :=
  {| results := results st; trace := trace st ++ [e] |}.

(** [BBPFPipeline(project_name, idea_text)]: [self.results = {}] *)
Definition initial : State := {| results := ∅; trace := [] |}.

Definition status_eqb (a b : PipelineStatus) : bool := bool_decide (a = b).

Fixpoint _check_dependencies (deps : list PipelineStage)
    (res : gmap PipelineStage PipelineResult) : bool :=
  match deps with
  | [] => true
  | dep :: rest =>
      match res !! dep with
      | None => false
      | Some r => if negb (status_eqb (status r) SUCCESS) then false
                  else _check_dependencies rest res
      end
  end.

Definition _execute_step (w : World) (step : PipelineStep) : PipelineResult :=
  match run w step with
  | Exited rc out err elapsed =>
      if (rc =? 0)%Z
      then {| result_stage := stage step; status := SUCCESS; output := out;
              error := None; execution_time := elapsed |}
      else {| result_stage := stage step; status := FAILED; output := out;
              error := Some err; execution_time := elapsed |}
  | TimeoutExpired =>
      {| result_stage := stage step; status := FAILED; output := "";
         error := Some ("Timeout after " +:+ pretty (timeout step) +:+ " seconds");
         execution_time := inject_Z (timeout step) |}
  | Raised msg =>
      {| result_stage := stage step; status := FAILED; output := "";
         error := Some msg; execution_time := 0 |}
  end.

(** The search loop of [_rollback_stage] over [reversed(list(PipelineStage))]. *)
Fixpoint find_previous (stages : list PipelineStage) (failed_stage : PipelineStage)
    (res : gmap PipelineStage PipelineResult) : option PipelineStage :=
  match stages with
  | [] => None
  | s :: rest =>
      if bool_decide (s = failed_stage) then None
      else match res !! s with
           | Some r => if status_eqb (status r) SUCCESS then Some s
                       else find_previous rest failed_stage res
           | None => find_previous rest failed_stage res
           end
  end.

Section Run.
Context (w : World) (pipeline_steps : PipelineStage -> PipelineStep).

Definition _rollback_stage (failed_stage : PipelineStage) (st : State) : State :=
  let st := emit (RollingBack failed_stage) st in
  match find_previous (rev all_stages) failed_stage (results st) with
  | Some previous_stage =>
      let step := pipeline_steps previous_stage in
      match truthy (rollback_command step) with
      | Some cmd =>
          let st := emit (RollbackExecuted cmd) st in
          if run_rollback w cmd
          then emit (RollbackSuccessful previous_stage) st
          else emit (RollbackFailed previous_stage) st
      | None => st
      end
  | None => emit NoPreviousStage st
  end.

(** The body of the loop [for stage in PipelineStage] of
    [execute_pipeline], on the stages still to visit. *)
Fixpoint run_stages (stages : list PipelineStage) (st : State) : State :=
  match stages with
  | [] => emit PipelineCompleted st
  | s :: rest =>
      let step := pipeline_steps s in
      if negb (_check_dependencies (dependencies step) (results st))
      then emit (DependenciesNotMet s) st
      else
        let st := emit (Executed s (command step)) st in
        let result := _execute_step w step in
        let st := {| results := <[s := result]> (results st); trace := trace st |} in
        if status_eqb (status result) SUCCESS
           && negb (_validate_step_output step (output result))
        then _rollback_stage s (emit (ValidationFailed s) st)
        else if status_eqb (status result) FAILED
        then _rollback_stage s (emit (PipelineFailed s) st)
        else run_stages rest (emit (StageCompleted s) st)
  end.

Definition execute_pipeline (st : State) : State := run_stages all_stages st.

End Run.

(** [progressive_claude_flow_pipeline]: a fresh pipeline with the default
    step table. *)
Definition progressive_claude_flow_pipeline (w : World) : State :=
  execute_pipeline w _define_pipeline_steps initial.

End Pipeline.

(** ** [wfgy_contradiction.py] *)

Module Contradiction.
Import Text.

Inductive ContradictionType :=
| ARCHITECTURE_MISMATCH
| TECHNOLOGY_CONFLICT
| REQUIREMENT_VIOLATION
| PERFORMANCE_ISSUE
| SECURITY_VIOLATION
| SCALABILITY_PROBLEM.

Inductive ContradictionSeverity := LOW | MEDIUM | HIGH | CRITICAL.

#[global] Instance ContradictionType_eq_dec : EqDecision ContradictionType.
Proof. solve_decision. Defined.

#[global] Instance ContradictionSeverity_eq_dec : EqDecision ContradictionSeverity.
Proof. solve_decision. Defined.

Definition severity_eqb (a b : ContradictionSeverity) : bool := bool_decide (a = b).

Record contradiction := {
  type : ContradictionType;
  severity : ContradictionSeverity;
  description : string;
  detected_in : string;
  expected : string;
  actual : string;
  rollback_action : string
}.

(** [_define_contradiction_patterns]: per type, the (pattern, description)
    entries, in insertion order. *)
Definition contradiction_patterns : list (ContradictionType * list (string * string)) :=
  [ (ARCHITECTURE_MISMATCH,
     [ ("microservices.*monolith|monolith.*microservices", "Architecture style mismatch");
       ("serverless.*stateful|stateful.*serverless", "State management contradiction") ]);
    (TECHNOLOGY_CONFLICT,
     [ ("python.*node\.js.*same.*service", "Multiple languages in single service");
       ("sql.*nosql.*same.*data", "Database type conflict") ]);
    (REQUIREMENT_VIOLATION,
     [ ("real-time.*batch.*processing", "Processing mode contradiction");
       ("high-availability.*single.*point.*failure", "Availability requirement violation") ]);
    (PERFORMANCE_ISSUE,
     [ ("high-performance.*interpreted.*language", "Performance expectation mismatch");
       ("low-latency.*network.*call", "Latency expectation contradiction") ]);
    (SECURITY_VIOLATION,
     [ ("secure.*plain.*text.*password", "Security practice violation");
       ("authentication.*no.*auth", "Authentication requirement violation") ]);
    (SCALABILITY_PROBLEM,
     [ ("scalable.*single.*server", "Scalability architecture contradiction");
       ("distributed.*centralized.*database", "Distribution contradiction") ]) ].

Definition technology_compatibility : list (string * list string) :=
  [ ("python", ["fastapi"; "django"; "flask"; "postgresql"; "redis"]);
    ("nodejs", ["express"; "nestjs"; "mongodb"; "redis"; "postgresql"]);
    ("react", ["typescript"; "javascript"; "nodejs"; "express"]);
    ("microservices", ["docker"; "kubernetes"; "api-gateway"; "service-mesh"]);
    ("serverless", ["aws-lambda"; "azure-functions"; "stateless"; "event-driven"]);
    ("real-time", ["websockets"; "server-sent-events"; "polling"]);
    ("high-performance", ["golang"; "rust"; "c++"; "compiled-languages"]) ].

Definition architecture_constraints : list (string * list string) :=
  [ ("microservices", ["distributed"; "api-gateway"; "service-discovery"]);
    ("monolith", ["single-deployment"; "shared-database"]);
    ("serverless", ["stateless"; "event-driven"; "auto-scaling"]);
    ("real-time", ["websockets"; "low-latency"; "persistent-connections"]);
    ("high-availability", ["redundancy"; "load-balancing"; "failover"]) ].

(** [d.get(key, [])] on a dictionary given by its items. *)
Fixpoint dict_get (d : list (string * list string)) (key : string) : list string :=
  match d with
  | [] => []
  | (k, v) :: rest => if String.eqb k key then v else dict_get rest key
  end.

Definition _assess_severity (t : ContradictionType) : ContradictionSeverity :=
  match t with
  | ARCHITECTURE_MISMATCH => HIGH
  | TECHNOLOGY_CONFLICT => MEDIUM
  | REQUIREMENT_VIOLATION => CRITICAL
  | PERFORMANCE_ISSUE => HIGH
  | SECURITY_VIOLATION => CRITICAL
  | SCALABILITY_PROBLEM => HIGH
  end.

Definition _get_rollback_action (t : ContradictionType) : string :=
  match t with
  | ARCHITECTURE_MISMATCH => "Rollback to previous architecture decision"
  | TECHNOLOGY_CONFLICT => "Review and align technology stack"
  | REQUIREMENT_VIOLATION => "Rollback to requirement validation stage"
  | PERFORMANCE_ISSUE => "Optimize or change technology choice"
  | SECURITY_VIOLATION => "Rollback to security review stage"
  | SCALABILITY_PROBLEM => "Reconsider architecture for scalability"
  end.

Definition tech_keywords : list string :=
  [ "python"; "nodejs"; "react"; "angular"; "vue"; "java"; "golang"; "rust";
    "postgresql"; "mongodb"; "redis"; "mysql"; "sqlite";
    "docker"; "kubernetes"; "aws"; "azure"; "gcp";
    "express"; "fastapi"; "django"; "flask"; "spring" ].

Definition arch_keywords : list string :=
  [ "microservices"; "monolith"; "serverless"; "real-time";
    "high-availability"; "scalable"; "distributed"; "centralized" ].

Definition _extract_technologies (text : string) : list string :=
  let text_lower := lower text in
  List.filter (fun tech => contains tech text_lower) tech_keywords.

Definition _extract_architecture_requirements (text : string) : list string :=
  let text_lower := lower text in
  List.filter (fun arch => contains arch text_lower) arch_keywords.

Fixpoint compatible_in (table : list (string * list string)) (tech1 tech2 : string) : bool :=
  match table with
  | [] => false
  | (tech, compatible_list) :: rest =>
      if String.eqb tech1 tech && Py.mem tech2 compatible_list then true
      else if String.eqb tech2 tech && Py.mem tech1 compatible_list then true
      else compatible_in rest tech1 tech2
  end.

Definition _are_compatible (tech1 tech2 : string) : bool :=
  compatible_in technology_compatibility tech1 tech2.

(** [repr] of a list of strings that hold no quote or backslash. *)
Definition repr_list (l : list string) : string :=
  "[" +:+ String.concat ", " (map (fun x => "'" +:+ x +:+ "'") l) +:+ "]".

Definition pattern_contradictions (implementation_output : string) : list contradiction :=
  flat_map (fun entry =>
    let contradiction_type := fst entry in
    flat_map (fun pattern_info =>
      if Re.search_ignorecase (fst pattern_info) implementation_output
      then [ {| type := contradiction_type;
                severity := _assess_severity contradiction_type;
                description := snd pattern_info;
                detected_in := "implementation_output";
                expected := "Consistent architecture and technology choices";
                actual := "Found: " +:+ fst pattern_info;
                rollback_action := _get_rollback_action contradiction_type |} ]
      else []) (snd entry)) contradiction_patterns.

Definition _check_technology_compatibility (idea_text implementation_output : string)
  : list contradiction :=
  let idea_tech := _extract_technologies idea_text in
  let impl_tech := _extract_technologies implementation_output in
  flat_map (fun tech1 =>
    flat_map (fun tech2 =>
      if negb (String.eqb tech1 tech2) && negb (_are_compatible tech1 tech2)
      then [ {| type := TECHNOLOGY_CONFLICT;
                severity := MEDIUM;
                description := "Incompatible technologies: " +:+ tech1 +:+ " and " +:+ tech2;
                detected_in := "technology_analysis";
                expected := "Compatible technology stack with " +:+ tech1;
                actual := "Found incompatible " +:+ tech2;
                rollback_action := "Review and align technology choices" |} ]
      else []) impl_tech) idea_tech.

Definition _check_architecture_constraints (idea_text implementation_output : string)
  : list contradiction :=
  let idea_arch := _extract_architecture_requirements idea_text in
  let impl_arch := _extract_architecture_requirements implementation_output in
  flat_map (fun arch_req =>
    if negb (Py.mem arch_req impl_arch) then
      let required_components := dict_get architecture_constraints arch_req in
      let missing_components :=
        List.filter (fun comp => negb (Py.mem comp impl_arch)) required_components in
      match missing_components with
      | [] => []
      | _ :: _ =>
          [ {| type := ARCHITECTURE_MISMATCH;
               severity := HIGH;
               description := "Missing architecture components for " +:+ arch_req;
               detected_in := "architecture_analysis";
               expected := "Architecture " +:+ arch_req +:+ " with components: "
                           +:+ repr_list required_components;
               actual := "Missing: " +:+ repr_list missing_components;
               rollback_action := "Add missing architecture components" |} ]
      end
    else []) idea_arch.

Definition detect_contradictions (idea_text implementation_output : string)
  : list contradiction :=
  pattern_contradictions implementation_output
  ++ _check_technology_compatibility idea_text implementation_output
  ++ _check_architecture_constraints idea_text implementation_output.

(** *** [BBCRResolver] *)

Record SeverityCounts := {
  low : nat;
  medium : nat;
  high : nat;
  critical : nat
}.

Definition _count_severity_levels (contradictions : list contradiction) : SeverityCounts :=
  fold_left (fun counts c =>
    match severity c with
    | LOW => {| low := S (low counts); medium := medium counts;
                high := high counts; critical := critical counts |}
    | MEDIUM => {| low := low counts; medium := S (medium counts);
                   high := high counts; critical := critical counts |}
    | HIGH => {| low := low counts; medium := medium counts;
                 high := S (high counts); critical := critical counts |}
    | CRITICAL => {| low := low counts; medium := medium counts;
                     high := high counts; critical := S (critical counts) |}
    end) contradictions {| low := 0; medium := 0; high := 0; critical := 0 |}.

Definition _needs_rollback (contradictions : list contradiction) : bool :=
  let critical_contradictions :=
    List.filter (fun c => severity_eqb (severity c) CRITICAL) contradictions in
  match critical_contradictions with
  | _ :: _ => true
  | [] =>
      let high_contradictions :=
        List.filter (fun c => severity_eqb (severity c) HIGH) contradictions in
      if (2 <=? length high_contradictions)%nat then true else false
  end.

Definition _generate_corrective_actions (contradictions : list contradiction)
  : list string :=
  map (fun c =>
         if severity_eqb (severity c) CRITICAL || severity_eqb (severity c) HIGH
         then "CRITICAL: " +:+ rollback_action c
         else "WARNING: " +:+ rollback_action c) contradictions.

Record Resolution := {
  contradictions_found : nat;
  severity_distribution : SeverityCounts;
  needs_rollback : bool;
  contradictions : list contradiction;
  corrective_actions : list string;
  can_proceed : bool
}.

Definition resolve_contradictions (idea_text implementation_output : string) : Resolution :=
  let found := detect_contradictions idea_text implementation_output in
  let severity_counts := _count_severity_levels found in
  let rollback := _needs_rollback found in
  let actions := _generate_corrective_actions found in
  {| contradictions_found := length found;
     severity_distribution := severity_counts;
     needs_rollback := rollback;
     contradictions := found;
     corrective_actions := actions;
     can_proceed := negb rollback |}.

Definition bbcr_validate_claude_flow_output (idea_text implementation_output : string)
  : Resolution :=
  resolve_contradictions idea_text implementation_output.

End Contradiction.

(** ** The specification's vocabulary *)

Module Spec.

(** A required-element category matches a description under
    case-insensitive pattern search. *)
Definition category_matches (description : string) (category : string * string) : bool :=
  Re.search_ignorecase (snd category) description.

(** The complexity score of a complexity class: simple 1, medium 2,
    complex 3. *)
Definition complexity_score (c : Validation.IdeaComplexity) : Z :=
  match c with
  | Validation.SIMPLE => 1
  | Validation.MEDIUM => 2
  | Validation.COMPLEX => 3
  end.

(** The number of parallelism keywords a description contains. *)
Definition parallel_hits (description : string) : nat :=
  Text.count_hits Validation.parallel_indicators (Text.lower description).

(** Topology suggestion as section 4.1 words it: complex or at least 2
    parallelism hits give swarm with [min(8, 5 + complexityScore)] agents,
    medium gives swarm with 5, anything else hive with 3. *)
Definition topology_suggestion (c : Validation.IdeaComplexity) (hits : nat) : string * Z :=
  if Validation.complexity_eqb c Validation.COMPLEX || (2 <=? hits)%nat
  then ("swarm", Z.min 8 (5 + complexity_score c))
  else if Validation.complexity_eqb c Validation.MEDIUM then ("swarm", 5%Z)
  else ("hive", 3%Z).

(** Clarity score as section 4.2 words it: the fraction of the five
    completeness categories matched, plus 0.1 for architecture/technical
    vocabulary, minus 0.1 for a vagueness marker, clamped to [0,1]. *)
Definition clarity_score (description : string) : Q :=
  let matched :=
    length (List.filter (category_matches description) Validation.required_elements) in
  let bonus :=
    if Re.search_ignorecase "technical|architecture|framework" description
    then 0.1%Q else 0%Q in
  let penalty :=
    if Re.search_ignorecase "something|anything|whatever" description
    then 0.1%Q else 0%Q in
  Qmin 1 (Qmax 0 (inject_Z (Z.of_nat matched) / 5 + bonus - penalty)).

(** The same with the sixth category the code counts: the description
    mentions one of api, database, framework, language, architecture. *)
Definition clarity_score_of_six (description : string) : Q :=
  let matched :=
    length (List.filter (category_matches description) Validation.required_elements) in
  let technical :=
    if Re.search_ignorecase "api|database|framework|language|architecture" description
    then 1%nat else 0%nat in
  let bonus :=
    if Re.search_ignorecase "technical|architecture|framework" description
    then 0.1%Q else 0%Q in
  let penalty :=
    if Re.search_ignorecase "something|anything|whatever" description
    then 0.1%Q else 0%Q in
  Qmin 1 (Qmax 0 (inject_Z (Z.of_nat (matched + technical)) / 6 + bonus - penalty)).

(** Priority order [critical > high > medium > low]. *)
Definition priority_rank (p : Attention.AttentionPriority) : nat :=
  match p with
  | Attention.CRITICAL => 3
  | Attention.HIGH => 2
  | Attention.MEDIUM => 1
  | Attention.LOW => 0
  end.

Definition rank_key_lt (k1 k2 : nat * Q) : bool :=
  (fst k1 <? fst k2)%nat || ((fst k1 =? fst k2)%nat && Py.Qltb (snd k1) (snd k2)).

(** The top 5 of a catalog sorted by (priority, impact score) descending. *)
Definition top_priorities (catalog : list Attention.AttentionTarget)
  : list Attention.AttentionTarget :=
  take 5 (Py.sorted_reverse
            (fun t => (priority_rank (Attention.priority t), Attention.impact_score t))
            rank_key_lt catalog).

(** Every object a promotion could touch is already critical. *)
Definition already_critical (store : list Attention.AttentionTarget) : Prop :=
  Forall (fun t => Attention.name t = "idea_clarity"
                   \/ Attention.name t = "topology_optimization" ->
                   Attention.priority t = Attention.CRITICAL) store.

(** The objects a list of references denotes. *)
Definition deref (m : Attention.BBAMManager) (refs : list Attention.ref)
  : list (option Attention.AttentionTarget) :=
  map (fun r => Attention.objects m !! r) refs.

(** The number of contradictions of a given severity. *)
Definition count_severity (sev : Contradiction.ContradictionSeverity)
    (l : list Contradiction.contradiction) : nat :=
  length (filter (fun c => Contradiction.severity c = sev) l).

(** The implementation output of end-to-end scenario 3. *)
Definition scenario3_output : string :=
  "Created a Python-based analytics platform using Django and SQLite. Batch processing. Single server deployment.".

(** The one contradiction the engine reports in scenario 3. *)
Definition scenario3_mismatch : Contradiction.contradiction :=
  {| Contradiction.type := Contradiction.ARCHITECTURE_MISMATCH;
     Contradiction.severity := Contradiction.HIGH;
     Contradiction.description := "Missing architecture components for real-time";
     Contradiction.detected_in := "architecture_analysis";
     Contradiction.expected :=
       "Architecture real-time with components: ['websockets', 'low-latency', 'persistent-connections']";
     Contradiction.actual :=
       "Missing: ['websockets', 'low-latency', 'persistent-connections']";
     Contradiction.rollback_action := "Add missing architecture components" |}.

(** *** Vocabulary for pipeline runs *)

Section PipelineRuns.
Import Pipeline.
Context (pipeline_steps : PipelineStage -> PipelineStep).

(** Stage [d] has a recorded result with status success. *)
Definition recorded_success (res : gmap PipelineStage PipelineResult)
    (d : PipelineStage) : Prop :=
  exists r, res !! d = Some r /\ status r = SUCCESS.

(** Every stage in the dependency list of [s] has a recorded success. *)
Definition dependencies_met (res : gmap PipelineStage PipelineResult)
    (s : PipelineStage) : Prop :=
  forall d, In d (dependencies (pipeline_steps s)) -> recorded_success res d.

(** The stage failed: its command failed, or its output did not pass the
    stage's validation. *)
Definition stage_failed (s : PipelineStage) (r : PipelineResult) : Prop :=
  status r = FAILED \/
  (status r = SUCCESS /\ _validate_step_output (pipeline_steps s) (output r) = false).

(** No result is recorded for the stages of index [k] and later. *)
Definition nothing_recorded_from (res : gmap PipelineStage PipelineResult)
    (k : nat) : Prop :=
  forall s, (k <= stage_index s)%nat -> res !! s = None.

(** The stages still to visit come in pipeline order, from index [k] on. *)
Fixpoint ascending_from (k : nat) (stages : list PipelineStage) : Prop :=
  match stages with
  | [] => True
  | s :: rest => (k <= stage_index s)%nat /\ ascending_from (S (stage_index s)) rest
  end.

(** What holds each time the loop of [execute_pipeline] is about to visit
    the stages of index [k] and later. *)
Record loop_invariant (k : nat) (st : State) : Prop := {
  inv_fresh : nothing_recorded_from (results st) k;
  inv_success : forall s r, results st !! s = Some r -> ~ stage_failed s r;
  inv_executed : forall s cmd, In (Executed s cmd) (trace st) ->
                   (stage_index s < k)%nat /\ dependencies_met (results st) s;
  inv_recorded : forall s r, results st !! s = Some r ->
                   In (Executed s (command (pipeline_steps s))) (trace st);
  inv_no_gate : forall s, ~ In (DependenciesNotMet s) (trace st);
  inv_no_rollback : forall cmd, ~ In (RollbackExecuted cmd) (trace st)
}.

(** What holds when [execute_pipeline] returns. *)
Record run_post (st : State) : Prop := {
  post_executed : forall s cmd, In (Executed s cmd) (trace st) ->
                    dependencies_met (results st) s;
  post_gate : forall s, In (DependenciesNotMet s) (trace st) ->
                last (trace st) = Some (DependenciesNotMet s) /\
                forall s', (stage_index s <= stage_index s')%nat ->
                  results st !! s' = None /\
                  forall cmd, ~ In (Executed s' cmd) (trace st);
  post_recorded : forall s r, results st !! s = Some r ->
                    In (Executed s (command (pipeline_steps s))) (trace st);
  post_failure : forall s r, results st !! s = Some r -> stage_failed s r ->
                   forall s', (stage_index s < stage_index s')%nat ->
                     results st !! s' = None;
  post_no_rollback : forall cmd, ~ In (RollbackExecuted cmd) (trace st)
}.

End PipelineRuns.

(** The nearest stage before [failed_stage] whose recorded status is
    success, searching backward. *)
Definition nearest_preceding_success (failed_stage : Pipeline.PipelineStage)
    (res : gmap Pipeline.PipelineStage Pipeline.PipelineResult)
  : option Pipeline.PipelineStage :=
  List.find (fun s => match res !! s with
                      | Some r => Pipeline.status_eqb (Pipeline.status r) Pipeline.SUCCESS
                      | None => false
                      end)
            (rev (take (Pipeline.stage_index failed_stage) Pipeline.all_stages)).

(** A run in which validation, analysis and planning succeed and the
    implementation command exits with status 1. *)
Definition implementation_fails : Pipeline.World :=
  {| Pipeline.run := fun step =>
       match Pipeline.stage step with
       | Pipeline.VALIDATION => Pipeline.Exited 0 "is_valid: True" "" 1
       | Pipeline.ANALYSIS =>
           Pipeline.Exited 0
             "The architecture is a small REST service with one worker queue and a relational store behind it; see the component list." "" 1
       | Pipeline.PLANNING => Pipeline.Exited 0 "plan: three steps" "" 1
       | Pipeline.IMPLEMENTATION => Pipeline.Exited 1 "" "command not found" 1
       | _ => Pipeline.Exited 0 "" "" 1
       end;
     Pipeline.run_rollback := fun _ => true |}.

(** A run in which validation succeeds and the analysis command fails. *)
Definition analysis_fails : Pipeline.World :=
  {| Pipeline.run := fun step =>
       match Pipeline.stage step with
       | Pipeline.VALIDATION => Pipeline.Exited 0 "is_valid: True" "" 1
       | _ => Pipeline.Exited 2 "" "claude-flow: not found" 1
       end;
     Pipeline.run_rollback := fun _ => true |}.

(** An event that neither runs a command nor reports a failed dependency
    check. *)
Definition quiet (e : Pipeline.Event) : Prop :=
  match e with
  | Pipeline.Executed _ _ | Pipeline.DependenciesNotMet _ | Pipeline.RollbackExecuted _ => False
  | _ => True
  end.

(** A step table whose first stage waits for the last one. *)
Definition validation_waits_for_deployment (s : Pipeline.PipelineStage)
  : Pipeline.PipelineStep :=
  match s with
  | Pipeline.VALIDATION =>
      {| Pipeline.stage := Pipeline.VALIDATION;
         Pipeline.command := "python3 wfgy_validation.py";
         Pipeline.dependencies := [Pipeline.DEPLOYMENT];
         Pipeline.rollback_command := None;
         Pipeline.validation_check := None;
         Pipeline.timeout := 300 |}
  | _ => Pipeline._define_pipeline_steps s
  end.

End Spec.

(** ** [wfgy_integrated.py] *)

Module Integrated.
Import Text.

(** [s.replace(old, new)] for a non-empty [old]: every occurrence, left
    to right, without overlap.  [skip] counts the characters of a matched
    occurrence still to drop. *)
Fixpoint replace_go (old new : string) (skip : nat) (s : string) : string :=
  match s with
  | EmptyString => EmptyString
  | String c s' =>
      match skip with
      | S k => replace_go old new k s'
      | O =>
          if startswith old s
          then new +:+ replace_go old new (String.length old - 1) s'
          else String c (replace_go old new 0 s')
      end
  end.

(** With an empty [old], [new] is inserted before every character and at
    the end. *)
Fixpoint intersperse (new s : string) : string :=
  match s with
  | EmptyString => new
  | String c s' => new +:+ String c (intersperse new s')
  end.

Definition replace (old new s : string) : string :=
  match old with
  | EmptyString => intersperse new s
  | String _ _ => replace_go old new 0 s
  end.

(** The [data] dictionary of a [WFGYResult], by the shapes the
    orchestrator builds. *)
Inductive ResultData :=
| NoData
| ValidationRejected (validation_result : Validation.IdeaValidationResult)
    (missing_elements recommendations : list string)
| ValidationPassed (validation_result : Validation.IdeaValidationResult)
| OptimizationDone (optimization_result : Attention.Optimization)
| PipelineFailedWith (pipeline_results : gmap Pipeline.PipelineStage Pipeline.PipelineResult)
| PipelineDone (pipeline_results : gmap Pipeline.PipelineStage Pipeline.PipelineResult)
    (implementation_output : string)
| ContradictionsChecked (bbcr_result : Contradiction.Resolution)
| RollbackDone (corrective_actions : list string) (rollback_success : bool)
| Completed (bbmc bbam bbpf bbcr : ResultData).

Record WFGYResult := {
  success : bool;
  stage : string;
  message : string;
  data : ResultData;
  execution_time : Q;
  rollback_needed : bool
}.

(** What an orchestration does to its environment: the events of the
    pipeline run, and the clean-up command of the rollback handler. *)
Inductive Effect :=
| PipelineEvent (e : Pipeline.Event)
| CleanupExecuted (cmd : string).

(** The environment of one orchestration: the command runner, and the
    wall-clock time each measured section takes. *)
Record Env := {
  world : Pipeline.World;
  elapsed : string -> Q
}.

(** The stage methods.  Inside their [try] blocks nothing raises on
    texts (the pipeline catches the failures of its commands itself), so
    of the [except] branches only the [KeyError] of [_bbpf_execution] is
    represented. *)
Definition _bbmc_validation (env : Env) (idea_text : string) : WFGYResult :=
  let validation_result := Validation.validate_claude_flow_input idea_text in
  if negb (Validation.is_valid validation_result)
  then {| success := false;
          stage := "bbmc_validation";
          message := "BBMC: Idea validation failed";
          data := ValidationRejected validation_result
                    (Validation.missing_elements validation_result)
                    (Validation.recommendations validation_result);
          execution_time := elapsed env "bbmc_validation";
          rollback_needed := false |}
  else {| success := true;
          stage := "bbmc_validation";
          message := "BBMC: Idea validation passed";
          data := ValidationPassed validation_result;
          execution_time := elapsed env "bbmc_validation";
          rollback_needed := false |}.

Definition _bbam_optimization (env : Env) (idea_text project_complexity : string)
  : WFGYResult :=
  let optimization_result :=
    Attention.bbam_optimize_claude_flow idea_text project_complexity in
  {| success := true;
     stage := "bbam_optimization";
     message := "BBAM: Optimization completed";
     data := OptimizationDone optimization_result;
     execution_time := elapsed env "bbam_optimization";
     rollback_needed := false |}.

(** The body of the loop of [_update_pipeline_with_bbam] on one step. *)
Definition update_step (params : Attention.OptimizedParameters)
    (step : Pipeline.PipelineStep) : Pipeline.PipelineStep :=
  if contains "claude-flow" (Pipeline.command step) then
    let command1 :=
      match Attention.sparc_mode params with
      | EmptyString => Pipeline.command step
      | mode => replace "claude-flow sparc architect" ("claude-flow sparc " +:+ mode)
                        (Pipeline.command step)
      end in
    let command2 :=
      if contains "swarm" command1 && negb (Attention.param_agent_count params =? 0)%Z
      then replace "claude-flow swarm"
                   ("claude-flow swarm --agents "
                    +:+ pretty (Attention.param_agent_count params)) command1
      else command1 in
    {| Pipeline.stage := Pipeline.stage step;
       Pipeline.command := command2;
       Pipeline.dependencies := Pipeline.dependencies step;
       Pipeline.rollback_command := Pipeline.rollback_command step;
       Pipeline.validation_check := Pipeline.validation_check step;
       Pipeline.timeout := Pipeline.timeout step |}
  else step.

Definition _update_pipeline_with_bbam
    (pipeline_steps : Pipeline.PipelineStage -> Pipeline.PipelineStep)
    (params : Attention.OptimizedParameters)
  : Pipeline.PipelineStage -> Pipeline.PipelineStep :=
  fun s => update_step params (pipeline_steps s).

(** The stages with a result, in the order a fresh run inserts them. *)
Definition recorded_stages (res : gmap Pipeline.PipelineStage Pipeline.PipelineResult)
  : list (Pipeline.PipelineStage * Pipeline.PipelineResult) :=
  omap (fun s => (fun r => (s, r)) <$> res !! s) Pipeline.all_stages.

Fixpoint first_implementation
    (items : list (Pipeline.PipelineStage * Pipeline.PipelineResult)) : string :=
  match items with
  | [] => EmptyString
  | (s, r) :: rest =>
      if contains "implementation" (lower (Pipeline.stage_value s))
      then Pipeline.output r
      else first_implementation rest
  end.

Definition _extract_implementation_output
    (pipeline_results : gmap Pipeline.PipelineStage Pipeline.PipelineResult) : string :=
  first_implementation (recorded_stages pipeline_results).

Definition status_value (st : Pipeline.PipelineStatus) : string :=
  match st with
  | Pipeline.PENDING => "pending"
  | Pipeline.RUNNING => "running"
  | Pipeline.SUCCESS => "success"
  | Pipeline.FAILED => "failed"
  | Pipeline.ROLLBACK => "rollback"
  end.

(** [all(result.status.value == "success" for result in results.values())] *)
Definition all_success
    (pipeline_results : gmap Pipeline.PipelineStage Pipeline.PipelineResult) : bool :=
  forallb (fun sr => String.eqb (status_value (Pipeline.status (snd sr))) "success")
          (recorded_stages pipeline_results).

(** [bbam_data] lacks the key when it is not the dictionary
    [_bbam_optimization] builds; the [KeyError] is caught and reported. *)
Definition _bbpf_execution (env : Env) (project_name idea_text : string)
    (bbam_data : ResultData) : WFGYResult * list Effect :=
  match bbam_data with
  | OptimizationDone optimization_result =>
      let optimized_params := Attention.optimized_parameters optimization_result in
      let steps := _update_pipeline_with_bbam Pipeline._define_pipeline_steps
                     optimized_params in
      let final := Pipeline.execute_pipeline (world env) steps Pipeline.initial in
      let pipeline_results := Pipeline.results final in
      let effects := map PipelineEvent (Pipeline.trace final) in
      if negb (all_success pipeline_results)
      then ({| success := false;
               stage := "bbpf_execution";
               message := "BBPF: Pipeline execution failed";
               data := PipelineFailedWith pipeline_results;
               execution_time := elapsed env "bbpf_execution";
               rollback_needed := true |}, effects)
      else ({| success := true;
               stage := "bbpf_execution";
               message := "BBPF: Pipeline execution completed";
               data := PipelineDone pipeline_results
                         (_extract_implementation_output pipeline_results);
               execution_time := elapsed env "bbpf_execution";
               rollback_needed := false |}, effects)
  | _ =>
      ({| success := false;
          stage := "bbpf_execution";
          message := "BBPF: Execution error - 'optimization_result'";
          data := NoData;
          execution_time := elapsed env "bbpf_execution";
          rollback_needed := true |}, [])
  end.

Definition _bbcr_validation (env : Env) (idea_text implementation_output : string)
  : WFGYResult :=
  let bbcr_result :=
    Contradiction.bbcr_validate_claude_flow_output idea_text implementation_output in
  {| success := Contradiction.can_proceed bbcr_result;
     stage := "bbcr_validation";
     message := "BBCR: " +:+ (if Contradiction.can_proceed bbcr_result
                              then "Validation passed" else "Contradictions detected");
     data := ContradictionsChecked bbcr_result;
     execution_time := elapsed env "bbcr_validation";
     rollback_needed := Contradiction.needs_rollback bbcr_result |}.

(** The loop of [_execute_rollback]: the only side effect is the clean-up
    command, for an action that names both a rollback and a cleanup. *)
Definition _execute_rollback (corrective_actions : list string) : bool * list Effect :=
  (true,
   flat_map (fun action =>
               if contains "rollback" (lower action)
               then if contains "cleanup" (lower action)
                    then [CleanupExecuted "rm -rf /tmp/*_project"]
                    else []
               else []) corrective_actions).

Definition _handle_rollback (env : Env) (result : WFGYResult) : WFGYResult * list Effect :=
  let corrective_actions :=
    match data result with
    | ContradictionsChecked bbcr_result => Contradiction.corrective_actions bbcr_result
    | _ => []
    end in
  let '(rollback_success, effects) := _execute_rollback corrective_actions in
  ({| success := rollback_success;
      stage := "rollback";
      message := "Rollback " +:+ (if rollback_success then "completed" else "failed");
      data := RollbackDone corrective_actions rollback_success;
      execution_time := elapsed env "rollback";
      rollback_needed := false |}, effects).

(** [bbpf_result.data.get("implementation_output", "")] *)
Definition implementation_output_of (d : ResultData) : string :=
  match d with
  | PipelineDone _ out => out
  | _ => EmptyString
  end.

Definition orchestrate_claude_flow_project (env : Env)
    (project_name idea_text project_complexity : string) : WFGYResult * list Effect :=
  let bbmc_result := _bbmc_validation env idea_text in
  if negb (success bbmc_result) then (bbmc_result, [])
  else
    let bbam_result := _bbam_optimization env idea_text project_complexity in
    if negb (success bbam_result) then (bbam_result, [])
    else
      let '(bbpf_result, effects) :=
        _bbpf_execution env project_name idea_text (data bbam_result) in
      if negb (success bbpf_result) then (bbpf_result, effects)
      else
        let bbcr_result :=
          _bbcr_validation env idea_text (implementation_output_of (data bbpf_result)) in
        if rollback_needed bbcr_result
        then let '(r, more) := _handle_rollback env bbcr_result in (r, effects ++ more)
        else ({| success := true;
                 stage := "completed";
                 message := "WFGY orchestration completed successfully";
                 data := Completed (data bbmc_result) (data bbam_result)
                                   (data bbpf_result) (data bbcr_result);
                 execution_time := elapsed env "total";
                 rollback_needed := false |}, effects).

Definition wfgy_claude_flow_orchestration (env : Env)
    (project_name idea_text project_complexity : string) : WFGYResult * list Effect :=
  orchestrate_claude_flow_project env project_name idea_text project_complexity.

End Integrated.

(** ** Further vocabulary *)

Module Notions.

(** The architecture keywords that have an entry in
    [architecture_constraints]. *)
Definition constrained_keywords : list string :=
  map fst Contradiction.architecture_constraints.

(** The rollback actions a detected contradiction can carry: the six of
    [_get_rollback_action] and the two fixed ones of the technology and
    architecture checks. *)
Definition known_rollback_actions : list string :=
  [ "Rollback to previous architecture decision";
    "Review and align technology stack";
    "Rollback to requirement validation stage";
    "Optimize or change technology choice";
    "Rollback to security review stage";
    "Reconsider architecture for scalability";
    "Review and align technology choices";
    "Add missing architecture components" ].

(** A run in which every command exits with status 0 and an output that
    passes its stage's validation. *)
Definition all_commands_pass : Pipeline.World :=
  {| Pipeline.run := fun step =>
       match Pipeline.stage step with
       | Pipeline.VALIDATION => Pipeline.Exited 0 "is_valid: True" "" 1
       | Pipeline.ANALYSIS =>
           Pipeline.Exited 0
             "The architecture is a small REST service with one worker queue and a relational store behind it; see the component list." "" 1
       | Pipeline.PLANNING => Pipeline.Exited 0 "plan: three steps" "" 1
       | Pipeline.IMPLEMENTATION => Pipeline.Exited 0 "Created 12 files" "" 1
       | Pipeline.TESTING => Pipeline.Exited 0 "42 passed" "" 1
       | Pipeline.DEPLOYMENT => Pipeline.Exited 0 "service running" "" 1
       end;
     Pipeline.run_rollback := fun _ => true |}.

Section Outcomes.
Import Pipeline.
Context (pipeline_steps : PipelineStage -> PipelineStep).

(** Every recorded result is a success whose output passed validation. *)
Definition all_passed (res : gmap PipelineStage PipelineResult) : Prop :=
  forall s r, res !! s = Some r ->
    status r = SUCCESS /\ _validate_step_output (pipeline_steps s) (output r) = true.

(** An event that reports neither a failed validation nor a failed command. *)
Definition calm (e : Event) : Prop :=
  match e with
  | ValidationFailed _ | PipelineFailed _ => False
  | _ => True
  end.

(** How a run can end: without failure (completed, or stopped by the
    dependency check), halted by an output that failed validation, or
    halted by a failed command. *)
Inductive run_outcome (st : State) : Prop :=
| NoFailure :
    all_passed (results st) ->
    (forall e, In e (trace st) -> calm e) ->
    run_outcome st
| HaltedByValidation (s : PipelineStage) (r : PipelineResult) :
    results st !! s = Some r -> status r = SUCCESS ->
    _validate_step_output (pipeline_steps s) (output r) = false ->
    (forall s' r', results st !! s' = Some r' -> status r' = SUCCESS) ->
    In (ValidationFailed s) (trace st) ->
    (forall s', ~ In (PipelineFailed s') (trace st)) ->
    run_outcome st
| HaltedByFailure (s : PipelineStage) (r : PipelineResult) :
    results st !! s = Some r -> status r = FAILED ->
    In (PipelineFailed s) (trace st) ->
    (forall s', ~ In (ValidationFailed s') (trace st)) ->
    run_outcome st.

End Outcomes.

End Notions.

(** * Properties *)

(** ** Texts and patterns *)

Section TextFacts.
Import Text Re.

Lemma lower_ascii_idemp (a : ascii) : lower_ascii (lower_ascii a) = lower_ascii a.
Proof. destruct a as [[] [] [] [] [] [] [] []]; reflexivity. Qed.

Lemma lower_ascii_newline (a : ascii) :
  Ascii.eqb (lower_ascii a) newline = Ascii.eqb a newline.
Proof. destruct a as [[] [] [] [] [] [] [] []]; reflexivity. Qed.

Lemma lower_idemp (s : string) : lower (lower s) = lower s.
Proof. induction s as [|a s IH]; simpl; [done|]. by rewrite lower_ascii_idemp, IH. Qed.

Lemma lowercase_seq r1 r2 :
  lowercase r1 = true -> lowercase r2 = true -> lowercase (seq r1 r2) = true.
Proof.
  intros H1 H2. destruct r1, r2; simpl in *; try done;
    rewrite ?H1, ?H2; simpl; try done;
    repeat (apply andb_true_intro; split); auto.
Qed.

Lemma lowercase_alt r1 r2 :
  lowercase r1 = true -> lowercase r2 = true -> lowercase (alt r1 r2) = true.
Proof.
  intros H1 H2. destruct r1, r2; simpl in *; try done;
    rewrite ?H1, ?H2; simpl; try done;
    repeat (apply andb_true_intro; split); auto.
Qed.

Lemma lowercase_deriv ic a r : lowercase r = true -> lowercase (deriv ic a r) = true.
Proof.
  induction r as [| |c| |r1 IH1 r2 IH2|r1 IH1 r2 IH2|r1 IH1|r1 IH1]; simpl; intros H;
    try done.
  - by destruct (chr_match ic c a).
  - by destruct (Ascii.eqb a newline).
  - apply andb_prop in H as [H1 H2].
    destruct (nullable r1); auto using lowercase_seq, lowercase_alt.
  - apply andb_prop in H as [H1 H2]. auto using lowercase_alt.
  - auto.
  - apply lowercase_seq; auto.
Qed.

(** On a pattern without upper-case literals, a step of the
    case-insensitive matcher is a step of the exact matcher on the
    lowered character. *)
Lemma deriv_ignorecase a r :
  lowercase r = true -> deriv true a r = deriv false (lower_ascii a) r.
Proof.
  induction r as [| |c| |r1 IH1 r2 IH2|r1 IH1 r2 IH2|r1 IH1|r1 IH1]; simpl; intros H;
    try done.
  - apply Ascii.eqb_eq in H. unfold chr_match. by rewrite H.
  - by rewrite lower_ascii_newline.
  - apply andb_prop in H as [H1 H2]. by rewrite IH1, IH2.
  - apply andb_prop in H as [H1 H2]. by rewrite IH1, IH2.
  - auto.
  - by rewrite IH1.
Qed.

Lemma match_prefix_ignorecase s : forall r,
  lowercase r = true -> match_prefix true r s = match_prefix false r (lower s).
Proof.
  induction s as [|a s IH]; intros r H; simpl; [done|].
  rewrite deriv_ignorecase by done.
  by rewrite IH by (by apply lowercase_deriv).
Qed.

Lemma search_regex_ignorecase s r :
  lowercase r = true -> search_regex true r s = search_regex false r (lower s).
Proof.
  intros H. induction s as [|a s IH].
  - reflexivity.
  - change (search_regex true r (String a s))
      with (match_prefix true r (String a s) || search_regex true r s).
    rewrite IH, (match_prefix_ignorecase (String a s) r H). reflexivity.
Qed.

(** [re.search(p, text, re.IGNORECASE)] is [re.search(p, text.lower())]
    for a pattern written in lower case. *)
Lemma search_ignorecase_lower p text :
  lowercase (compile p) = true -> search_ignorecase p text = search p (lower text).
Proof. apply search_regex_ignorecase. Qed.

Lemma any_hit_count keywords text :
  any_hit keywords text = (1 <=? count_hits keywords text)%nat.
Proof.
  unfold any_hit, count_hits. induction keywords as [|k ks IH]; simpl; [done|].
  rewrite filter_cons. destruct (contains k text) eqn:E.
  - rewrite decide_True by done. done.
  - rewrite decide_False by done. done.
Qed.

(** *** The matcher against the language of a pattern *)

Section Semantics.
Context (ic : bool).

Lemma append_nil_l t : "" +:+ t = t.
Proof. reflexivity. Qed.

Lemma append_cons a s t : String a s +:+ t = String a (s +:+ t).
Proof. reflexivity. Qed.

Lemma append_eq_empty s1 s2 : s1 +:+ s2 = "" -> s1 = "" /\ s2 = "".
Proof. destruct s1; rewrite ?append_nil_l, ?append_cons; [done|discriminate]. Qed.

Lemma lang_empty s : ~ lang ic REmpty s.
Proof. inversion 1. Qed.

Lemma lang_seq r1 r2 s :
  lang ic (RSeq r1 r2) s <-> exists s1 s2, s = s1 +:+ s2 /\ lang ic r1 s1 /\ lang ic r2 s2.
Proof.
  split.
  - inversion 1; subst; eauto.
  - intros (s1 & s2 & -> & H1 & H2). by constructor.
Qed.

Lemma lang_alt r1 r2 s : lang ic (RAlt r1 r2) s <-> lang ic r1 s \/ lang ic r2 s.
Proof.
  split.
  - inversion 1; subst; auto.
  - intros [H|H]; [by apply LAltL | by apply LAltR].
Qed.

Lemma lang_eps s : lang ic REps s <-> s = "".
Proof. split; [by inversion 1 | intros ->; constructor]. Qed.

Lemma nullable_lang r : nullable r = true <-> lang ic r "".
Proof.
  induction r as [| |c| |r1 IH1 r2 IH2|r1 IH1 r2 IH2|r1 IH1|r1 IH1]; simpl.
  - split; [done|inversion 1].
  - split; [constructor|done].
  - split; [done|inversion 1].
  - split; [done|inversion 1].
  - rewrite andb_true_iff, IH1, IH2, lang_seq. split.
    + intros [H1 H2]. by exists "", "".
    + intros (s1 & s2 & E & H1 & H2). symmetry in E.
      apply append_eq_empty in E as [-> ->]. done.
  - by rewrite orb_true_iff, IH1, IH2, lang_alt.
  - split; [constructor|done].
  - split; [constructor|done].
Qed.

Lemma seq_lang r1 r2 s : lang ic (seq r1 r2) s <-> lang ic (RSeq r1 r2) s.
Proof.
  rewrite lang_seq. split.
  - destruct r1, r2; simpl; intros H;
      try (by destruct (lang_empty _ H));
      try (apply lang_seq in H; exact H);
      try (exists "", s; rewrite append_nil_l; repeat split; [constructor | exact H]).
  - intros (s1 & s2 & -> & H1 & H2).
    destruct r1, r2; simpl;
      try (by destruct (lang_empty _ H1)); try (by destruct (lang_empty _ H2));
      try (apply lang_seq; eauto; fail);
      apply lang_eps in H1; subst; by rewrite append_nil_l.
Qed.

Lemma alt_lang r1 r2 s : lang ic (alt r1 r2) s <-> lang ic (RAlt r1 r2) s.
Proof.
  rewrite lang_alt. split.
  - destruct r1, r2; simpl; intros H;
      first [ apply lang_alt in H; exact H | tauto ].
  - intros [H|H]; destruct r1, r2; simpl;
      first [ by destruct (lang_empty _ H) | exact H | apply lang_alt; tauto ].
Qed.

Lemma lang_seq_cons r1 r2 a s :
  lang ic (RSeq r1 r2) (String a s) <->
  (lang ic r1 "" /\ lang ic r2 (String a s)) \/
  (exists s1 s2, s = s1 +:+ s2 /\ lang ic r1 (String a s1) /\ lang ic r2 s2).
Proof.
  rewrite lang_seq. split.
  - intros (s1 & s2 & E & H1 & H2). destruct s1 as [|b s1].
    + left. rewrite append_nil_l in E. by subst.
    + right. rewrite append_cons in E. injection E as -> ->. eauto.
  - intros [[H1 H2]|(s1 & s2 & -> & H1 & H2)].
    + by exists "", (String a s).
    + by exists (String a s1), s2.
Qed.

Lemma deriv_lang a r : forall s, lang ic (deriv ic a r) s <-> lang ic r (String a s).
Proof.
  induction r as [| |c| |r1 IH1 r2 IH2|r1 IH1 r2 IH2|r1 IH1|r1 IH1]; intros s; simpl.
  - split; inversion 1.
  - split; inversion 1.
  - destruct (chr_match ic c a) eqn:E.
    + split; [inversion 1; by constructor | inversion 1; constructor].
    + split; [inversion 1 | inversion 1; congruence].
  - destruct (Ascii.eqb a newline) eqn:E.
    + split; [inversion 1 | inversion 1; congruence].
    + split; [inversion 1; by constructor | inversion 1; constructor].
  - rewrite lang_seq_cons.
    assert (lang ic (seq (deriv ic a r1) r2) s <->
            exists s1 s2, s = s1 +:+ s2 /\ lang ic r1 (String a s1) /\ lang ic r2 s2) as Hd.
    { rewrite seq_lang, lang_seq. split.
      - intros (s1 & s2 & -> & H1 & H2). exists s1, s2. by rewrite <- IH1.
      - intros (s1 & s2 & -> & H1 & H2). exists s1, s2. by rewrite IH1. }
    destruct (nullable r1) eqn:En.
    + rewrite alt_lang, lang_alt, Hd, IH2, <- nullable_lang, En. tauto.
    + rewrite Hd, <- nullable_lang, En. intuition discriminate.
  - by rewrite alt_lang, !lang_alt, IH1, IH2.
  - rewrite IH1. split; [by constructor | by inversion 1].
  - rewrite seq_lang, lang_seq. split.
    + intros (s1 & s2 & -> & H1 & H2). apply LStarCons; [by apply IH1 | done].
    + inversion 1; subst. eexists _, _. split; [done|]. by rewrite IH1.
Qed.

Lemma match_prefix_lang s : forall r,
  match_prefix ic r s = true <-> exists p q, s = p +:+ q /\ lang ic r p.
Proof.
  induction s as [|a s IH]; intros r; simpl.
  - rewrite orb_false_r, nullable_lang. split.
    + intros H. by exists "", "".
    + intros (p & q & E & H). symmetry in E. apply append_eq_empty in E as [-> ->]. done.
  - rewrite orb_true_iff, nullable_lang, IH. split.
    + intros [H|(p & q & -> & H)].
      * by exists "", (String a s).
      * exists (String a p), q. split; [done|]. by apply deriv_lang.
    + intros (p & q & E & H). destruct p as [|b p]; [by left|].
      rewrite append_cons in E. injection E as -> ->. right. exists p, q. split; [done|].
      by apply deriv_lang.
Qed.

Lemma search_regex_lang r s :
  search_regex ic r s = true <-> exists a p b, s = a +:+ p +:+ b /\ lang ic r p.
Proof.
  induction s as [|c s IH].
  - simpl. rewrite !orb_false_r, nullable_lang. split.
    + intros H. by exists "", "", "".
    + intros (a & p & b & E & H). symmetry in E.
      apply append_eq_empty in E as [-> E]. apply append_eq_empty in E as [-> ->]. done.
  - change (search_regex ic r (String c s))
      with (match_prefix ic r (String c s) || search_regex ic r s).
    rewrite orb_true_iff, IH, match_prefix_lang. split.
    + intros [(p & q & E & H)|(a & p & b & -> & H)].
      * by exists "", p, q.
      * by exists (String c a), p, b.
    + intros (a & p & b & E & H). destruct a as [|c' a].
      * left. by exists p, b.
      * rewrite append_cons in E. injection E as -> ->. right. eauto.
Qed.
End Semantics.

(** [re.search] finds a text of the pattern's language somewhere in the
    subject. *)
Lemma search_spec pattern text :
  search pattern text = true <->
  exists a m b, text = a +:+ m +:+ b /\ lang false (compile pattern) m.
Proof. apply search_regex_lang. Qed.

Lemma startswith_spec needle : forall hay,
  startswith needle hay = true <-> exists b, hay = needle +:+ b.
Proof.
  induction needle as [|c n IH]; intros hay.
  - split; [intros _; by exists hay | done].
  - destruct hay as [|d h]; simpl.
    + split; [done | intros (b & E); discriminate E].
    + rewrite andb_true_iff, Ascii.eqb_eq, IH. split.
      * intros (-> & b & ->). by exists b.
      * intros (b & E). rewrite append_cons in E. injection E as -> ->. eauto.
Qed.

Lemma contains_spec needle hay :
  contains needle hay = true <-> exists a b, hay = a +:+ needle +:+ b.
Proof.
  induction hay as [|d h IH].
  - simpl. rewrite orb_false_r, startswith_spec. split.
    + intros (b & E). by exists "", b.
    + intros (a & b & E). symmetry in E. apply append_eq_empty in E as [-> E].
      by exists b.
  - change (contains needle (String d h))
      with (startswith needle (String d h) || contains needle h).
    rewrite orb_true_iff, IH, startswith_spec. split.
    + intros [(b & E)|(a & b & ->)].
      * by exists "", b.
      * by exists (String d a), b.
    + intros (a & b & E). destruct a as [|c a].
      * left. by exists b.
      * rewrite append_cons in E. injection E as -> ->. right. eauto.
Qed.

End TextFacts.

(** ** The input validator *)

Section ValidationFacts.
Import Text Validation.

Lemma fold_check_element idea_lower items : forall missing found,
  fold_left (check_element idea_lower) items (missing, found) =
  (missing ++ map fst (List.filter (fun it => negb (Re.search (snd it) idea_lower)) items),
   found ++ map fst (List.filter (fun it => Re.search (snd it) idea_lower) items)).
Proof.
  induction items as [|[element pattern] items IH]; intros missing found; simpl.
  - by rewrite !app_nil_r.
  - destruct (Re.search pattern idea_lower); simpl; rewrite IH;
      by rewrite <- ?app_assoc.
Qed.

Lemma validate_missing_elements idea_text :
  missing_elements (validate_idea_structure idea_text) =
  map fst (List.filter (fun it => negb (Re.search (snd it) (lower idea_text)))
                       required_elements).
Proof.
  unfold validate_idea_structure. rewrite fold_check_element.
  destruct (_suggest_topology _ _). reflexivity.
Qed.

Lemma validate_is_valid idea_text :
  is_valid (validate_idea_structure idea_text) =
  (3 <=? length (List.filter (fun it => Re.search (snd it) (lower idea_text))
                             required_elements))%nat.
Proof.
  unfold validate_idea_structure. rewrite fold_check_element.
  destruct (_suggest_topology _ _). simpl is_valid.
  by rewrite length_map.
Qed.

Lemma validate_complexity idea_text :
  complexity (validate_idea_structure idea_text) = _assess_complexity idea_text.
Proof.
  unfold validate_idea_structure. rewrite fold_check_element.
  destruct (_suggest_topology _ _). reflexivity.
Qed.

Lemma validate_topology idea_text :
  (suggested_topology (validate_idea_structure idea_text),
   estimated_agents (validate_idea_structure idea_text)) =
  _suggest_topology (_assess_complexity idea_text) idea_text.
Proof.
  unfold validate_idea_structure. rewrite fold_check_element.
  destruct (_suggest_topology _ _). reflexivity.
Qed.

Lemma validate_sparc_mode idea_text :
  suggested_sparc_mode (validate_idea_structure idea_text) = _suggest_sparc_mode idea_text.
Proof.
  unfold validate_idea_structure. rewrite fold_check_element.
  destruct (_suggest_topology _ _). reflexivity.
Qed.

Lemma required_elements_lowercase :
  Forall (fun it => Re.lowercase (Re.compile (snd it)) = true) required_elements.
Proof. repeat constructor. Qed.

Lemma category_matches_lower description category :
  In category required_elements ->
  Spec.category_matches description category = Re.search (snd category) (lower description).
Proof.
  intros Hin. apply search_ignorecase_lower.
  pose proof required_elements_lowercase as HF.
  rewrite List.Forall_forall in HF. by apply HF.
Qed.

(** C8. For every description, [validate_idea_structure] reports
    [is_valid = true] exactly when at least 3 of the 5 required-element
    categories match the description under case-insensitive pattern
    search, and [missing_elements] lists exactly the categories that did
    not match (in the order of the table). *)
Theorem validate_valid_iff_three_of_five (description : string) :
  let r := validate_idea_structure description in
  length required_elements = 5%nat /\
  (is_valid r = true <->
   (3 <= length (List.filter (Spec.category_matches description) required_elements))%nat) /\
  missing_elements r =
    map fst (List.filter (fun c => negb (Spec.category_matches description c))
                         required_elements).
Proof.
  cbv zeta. split; [reflexivity|]. split.
  - rewrite validate_is_valid, Nat.leb_le.
    rewrite (List.filter_ext_in (Spec.category_matches description)
               (fun it => Re.search (snd it) (lower description))); [done|].
    intros c Hc. by apply category_matches_lower.
  - rewrite validate_missing_elements. f_equal.
    apply List.filter_ext_in. intros c Hc. by rewrite category_matches_lower.
Qed.

(** End-to-end scenario 1 of the specification. *)
Example scenario1_task_manager :
  let r := validate_idea_structure
             "Build a task manager for individual users. Users: students. Goal: organize tasks. Inputs: task text. Outputs: task list. Runtime: local." in
  is_valid r = true /\ complexity r = SIMPLE /\ missing_elements r = [] /\
  suggested_topology r = "hive" /\ estimated_agents r = 3%Z.
Proof. vm_compute. repeat split. Qed.

Example empty_description_is_invalid :
  let r := validate_idea_structure "" in
  is_valid r = false /\
  missing_elements r = ["users"; "goal"; "inputs"; "outputs"; "runtime"].
Proof. vm_compute. split; reflexivity. Qed.

(** C5, as the claim states it, fails: a complex description gets 7
    agents where the claim promises [min(8, 5 + 3) = 8], and a simple
    description with a single parallelism keyword gets swarm with 7 agents
    where the claim promises hive with 3. *)
Lemma suggest_topology_not_as_specified :
  (let d := "distributed microservices real-time" in
   let r := validate_idea_structure d in
   complexity r = COMPLEX /\
   (suggested_topology r, estimated_agents r) = ("swarm", 7%Z) /\
   Spec.topology_suggestion (complexity r) (Spec.parallel_hits d) = ("swarm", 8%Z)) /\
  (let d := "simple basic api" in
   let r := validate_idea_structure d in
   complexity r = SIMPLE /\ Spec.parallel_hits d = 1%nat /\
   (suggested_topology r, estimated_agents r) = ("swarm", 7%Z) /\
   Spec.topology_suggestion (complexity r) (Spec.parallel_hits d) = ("hive", 3%Z)).
Proof. vm_compute. repeat split. Qed.

Lemma suggest_topology_cases (c : IdeaComplexity) idea_text :
  _suggest_topology c idea_text =
  if complexity_eqb c COMPLEX || (1 <=? Spec.parallel_hits idea_text)%nat
  then ("swarm", 7%Z)
  else if complexity_eqb c MEDIUM then ("swarm", 5%Z) else ("hive", 3%Z).
Proof. unfold _suggest_topology. by rewrite any_hit_count. Qed.

(** C5, amended. For every description, with [c] the assessed complexity
    and [hits] the number of parallelism keywords it contains: if [c] is
    complex or [hits >= 1] the suggestion is swarm with 7 agents; otherwise
    if [c] is medium it is swarm with 5 agents; otherwise hive with 3. *)
Theorem suggest_topology_amended (description : string) :
  let r := validate_idea_structure description in
  let hits := Spec.parallel_hits description in
  ((complexity r = COMPLEX \/ (1 <= hits)%nat) ->
     suggested_topology r = "swarm" /\ estimated_agents r = 7%Z) /\
  ((complexity r = MEDIUM /\ hits = 0%nat) ->
     suggested_topology r = "swarm" /\ estimated_agents r = 5%Z) /\
  ((complexity r = SIMPLE /\ hits = 0%nat) ->
     suggested_topology r = "hive" /\ estimated_agents r = 3%Z).
Proof.
  cbv zeta. pose proof (validate_topology description) as H.
  rewrite <- validate_complexity, suggest_topology_cases in H.
  pose proof (f_equal fst H) as H1. pose proof (f_equal snd H) as H2.
  clear H. simpl fst in H1. simpl snd in H2.
  destruct (complexity (validate_idea_structure description));
    destruct (Spec.parallel_hits description) as [|n];
    simpl in H1, H2; rewrite H1, H2;
    intuition (congruence || lia).
Qed.

End ValidationFacts.

(** ** The attention manager *)

Section AttentionFacts.
Import Text Attention.

Lemma set_priority_id t : priority t = CRITICAL -> set_priority CRITICAL t = t.
Proof. destruct t; simpl; intros ->; reflexivity. Qed.

Lemma adjust_priority_id clarity complexity store r :
  Spec.already_critical store -> adjust_priority clarity complexity store r = store.
Proof.
  intros Hinv. unfold adjust_priority.
  destruct (store !! r) as [target|] eqn:Hr; [|done].
  pose proof (Forall_lookup_1 _ _ _ _ Hinv Hr) as Hcrit. simpl in Hcrit.
  destruct (String.eqb_spec (name target) "idea_clarity") as [Hn|_]; simpl.
  - destruct (Py.Qltb clarity 0.7).
    + rewrite set_priority_id by auto. by apply list_insert_id.
    + rewrite Hn. simpl. done.
  - destruct (String.eqb_spec (name target) "topology_optimization") as [Hn|_]; simpl;
      [|done].
    destruct (String.eqb (lower complexity) "complex"); [|done].
    rewrite set_priority_id by auto. by apply list_insert_id.
Qed.

Lemma fold_adjust_priority_id clarity complexity store refs :
  Spec.already_critical store ->
  fold_left (adjust_priority clarity complexity) refs store = store.
Proof.
  intros Hinv. induction refs as [|r refs IH]; simpl; [done|].
  by rewrite adjust_priority_id.
Qed.

Lemma new_manager_already_critical : Spec.already_critical (objects new_manager).
Proof.
  unfold Spec.already_critical. simpl.
  repeat constructor; simpl; intros [H|H]; first [reflexivity | discriminate H].
Qed.

Lemma get_attention_priorities_unchanged clarity complexity m :
  Spec.already_critical (objects m) ->
  fst (_get_attention_priorities clarity complexity m) = m.
Proof.
  intros Hinv. unfold _get_attention_priorities. simpl.
  rewrite fold_adjust_priority_id by done. by destruct m.
Qed.

Lemma analyze_unchanged idea_text project_complexity m :
  Spec.already_critical (objects m) ->
  fst (analyze_attention_requirements idea_text project_complexity m) = m.
Proof.
  intros Hinv. unfold analyze_attention_requirements.
  pose proof (get_attention_priorities_unchanged
                (_analyze_idea_clarity idea_text) project_complexity m Hinv) as H.
  destruct (_get_attention_priorities _ _ m). exact H.
Qed.

Lemma optimize_unchanged idea_text project_complexity m :
  Spec.already_critical (objects m) ->
  fst (optimize_orchestration idea_text project_complexity m) = m.
Proof.
  intros Hinv. unfold optimize_orchestration.
  pose proof (analyze_unchanged idea_text project_complexity m Hinv) as H.
  destruct (analyze_attention_requirements _ _ m). exact H.
Qed.

(** C3. For every idea text and complexity string, the attention analysis
    and the whole optimize call leave the manager as it was: the object
    store and the dictionary are equal before and after, so every catalog
    entry keeps its priority, impact score and other fields, whatever the
    clarity score and the complexity are. *)
Theorem catalog_unchanged_by_analysis (idea_text project_complexity : string) :
  let m := new_manager in
  let after_analysis := fst (analyze_attention_requirements idea_text project_complexity m) in
  let after_optimize := fst (optimize_orchestration idea_text project_complexity m) in
  after_analysis = m /\ after_optimize = m /\
  catalog_view after_analysis = catalog_view m /\
  catalog_view after_optimize = catalog_view m /\
  catalog_view m = map (fun kv => (fst kv, Some (snd kv))) _define_attention_targets.
Proof.
  cbv zeta.
  rewrite analyze_unchanged by apply new_manager_already_critical.
  rewrite optimize_unchanged by apply new_manager_already_critical.
  repeat split; reflexivity.
Qed.

(** The assignment in the loop does write through the reference: on a
    store whose [idea_clarity] object is not critical, the shared object
    changes. *)
Example promotion_writes_through :
  let low_clarity := set_priority LOW <$> objects new_manager !! 0%nat in
  let m := {| objects := from_option (fun t => <[0%nat := t]> (objects new_manager))
                                     (objects new_manager) low_clarity;
              attention_targets := attention_targets new_manager |} in
  priority <$> objects m !! 0%nat = Some LOW /\
  priority <$> objects (fst (_get_attention_priorities 0.5 "medium" m)) !! 0%nat
    = Some CRITICAL.
Proof. vm_compute. split; reflexivity. Qed.

(** Both promotion conditions can hold in a run on the fresh manager. *)
Example promotion_conditions_hold :
  Py.Qltb (_analyze_idea_clarity "Build something") 0.7 = true /\
  String.eqb (lower "Complex") "complex" = true.
Proof. vm_compute. split; reflexivity. Qed.

Lemma get_attention_priorities_result clarity complexity :
  snd (_get_attention_priorities clarity complexity new_manager) = [6; 7; 8; 9; 3]%nat.
Proof.
  unfold _get_attention_priorities. cbn [snd].
  rewrite fold_adjust_priority_id by apply new_manager_already_critical.
  vm_compute. reflexivity.
Qed.

Lemma analyze_priorities idea_text project_complexity m :
  attention_priorities (snd (analyze_attention_requirements idea_text project_complexity m))
  = snd (_get_attention_priorities (_analyze_idea_clarity idea_text) project_complexity m).
Proof.
  unfold analyze_attention_requirements.
  destruct (_get_attention_priorities _ _ m). reflexivity.
Qed.

(** C4 (the code departs from the claim). For every idea text and
    complexity, the targets returned by the prioritization step are, in
    this order, progress_tracking, resource_monitoring, logging,
    documentation and agent_coordination: the catalog sorted downwards by
    the priority's string value ("medium" > "low" > "high" > "critical"),
    with no critical target among them.  The top 5 by the order
    critical > high > medium > low are idea_clarity, sparc_mode_selection,
    topology_optimization, agent_coordination and memory_management. *)
Theorem attention_priorities_sorted_by_priority_name
    (idea_text project_complexity : string) :
  let run := analyze_attention_requirements idea_text project_complexity new_manager in
  let returned := Spec.deref (fst run) (attention_priorities (snd run)) in
  map (fmap name) returned =
    [ Some "progress_tracking"; Some "resource_monitoring"; Some "logging";
      Some "documentation"; Some "agent_coordination" ] /\
  map (fmap priority) returned =
    [ Some MEDIUM; Some MEDIUM; Some LOW; Some LOW; Some HIGH ] /\
  map name (Spec.top_priorities (objects new_manager)) =
    [ "idea_clarity"; "sparc_mode_selection"; "topology_optimization";
      "agent_coordination"; "memory_management" ].
Proof.
  cbv zeta.
  rewrite analyze_unchanged by apply new_manager_already_critical.
  rewrite analyze_priorities, get_attention_priorities_result.
  vm_compute. repeat split.
Qed.

Lemma count_found_filter idea_lower (items : list (string * string)) : forall n,
  fold_left (fun found item => if Re.search (snd item) idea_lower then S found else found)
            items n
  = (n + length (List.filter (fun it => Re.search (snd it) idea_lower) items))%nat.
Proof.
  induction items as [|it items IH]; intros n; simpl; [lia|].
  destruct (Re.search (snd it) idea_lower); rewrite IH; simpl; lia.
Qed.

Lemma clarity_clamped x : (0 <= Qmin 1 (Qmax 0 x) /\ Qmin 1 (Qmax 0 x) <= 1)%Q.
Proof.
  split.
  - apply Q.min_glb; [done | apply Q.le_max_l].
  - apply Q.le_min_l.
Qed.

(** C6, as the claim states it, fails: a description that matches the five
    completeness categories and nothing else scores 5/6, not 5/5. *)
Lemma clarity_is_not_a_fraction_of_five :
  let d := "users goal input output local" in
  (_analyze_idea_clarity d == 5 # 6)%Q /\ (Spec.clarity_score d == 1)%Q /\
  length (List.filter (Spec.category_matches d) Validation.required_elements) = 5%nat /\
  ~ (_analyze_idea_clarity d == Spec.clarity_score d)%Q.
Proof. vm_compute. repeat split; discriminate. Qed.

(** C6, amended. For every description the clarity score is the number of
    matched categories among six (the five completeness categories and
    technical_details: api, database, framework, language or
    architecture) divided by 6, plus 0.1 if the text mentions technical,
    architecture or framework, minus 0.1 if it contains something,
    anything or whatever, clamped to [0,1]. *)
Theorem clarity_score_amended (description : string) :
  _analyze_idea_clarity description = Spec.clarity_score_of_six description /\
  (0 <= _analyze_idea_clarity description)%Q /\
  (_analyze_idea_clarity description <= 1)%Q.
Proof.
  split; [|apply clarity_clamped].
  unfold _analyze_idea_clarity, Spec.clarity_score_of_six, count_found.
  rewrite count_found_filter.
  change clarity_indicators
    with (Validation.required_elements
          ++ [("technical_details", "api|database|framework|language|architecture")]).
  rewrite List.filter_app, length_app.
  rewrite (List.filter_ext_in (Spec.category_matches description)
             (fun it => Re.search (snd it) (lower description)))
    by (intros c Hc; by apply category_matches_lower).
  rewrite !search_ignorecase_lower by (vm_compute; reflexivity).
  cbn [List.filter snd].
  destruct (Re.search "api|database|framework|language|architecture" (lower description));
    reflexivity.
Qed.

Lemma complexity_scores_get_value (c : Validation.IdeaComplexity) :
  complexity_scores_get (Validation.complexity_value c) = Spec.complexity_score c.
Proof. destruct c; reflexivity. Qed.

(** The manager's topology rule is the one section 4.1 words. *)
Lemma determine_topology_cases (c : Validation.IdeaComplexity) idea_text :
  let t := _determine_optimal_topology (Validation.complexity_value c) idea_text in
  (topology t, agent_count t) = Spec.topology_suggestion c (Spec.parallel_hits idea_text).
Proof.
  cbv zeta. unfold _determine_optimal_topology, Spec.topology_suggestion.
  rewrite complexity_scores_get_value.
  change (count_hits parallel_indicators (lower idea_text))
    with (Spec.parallel_hits idea_text).
  destruct c; destruct (2 <=? Spec.parallel_hits idea_text)%nat; reflexivity.
Qed.

Lemma sparc_mode_agrees idea_text :
  _determine_optimal_sparc_mode idea_text = Validation._suggest_sparc_mode idea_text.
Proof.
  unfold _determine_optimal_sparc_mode, Validation._suggest_sparc_mode.
  change mode_keywords with Validation.sparc_mode_keywords.
  destruct (snd (Py.max_by_value _)); reflexivity.
Qed.

Lemma optimize_parameters idea_text hint :
  let p := optimized_parameters (bbam_optimize_claude_flow idea_text hint) in
  sparc_mode p = _determine_optimal_sparc_mode idea_text /\
  param_topology p = topology (_determine_optimal_topology hint idea_text) /\
  param_agent_count p = agent_count (_determine_optimal_topology hint idea_text).
Proof.
  cbv zeta.
  unfold bbam_optimize_claude_flow, optimize_orchestration, analyze_attention_requirements.
  destruct (_get_attention_priorities _ _ new_manager). repeat split.
Qed.

(** C2, as the claim states it, fails: for a complex description the
    optimizer plans 8 agents where the validator estimates 7. *)
Lemma optimizer_and_validator_disagree :
  let d := "distributed microservices real-time" in
  let v := Validation.validate_idea_structure d in
  let hint := Validation.complexity_value (Validation.complexity v) in
  let p := optimized_parameters (bbam_optimize_claude_flow d hint) in
  hint = "complex" /\ param_agent_count p = 8%Z /\ Validation.estimated_agents v = 7%Z /\
  param_agent_count p <> Validation.estimated_agents v.
Proof. vm_compute. repeat split. discriminate. Qed.

(** C2, amended. For every description, with the complexity hint equal to
    the complexity the validator assigns: the optimizer's SPARC mode is
    the validator's; its topology is the validator's unless the
    complexity is simple and exactly one parallelism keyword occurs; its
    agent count is the validator's exactly when the complexity is not
    complex and either no parallelism keyword occurs, or the complexity
    is medium and at least two occur. *)
Theorem optimizer_agreement_amended (description : string) :
  let v := Validation.validate_idea_structure description in
  let c := Validation.complexity v in
  let hits := Spec.parallel_hits description in
  let p := optimized_parameters
             (bbam_optimize_claude_flow description (Validation.complexity_value c)) in
  sparc_mode p = Validation.suggested_sparc_mode v /\
  (param_topology p = Validation.suggested_topology v <->
     ~ (c = Validation.SIMPLE /\ hits = 1%nat)) /\
  (param_agent_count p = Validation.estimated_agents v <->
     c <> Validation.COMPLEX /\
     (hits = 0%nat \/ (c = Validation.MEDIUM /\ (2 <= hits)%nat))).
Proof.
  cbv zeta.
  destruct (optimize_parameters description
              (Validation.complexity_value
                 (Validation.complexity (Validation.validate_idea_structure description))))
    as (Hm & Ht & Ha).
  rewrite Hm, Ht, Ha. clear Hm Ht Ha.
  rewrite sparc_mode_agrees, validate_sparc_mode. split; [reflexivity|].
  pose proof (validate_topology description) as HV.
  rewrite <- validate_complexity, suggest_topology_cases in HV.
  pose proof (determine_topology_cases
                (Validation.complexity (Validation.validate_idea_structure description))
                description) as HM.
  cbv zeta in HM. unfold Spec.topology_suggestion in HM.
  pose proof (f_equal fst HV) as HV1. pose proof (f_equal snd HV) as HV2.
  pose proof (f_equal fst HM) as HM1. pose proof (f_equal snd HM) as HM2.
  clear HV HM. simpl fst in HV1, HM1. simpl snd in HV2, HM2.
  rewrite HV1, HV2, HM1, HM2. clear HV1 HV2 HM1 HM2.
  destruct (Validation.complexity (Validation.validate_idea_structure description));
    destruct (Spec.parallel_hits description) as [|[|n]]; simpl;
    intuition (congruence || lia).
Qed.

End AttentionFacts.

(** ** The contradiction engine *)

Section ContradictionFacts.
Import Text Contradiction.

Lemma count_filter_eqb sev (l : list contradiction) :
  length (List.filter (fun c => severity_eqb (severity c) sev) l) = Spec.count_severity sev l.
Proof.
  unfold Spec.count_severity, severity_eqb.
  induction l as [|c l IH]; simpl; [done|].
  rewrite filter_cons. destruct (decide (severity c = sev)) as [E|E].
  - rewrite bool_decide_eq_true_2 by done. simpl. by rewrite IH.
  - rewrite bool_decide_eq_false_2 by done. done.
Qed.

Lemma needs_rollback_iff (l : list contradiction) :
  _needs_rollback l = true <->
  (1 <= Spec.count_severity CRITICAL l)%nat \/ (2 <= Spec.count_severity HIGH l)%nat.
Proof.
  unfold _needs_rollback. rewrite <- !count_filter_eqb.
  destruct (List.filter (fun c => severity_eqb (severity c) CRITICAL) l) as [|c cs].
  - destruct (Nat.leb_spec 2
      (length (List.filter (fun c => severity_eqb (severity c) HIGH) l))) as [E|E].
    + intuition.
    + cbn [length]. intuition (try discriminate; lia).
  - cbn [length]. intuition lia.
Qed.

Lemma count_levels_fold (l : list contradiction) : forall counts,
  fold_left (fun counts c =>
    match severity c with
    | LOW => {| low := S (low counts); medium := medium counts;
                high := high counts; critical := critical counts |}
    | MEDIUM => {| low := low counts; medium := S (medium counts);
                   high := high counts; critical := critical counts |}
    | HIGH => {| low := low counts; medium := medium counts;
                 high := S (high counts); critical := critical counts |}
    | CRITICAL => {| low := low counts; medium := medium counts;
                     high := high counts; critical := S (critical counts) |}
    end) l counts
  = {| low := low counts + Spec.count_severity LOW l;
       medium := medium counts + Spec.count_severity MEDIUM l;
       high := high counts + Spec.count_severity HIGH l;
       critical := critical counts + Spec.count_severity CRITICAL l |}.
Proof.
  unfold Spec.count_severity.
  induction l as [|c l IH]; intros counts; simpl.
  - destruct counts; simpl; f_equal; lia.
  - rewrite IH. rewrite !filter_cons.
    destruct (severity c); simpl; f_equal; lia.
Qed.

Lemma count_severity_levels_spec (l : list contradiction) :
  _count_severity_levels l =
  {| low := Spec.count_severity LOW l; medium := Spec.count_severity MEDIUM l;
     high := Spec.count_severity HIGH l; critical := Spec.count_severity CRITICAL l |}.
Proof. unfold _count_severity_levels. by rewrite count_levels_fold. Qed.

(** C9. For every idea text and implementation output,
    [resolve_contradictions] reports [needs_rollback = true] exactly when
    the detected contradictions hold at least one of critical severity or
    at least two of high severity, and [can_proceed] is the negation of
    [needs_rollback]; with no contradiction it reports no rollback and
    permission to proceed, and with one critical contradiction it reports
    a rollback whatever the others are. *)
Theorem rollback_decision (idea_text implementation_output : string) :
  let r := resolve_contradictions idea_text implementation_output in
  let found := detect_contradictions idea_text implementation_output in
  contradictions r = found /\
  critical (severity_distribution r) = Spec.count_severity CRITICAL found /\
  high (severity_distribution r) = Spec.count_severity HIGH found /\
  (needs_rollback r = true <->
     (1 <= Spec.count_severity CRITICAL found)%nat
     \/ (2 <= Spec.count_severity HIGH found)%nat) /\
  can_proceed r = negb (needs_rollback r) /\
  (found = [] -> needs_rollback r = false /\ can_proceed r = true) /\
  (Spec.count_severity CRITICAL found = 1%nat ->
     needs_rollback r = true /\ can_proceed r = false).
Proof.
  cbv zeta. unfold resolve_contradictions. cbn [contradictions severity_distribution
    needs_rollback can_proceed]. rewrite count_severity_levels_spec. cbn [critical high].
  pose proof (needs_rollback_iff (detect_contradictions idea_text implementation_output))
    as Hiff.
  repeat split; try apply Hiff.
  - by rewrite H.
  - by rewrite H.
  - lia.
  - assert (_needs_rollback (detect_contradictions idea_text implementation_output) = true)
      as -> by (apply Hiff; lia). reflexivity.
Qed.

Example rollback_on_one_critical :
  let r := resolve_contradictions "dashboard" "Real-time feed with batch processing" in
  map severity (contradictions r) = [CRITICAL] /\ needs_rollback r = true.
Proof. vm_compute. split; reflexivity. Qed.

Example proceed_without_contradictions :
  let r := resolve_contradictions "dashboard" "Created a dashboard" in
  contradictions r = [] /\ needs_rollback r = false /\ can_proceed r = true.
Proof. vm_compute. repeat split. Qed.

Lemma scenario3_output_facts :
  pattern_contradictions Spec.scenario3_output = [] /\
  _extract_technologies Spec.scenario3_output = ["python"; "sqlite"; "django"] /\
  _extract_architecture_requirements Spec.scenario3_output = [].
Proof. vm_compute. repeat split. Qed.

Lemma scenario3_detect idea_text :
  _extract_architecture_requirements idea_text = ["real-time"; "distributed"] ->
  _extract_technologies idea_text = [] ->
  detect_contradictions idea_text Spec.scenario3_output = [Spec.scenario3_mismatch].
Proof.
  intros Harch Htech.
  destruct scenario3_output_facts as (Hpat & Himpl_tech & Himpl_arch).
  unfold detect_contradictions, _check_technology_compatibility,
    _check_architecture_constraints.
  rewrite Hpat, Htech, Harch, Himpl_arch. vm_compute. reflexivity.
Qed.

(** C7, as the claim states it, fails: the idea "real-time distributed"
    holds both keywords and no other architecture or technology keyword;
    against the scenario's output the engine reports one high
    architecture mismatch and no critical contradiction, and
    [needs_rollback] is false. *)
Lemma scenario3_needs_no_rollback :
  let idea := "real-time distributed" in
  let r := resolve_contradictions idea Spec.scenario3_output in
  _extract_architecture_requirements idea = ["real-time"; "distributed"] /\
  _extract_technologies idea = [] /\
  map (fun c => (type c, severity c)) (contradictions r) = [(ARCHITECTURE_MISMATCH, HIGH)] /\
  needs_rollback r = false /\ needs_rollback r <> true.
Proof. vm_compute. repeat split. discriminate. Qed.

(** C7, amended. For every idea text whose architecture keywords are
    exactly real-time and distributed and which holds no technology
    keyword, [resolve_contradictions] on that idea and the scenario's
    output finds exactly one contradiction, an architecture mismatch of
    high severity for real-time, and returns [needs_rollback = false] and
    [can_proceed = true]. *)
Theorem scenario3_amended (idea_text : string)
    (Harch : _extract_architecture_requirements idea_text = ["real-time"; "distributed"])
    (Htech : _extract_technologies idea_text = []) :
  let r := resolve_contradictions idea_text Spec.scenario3_output in
  contradictions r = [Spec.scenario3_mismatch] /\
  contradictions_found r = 1%nat /\
  type Spec.scenario3_mismatch = ARCHITECTURE_MISMATCH /\
  severity Spec.scenario3_mismatch = HIGH /\
  needs_rollback r = false /\ can_proceed r = true.
Proof.
  cbv zeta. unfold resolve_contradictions.
  cbn [contradictions contradictions_found needs_rollback can_proceed].
  rewrite (scenario3_detect idea_text Harch Htech). repeat split.
Qed.

Lemma scenario3_amended_witness :
  let idea := "Build a real-time, distributed event feed" in
  let r := resolve_contradictions idea Spec.scenario3_output in
  contradictions r = [Spec.scenario3_mismatch] /\
  contradictions_found r = 1%nat /\
  type Spec.scenario3_mismatch = ARCHITECTURE_MISMATCH /\
  severity Spec.scenario3_mismatch = HIGH /\
  needs_rollback r = false /\ can_proceed r = true.
Proof.
  apply (scenario3_amended "Build a real-time, distributed event feed");
    vm_compute; reflexivity.
Defined.

End ContradictionFacts.

(** ** The pipeline executor *)

Section PipelineFacts.
Import Text Pipeline.
Context (w : World) (pipeline_steps : PipelineStage -> PipelineStep).

Lemma check_dependencies_met deps res :
  _check_dependencies deps res = true <->
  forall d, In d deps -> Spec.recorded_success res d.
Proof.
  induction deps as [|dep rest IH]; simpl; [by split|].
  destruct (res !! dep) as [r|] eqn:Hr.
  - unfold status_eqb. destruct (decide (status r = SUCCESS)) as [Hs|Hs].
    + rewrite bool_decide_eq_true_2 by done. simpl. rewrite IH. split.
      * intros H d [<-|Hd]; [by exists r | by apply H].
      * intros H d Hd. apply H. by right.
    + rewrite bool_decide_eq_false_2 by done. simpl. split; [done|].
      intros H. destruct (H dep) as (r' & Hr' & Hs'); [by left|]. congruence.
  - split; [done|]. intros H.
    destruct (H dep) as (r' & Hr' & _); [by left|]. congruence.
Qed.

(** A failed dependency check ends the loop on the spot, in any state:
    the stage is not attempted and nothing is recorded. *)
Lemma run_stages_gate s rest st :
  ~ Spec.dependencies_met pipeline_steps (results st) s ->
  run_stages w pipeline_steps (s :: rest) st = emit (DependenciesNotMet s) st.
Proof.
  intros Hnot. cbn [run_stages].
  destruct (_check_dependencies (dependencies (pipeline_steps s)) (results st)) eqn:Hdeps;
    [|reflexivity].
  destruct Hnot. unfold Spec.dependencies_met. by apply check_dependencies_met.
Qed.

Lemma execute_step_status step :
  status (_execute_step w step) = SUCCESS \/ status (_execute_step w step) = FAILED.
Proof.
  unfold _execute_step. destruct (run w step) as [rc out err t| |msg]; simpl; auto.
  destruct (rc =? 0)%Z; simpl; auto.
Qed.

Lemma find_previous_none failed_stage res :
  Spec.nothing_recorded_from res (S (stage_index failed_stage)) ->
  find_previous (rev all_stages) failed_stage res = None.
Proof.
  intros Hnone. destruct failed_stage; cbn;
    rewrite ?Hnone by (simpl; lia); reflexivity.
Qed.

Lemma rollback_stage_none failed_stage st :
  Spec.nothing_recorded_from (results st) (S (stage_index failed_stage)) ->
  _rollback_stage w pipeline_steps failed_stage st
  = emit NoPreviousStage (emit (RollingBack failed_stage) st).
Proof.
  intros Hnone. unfold _rollback_stage.
  change (results (emit (RollingBack failed_stage) st)) with (results st).
  by rewrite find_previous_none.
Qed.

Lemma dependencies_met_insert res s result s0 :
  res !! s = None ->
  Spec.dependencies_met pipeline_steps res s0 ->
  Spec.dependencies_met pipeline_steps (<[s := result]> res) s0.
Proof.
  intros Hnone Hmet d Hd. destruct (Hmet d Hd) as (r & Hr & Hs).
  exists r. split; [|done]. rewrite lookup_insert_ne; [done|]. intros ->. congruence.
Qed.

Lemma stage_index_inj s s' : stage_index s = stage_index s' -> s = s'.
Proof. destruct s, s'; simpl; congruence. Qed.

(** The run stops after executing [s]: the state it returns. *)
Lemma halt_post k st s result st' evs :
  Spec.loop_invariant pipeline_steps k st ->
  (k <= stage_index s)%nat ->
  Spec.dependencies_met pipeline_steps (results st) s ->
  results st' = <[s := result]> (results st) ->
  trace st' = trace st ++ Executed s (command (pipeline_steps s)) :: evs ->
  (forall e, In e evs -> Spec.quiet e) ->
  Spec.run_post pipeline_steps st'.
Proof.
  intros [Hfresh Hsucc Hexec Hrec Hgate Hrb] Hk Hdeps Hres Htr Hq.
  assert (results st !! s = None) as Hnone by (by apply Hfresh).
  split.
  - intros s0 cmd Hin. rewrite Htr in Hin. rewrite Hres.
    apply in_app_iff in Hin as [Hin|[Heq|Hin]].
    + apply dependencies_met_insert; [done|]. by apply (Hexec s0 cmd).
    + injection Heq as <- _. by apply dependencies_met_insert.
    + destruct (Hq _ Hin).
  - intros s0 Hin. rewrite Htr in Hin.
    apply in_app_iff in Hin as [Hin|[Heq|Hin]].
    + destruct (Hgate _ Hin).
    + discriminate Heq.
    + destruct (Hq _ Hin).
  - intros s0 r Hr. rewrite Hres in Hr. rewrite Htr. apply in_app_iff.
    destruct (decide (s = s0)) as [->|Hne].
    + right. by left.
    + rewrite lookup_insert_ne in Hr by done. left. by apply (Hrec s0 r).
  - intros s0 r Hr Hfail s' Hlt. rewrite Hres in Hr |- *.
    destruct (decide (s = s0)) as [->|Hne].
    + rewrite lookup_insert_ne by (intros ->; lia). apply Hfresh. lia.
    + rewrite lookup_insert_ne in Hr by done. destruct (Hsucc s0 r Hr Hfail).
  - intros cmd Hin. rewrite Htr in Hin.
    apply in_app_iff in Hin as [Hin|[Heq|Hin]].
    + destruct (Hrb _ Hin).
    + discriminate Heq.
    + destruct (Hq _ Hin).
Qed.

(** The stage succeeded and the loop goes on. *)
Lemma continue_invariant k st s result st' :
  Spec.loop_invariant pipeline_steps k st ->
  (k <= stage_index s)%nat ->
  Spec.dependencies_met pipeline_steps (results st) s ->
  ~ Spec.stage_failed pipeline_steps s result ->
  results st' = <[s := result]> (results st) ->
  trace st' = trace st ++ [Executed s (command (pipeline_steps s)); StageCompleted s] ->
  Spec.loop_invariant pipeline_steps (S (stage_index s)) st'.
Proof.
  intros [Hfresh Hsucc Hexec Hrec Hgate Hrb] Hk Hdeps Hok Hres Htr.
  assert (results st !! s = None) as Hnone by (by apply Hfresh).
  split.
  - intros s' Hs'. rewrite Hres, lookup_insert_ne by (intros ->; lia).
    apply Hfresh. lia.
  - intros s0 r Hr. rewrite Hres in Hr.
    destruct (decide (s = s0)) as [->|Hne].
    + rewrite lookup_insert_eq in Hr. by injection Hr as <-.
    + rewrite lookup_insert_ne in Hr by done. by apply Hsucc.
  - intros s0 cmd Hin. rewrite Htr in Hin. rewrite Hres.
    apply in_app_iff in Hin as [Hin|[Heq|[Heq|[]]]].
    + destruct (Hexec s0 cmd Hin) as [Hlt Hmet]. split; [lia|].
      by apply dependencies_met_insert.
    + injection Heq as <- _. split; [lia|]. by apply dependencies_met_insert.
    + discriminate Heq.
  - intros s0 r Hr. rewrite Hres in Hr. rewrite Htr. apply in_app_iff.
    destruct (decide (s = s0)) as [->|Hne].
    + right. by left.
    + rewrite lookup_insert_ne in Hr by done. left. by apply (Hrec s0 r).
  - intros s0 Hin. rewrite Htr in Hin.
    apply in_app_iff in Hin as [Hin|[Heq|[Heq|[]]]];
      [destruct (Hgate _ Hin) | discriminate Heq | discriminate Heq].
  - intros cmd Hin. rewrite Htr in Hin.
    apply in_app_iff in Hin as [Hin|[Heq|[Heq|[]]]];
      [destruct (Hrb _ Hin) | discriminate Heq | discriminate Heq].
Qed.

(** The dependency check fails for [s]. *)
Lemma gate_post k st s :
  Spec.loop_invariant pipeline_steps k st ->
  (k <= stage_index s)%nat ->
  Spec.run_post pipeline_steps (emit (DependenciesNotMet s) st).
Proof.
  intros [Hfresh Hsucc Hexec Hrec Hgate Hrb] Hk. unfold emit. split; simpl.
  - intros s0 cmd Hin. apply in_app_iff in Hin as [Hin|[Heq|[]]]; [|discriminate Heq].
    by apply (Hexec s0 cmd).
  - intros s0 Hin. apply in_app_iff in Hin as [Hin|[Heq|[]]]; [destruct (Hgate _ Hin)|].
    injection Heq as <-. split; [apply last_snoc|].
    intros s' Hs'. split; [apply Hfresh; lia|].
    intros cmd Hin. apply in_app_iff in Hin as [Hin|[Heq|[]]]; [|discriminate Heq].
    destruct (Hexec s' cmd Hin) as [Hlt _]. lia.
  - intros s0 r Hr. apply in_app_iff. left. by apply (Hrec s0 r).
  - intros s0 r Hr Hfail. destruct (Hsucc s0 r Hr Hfail).
  - intros cmd Hin. apply in_app_iff in Hin as [Hin|[Heq|[]]]; [|discriminate Heq].
    destruct (Hrb _ Hin).
Qed.

(** Every stage was visited. *)
Lemma completed_post k st :
  Spec.loop_invariant pipeline_steps k st ->
  Spec.run_post pipeline_steps (emit PipelineCompleted st).
Proof.
  intros [Hfresh Hsucc Hexec Hrec Hgate Hrb]. unfold emit. split; simpl.
  - intros s0 cmd Hin. apply in_app_iff in Hin as [Hin|[Heq|[]]]; [|discriminate Heq].
    by apply (Hexec s0 cmd).
  - intros s0 Hin. apply in_app_iff in Hin as [Hin|[Heq|[]]];
      [destruct (Hgate _ Hin) | discriminate Heq].
  - intros s0 r Hr. apply in_app_iff. left. by apply (Hrec s0 r).
  - intros s0 r Hr Hfail. destruct (Hsucc s0 r Hr Hfail).
  - intros cmd Hin. apply in_app_iff in Hin as [Hin|[Heq|[]]]; [|discriminate Heq].
    destruct (Hrb _ Hin).
Qed.

Lemma run_stages_post stages : forall k st,
  Spec.ascending_from k stages ->
  Spec.loop_invariant pipeline_steps k st ->
  Spec.run_post pipeline_steps (run_stages w pipeline_steps stages st).
Proof.
  induction stages as [|s rest IH]; intros k st Hasc Hinv.
  - by apply (completed_post k).
  - destruct Hasc as [Hk Hrest]. cbn [run_stages].
    destruct (_check_dependencies (dependencies (pipeline_steps s)) (results st)) eqn:Hdeps;
      cbn [negb]; [|by apply (gate_post k)].
    assert (Spec.dependencies_met pipeline_steps (results st) s) as Hmet
      by (unfold Spec.dependencies_met; by apply check_dependencies_met).
    set (result := _execute_step w (pipeline_steps s)).
    assert (Spec.nothing_recorded_from (<[s := result]> (results st)) (S (stage_index s)))
      as Hlater.
    { intros s' Hs'. rewrite lookup_insert_ne by (intros ->; lia).
      apply (Spec.inv_fresh _ _ _ Hinv). lia. }
    unfold status_eqb.
    destruct (decide (status result = SUCCESS)) as [Hs|Hs].
    + rewrite (bool_decide_eq_true_2 _ Hs). cbn [andb].
      destruct (_validate_step_output (pipeline_steps s) (output result)) eqn:Hval;
        cbn [negb].
      * rewrite bool_decide_eq_false_2 by congruence.
        apply (IH (S (stage_index s))); [done|].
        eapply (continue_invariant k st s result); try done.
        -- intros [Hf|[_ Hf]]; congruence.
        -- unfold emit. simpl. by rewrite <- app_assoc.
      * rewrite rollback_stage_none by done.
        eapply (halt_post k st s result _
                  [ValidationFailed s; RollingBack s; NoPreviousStage]); try done.
        -- unfold emit. simpl. by rewrite <- !app_assoc.
        -- intros e [<-|[<-|[<-|[]]]]; exact I.
    + rewrite (bool_decide_eq_false_2 _ Hs). cbn [andb].
      destruct (execute_step_status (pipeline_steps s)) as [Hst|Hst]; [done|].
      fold result in Hst. rewrite (bool_decide_eq_true_2 _ Hst).
      rewrite rollback_stage_none by done.
      eapply (halt_post k st s result _
                [PipelineFailed s; RollingBack s; NoPreviousStage]); try done.
      * unfold emit. simpl. by rewrite <- !app_assoc.
      * intros e [<-|[<-|[<-|[]]]]; exact I.
Qed.

Lemma initial_invariant : Spec.loop_invariant pipeline_steps 0 initial.
Proof.
  split; simpl.
  - intros s _. apply lookup_empty.
  - intros s r Hr. by rewrite lookup_empty in Hr.
  - intros s cmd [].
  - intros s r Hr. by rewrite lookup_empty in Hr.
  - intros s [].
  - intros cmd [].
Qed.

Lemma all_stages_ascending : Spec.ascending_from 0 all_stages.
Proof. simpl. repeat split; lia. Qed.

(** A fresh pipeline, whatever the commands do and whatever the step
    table is, returns in a state described by [run_post]. *)
Lemma execute_pipeline_post :
  Spec.run_post pipeline_steps (execute_pipeline w pipeline_steps initial).
Proof.
  apply (run_stages_post all_stages 0);
    [apply all_stages_ascending | apply initial_invariant].
Qed.

(** C10. Whatever the commands do and whatever the step table is: in any
    state, a stage whose dependency check fails ends the loop on the spot,
    with no command executed and nothing recorded; and in every run of a
    fresh pipeline a stage's command is executed only if
    every stage in its dependency list has a recorded result with status
    success; when the dependency check fails for a stage the run stops
    there, and neither that stage nor a later one has a recorded result
    or an executed command; results are recorded for executed stages
    only; and after a stage that failed no later stage has a recorded
    result (if Analysis fails, Planning, Implementation, Testing and
    Deployment have none). *)
Theorem dependency_gate :
  let st := execute_pipeline w pipeline_steps initial in
  (forall s rest st0, ~ Spec.dependencies_met pipeline_steps (results st0) s ->
     run_stages w pipeline_steps (s :: rest) st0 = emit (DependenciesNotMet s) st0) /\
  (forall s cmd, In (Executed s cmd) (trace st) ->
     forall d, In d (dependencies (pipeline_steps s)) ->
       exists r, results st !! d = Some r /\ status r = SUCCESS) /\
  (forall s, In (DependenciesNotMet s) (trace st) ->
     last (trace st) = Some (DependenciesNotMet s) /\
     forall s', (stage_index s <= stage_index s')%nat ->
       results st !! s' = None /\ forall cmd, ~ In (Executed s' cmd) (trace st)) /\
  (forall s r, results st !! s = Some r ->
     In (Executed s (command (pipeline_steps s))) (trace st)) /\
  (forall s r, results st !! s = Some r -> Spec.stage_failed pipeline_steps s r ->
     forall s', (stage_index s < stage_index s')%nat -> results st !! s' = None) /\
  (forall r, results st !! ANALYSIS = Some r -> Spec.stage_failed pipeline_steps ANALYSIS r ->
     results st !! PLANNING = None /\ results st !! IMPLEMENTATION = None /\
     results st !! TESTING = None /\ results st !! DEPLOYMENT = None).
Proof.
  cbv zeta. destruct execute_pipeline_post as [Hexec Hgate Hrec Hfail Hrb].
  split; [exact run_stages_gate|]. split; [exact Hexec|]. split; [exact Hgate|]. split; [exact Hrec|].
  split; [exact Hfail|].
  intros r Hr Hf. repeat split; apply (Hfail ANALYSIS r Hr Hf); simpl; lia.
Qed.

End PipelineFacts.

Example analysis_failure_run :
  let st := Pipeline.progressive_claude_flow_pipeline Spec.analysis_fails in
  Pipeline.status <$> Pipeline.results st !! Pipeline.VALIDATION = Some Pipeline.SUCCESS /\
  Pipeline.status <$> Pipeline.results st !! Pipeline.ANALYSIS = Some Pipeline.FAILED /\
  Pipeline.results st !! Pipeline.PLANNING = None /\
  Pipeline.results st !! Pipeline.IMPLEMENTATION = None /\
  Pipeline.results st !! Pipeline.TESTING = None /\
  Pipeline.results st !! Pipeline.DEPLOYMENT = None.
Proof. vm_compute. repeat split. Qed.

Example dependency_check_stops_the_run :
  let st := Pipeline.execute_pipeline Spec.analysis_fails
              Spec.validation_waits_for_deployment Pipeline.initial in
  Pipeline.trace st = [Pipeline.DependenciesNotMet Pipeline.VALIDATION] /\
  Pipeline.results st = ∅.
Proof. vm_compute. split; reflexivity. Qed.

(** C1 (the code departs from the claim). In no run of a fresh pipeline
    is a rollback command executed: the search of [_rollback_stage] starts
    at the last stage and stops at the failed one, so it only looks at the
    stages after it, which have no result.  In the run where validation,
    analysis and planning succeed and implementation fails, the nearest
    preceding success is Planning, the search finds nothing and the run
    ends with the report that there is no previous stage. *)
Theorem rollback_never_reaches_preceding_stage
    (w : Pipeline.World) (pipeline_steps : Pipeline.PipelineStage -> Pipeline.PipelineStep) :
  (forall cmd, ~ In (Pipeline.RollbackExecuted cmd)
                    (Pipeline.trace (Pipeline.execute_pipeline w pipeline_steps
                                       Pipeline.initial))) /\
  (let st := Pipeline.progressive_claude_flow_pipeline Spec.implementation_fails in
   Pipeline.status <$> Pipeline.results st !! Pipeline.PLANNING = Some Pipeline.SUCCESS /\
   Pipeline.status <$> Pipeline.results st !! Pipeline.IMPLEMENTATION
     = Some Pipeline.FAILED /\
   Spec.nearest_preceding_success Pipeline.IMPLEMENTATION (Pipeline.results st)
     = Some Pipeline.PLANNING /\
   Pipeline.rollback_command (Pipeline._define_pipeline_steps Pipeline.PLANNING)
     = Some "echo 'Planning failed - rollback to analysis'" /\
   Pipeline.find_previous (rev Pipeline.all_stages) Pipeline.IMPLEMENTATION
     (Pipeline.results st) = None /\
   drop 6 (Pipeline.trace st) =
     [ Pipeline.Executed Pipeline.IMPLEMENTATION
         "claude-flow swarm 'Implement the project according to plan'";
       Pipeline.PipelineFailed Pipeline.IMPLEMENTATION;
       Pipeline.RollingBack Pipeline.IMPLEMENTATION;
       Pipeline.NoPreviousStage ]).
Proof.
  split.
  - apply (Spec.post_no_rollback _ _ (execute_pipeline_post w pipeline_steps)).
  - vm_compute. repeat split.
Qed.

(** * Further properties *)

(** ** Texts under extension *)

Section TextExtension.
Import Text Re.

Lemma append_assoc_str (a b c : string) : (a +:+ b) +:+ c = a +:+ b +:+ c.
Proof. induction a as [|x a IH]; [done|]. by rewrite !append_cons, IH. Qed.

Lemma lower_append (a b : string) : lower (a +:+ b) = lower a +:+ lower b.
Proof.
  induction a as [|x a IH]; [done|].
  rewrite append_cons. simpl. by rewrite IH, append_cons.
Qed.

Lemma contains_extend k h a b :
  contains k h = true -> contains k (a +:+ h +:+ b) = true.
Proof.
  rewrite !contains_spec. intros (x & y & ->).
  exists (a +:+ x), (y +:+ b). by rewrite !append_assoc_str.
Qed.

Lemma search_regex_extend ic r s a b :
  search_regex ic r s = true -> search_regex ic r (a +:+ s +:+ b) = true.
Proof.
  rewrite !search_regex_lang. intros (x & m & y & -> & Hm).
  exists (a +:+ x), m, (y +:+ b). split; [|done]. by rewrite !append_assoc_str.
Qed.

Lemma search_lower_extend p d a b :
  search p (lower d) = true -> search p (lower (a +:+ d +:+ b)) = true.
Proof. rewrite !lower_append. apply search_regex_extend. Qed.

Lemma count_hits_extend keywords h a b :
  (count_hits keywords h <= count_hits keywords (a +:+ h +:+ b))%nat.
Proof.
  unfold count_hits. induction keywords as [|k ks IH]; [done|].
  rewrite !filter_cons.
  destruct (decide (contains k h = true)) as [Hk|Hk].
  - rewrite decide_True by (by apply contains_extend). simpl. lia.
  - destruct (decide (contains k (a +:+ h +:+ b) = true)); simpl; lia.
Qed.

End TextExtension.

(** ** More on the input validator *)

Section ValidationMore.
Import Text Validation.

Lemma filter_length_extend {A} (f g : A -> bool) (l : list A) :
  (forall x, f x = true -> g x = true) ->
  (length (List.filter f l) <= length (List.filter g l))%nat.
Proof.
  intros Hfg. induction l as [|x l IH]; simpl; [done|].
  destruct (f x) eqn:Ef.
  - rewrite (Hfg x Ef). simpl. lia.
  - destruct (g x); simpl; lia.
Qed.

(** X1. Putting any text before and after a description never turns a
    valid description invalid, and every element missing from the extended
    text was already missing from the description. *)
Theorem validity_survives_extension (before description after : string) :
  let r := validate_idea_structure description in
  let r' := validate_idea_structure (before +:+ description +:+ after) in
  (is_valid r = true -> is_valid r' = true) /\
  (forall element, In element (missing_elements r') -> In element (missing_elements r)).
Proof.
  cbv zeta. split.
  - rewrite !validate_is_valid, !Nat.leb_le. intros H.
    etrans; [exact H|]. apply filter_length_extend.
    intros it. apply search_lower_extend.
  - intros element. rewrite !validate_missing_elements, !in_map_iff.
    intros (it & <- & Hin). exists it. split; [done|].
    apply List.filter_In in Hin as [Hin Hs]. apply List.filter_In. split; [done|].
    destruct (Re.search (snd it) (lower description)) eqn:E; [|done].
    apply (search_lower_extend _ _ before after) in E. by rewrite E in Hs.
Qed.

(** X2. A description assessed as complex stays complex whatever text is
    put before and after it. *)
Theorem complex_survives_extension (before description after : string)
    (H : _assess_complexity description = COMPLEX) :
  _assess_complexity (before +:+ description +:+ after) = COMPLEX.
Proof.
  unfold _assess_complexity in *.
  pose proof (count_hits_extend complex_indicators (lower description)
                (lower before) (lower after)) as Hle.
  rewrite !lower_append.
  destruct (3 <=? count_hits complex_indicators (lower description))%nat eqn:E.
  - apply Nat.leb_le in E.
    rewrite (proj2 (Nat.leb_le 3 _)) by lia. done.
  - destruct (2 <=? _)%nat in H; discriminate H.
Qed.


Lemma validate_recommendations idea_text :
  recommendations (validate_idea_structure idea_text) =
  _generate_recommendations (missing_elements (validate_idea_structure idea_text))
                            (_assess_complexity idea_text).
Proof.
  unfold validate_idea_structure. rewrite fold_check_element.
  destruct (_suggest_topology _ _). reflexivity.
Qed.

(** X3. The validator gives one recommendation per missing element, plus
    one more exactly when the complexity is simple or complex. *)
Theorem one_recommendation_per_missing_element (description : string) :
  let r := validate_idea_structure description in
  length (recommendations r) =
  (length (missing_elements r) + (if complexity_eqb (complexity r) MEDIUM then 0 else 1))%nat.
Proof.
  cbv zeta. rewrite validate_recommendations, validate_complexity.
  rewrite validate_missing_elements. unfold required_elements.
  cbn [List.filter snd].
  destruct (Re.search "users?|audience|target|who" (lower description));
    destruct (Re.search "goal|objective|purpose|problem|solve" (lower description));
    destruct (Re.search "input|data|source|feed" (lower description));
    destruct (Re.search "output|produce|result|deliver" (lower description));
    destruct (Re.search "runtime|deploy|environment|local|cloud" (lower description));
    destruct (_assess_complexity description); reflexivity.
Qed.

Lemma fold_max_first (rest : list (string * nat)) : forall l1 b l2,
  Forall (fun x => (snd x < snd b)%nat) l1 ->
  Forall (fun x => (snd x <= snd b)%nat) l2 ->
  let best := fold_left (fun best item => if (snd best <? snd item)%nat then item else best)
                        rest b in
  exists l1' l2', l1 ++ b :: l2 ++ rest = l1' ++ best :: l2' /\
    Forall (fun x => (snd x < snd best)%nat) l1' /\
    Forall (fun x => (snd x <= snd best)%nat) l2'.
Proof.
  induction rest as [|x rest IH]; intros l1 b l2 H1 H2; simpl.
  - exists l1, l2. by rewrite app_nil_r.
  - destruct (Nat.ltb_spec (snd b) (snd x)) as [Hlt|Hge].
    + destruct (IH (l1 ++ b :: l2) x []) as (l1' & l2' & E & F1 & F2).
      * apply Forall_app. split; [|constructor; [done|]].
        -- eapply Forall_impl; [exact H1|]. simpl. lia.
        -- eapply Forall_impl; [exact H2|]. simpl. lia.
      * constructor.
      * exists l1', l2'. split; [|done]. rewrite <- E. simpl.
        by rewrite <- app_assoc.
    + destruct (IH l1 b (l2 ++ [x])) as (l1' & l2' & E & F1 & F2); [done| |].
      * apply Forall_app. split; [done|]. by constructor.
      * exists l1', l2'. split; [|done]. rewrite <- E. by rewrite <- app_assoc.
Qed.

Lemma max_by_value_first (first : string * nat) rest :
  let best := Py.max_by_value (first :: rest) in
  exists l1 l2, first :: rest = l1 ++ best :: l2 /\
    Forall (fun x => (snd x < snd best)%nat) l1 /\
    Forall (fun x => (snd x <= snd best)%nat) l2.
Proof. apply (fold_max_first rest [] first []); constructor. Qed.

Lemma suggest_sparc_mode_first_best (description : string) :
  let score := fun keywords => count_hits keywords (lower description) in
  exists before keywords after,
    sparc_mode_keywords = before ++ (_suggest_sparc_mode description, keywords) :: after /\
    Forall (fun entry => (score (snd entry) < score keywords)%nat) before /\
    Forall (fun entry => (score (snd entry) <= score keywords)%nat) after.
Proof.
  cbv zeta. unfold _suggest_sparc_mode.
  set (f := fun mk : string * list string => (fst mk, count_hits (snd mk) (lower description))).
  destruct (max_by_value_first (f ("architect", ["architecture"; "system design"; "microservices"; "distributed"; "scalable"]))
              (map f (tl sparc_mode_keywords))) as (l1 & l2 & E & F1 & F2).
  change (f _ :: map f (tl sparc_mode_keywords)) with (map f sparc_mode_keywords) in *.
  set (best := Py.max_by_value (map f sparc_mode_keywords)) in *.
  apply map_eq_app in E as (t1 & t2' & Et & E1 & E2).
  apply map_eq_cons in E2 as (e & t2 & -> & Ee & E2).
  assert (fst best = (if (snd best =? 0)%nat then "architect" else fst best)) as Hm.
  { destruct (Nat.eqb_spec (snd best) 0) as [Hz|]; [|done].
    destruct t1 as [|x t1].
    - simpl in Et. unfold sparc_mode_keywords in Et. injection Et as <-. by rewrite <- Ee.
    - subst l1. inversion F1; subst. lia. }
  rewrite <- Hm. exists t1, (snd e), t2. rewrite <- Ee. simpl. split.
  - rewrite Et. by destruct e.
  - subst l1 l2. split.
    + rewrite Forall_map in F1. rewrite <- Ee in F1. exact F1.
    + rewrite Forall_map in F2. rewrite <- Ee in F2. exact F2.
Qed.


(** X4. The suggested SPARC mode is the first mode of the table whose
    keyword score is maximal: every mode before it scores strictly less,
    every mode after it scores at most as much.  (With all scores zero
    this is architect.) *)
Theorem sparc_mode_is_first_best (description : string) :
  let score := fun keywords => count_hits keywords (lower description) in
  exists before keywords after,
    sparc_mode_keywords = before ++ (_suggest_sparc_mode description, keywords) :: after /\
    Forall (fun entry => (score (snd entry) < score keywords)%nat) before /\
    Forall (fun entry => (score (snd entry) <= score keywords)%nat) after.
Proof. apply suggest_sparc_mode_first_best. Qed.

Lemma complex_survives_extension_witness :
  _assess_complexity ("Please " +:+ "build a distributed, scalable analytics service"
                      +:+ " for one simple basic task")
  = COMPLEX.
Proof.
  apply (complex_survives_extension "Please "
           "build a distributed, scalable analytics service"
           " for one simple basic task").
  vm_compute. reflexivity.
Defined.

End ValidationMore.

(** ** More on the resource optimizer *)

Section AttentionMore.
Import Text Attention.

Lemma complexity_scores_get_range c :
  complexity_scores_get c = 1%Z \/ complexity_scores_get c = 2%Z \/ complexity_scores_get c = 3%Z.
Proof.
  unfold complexity_scores_get.
  destruct (String.eqb (lower c) "simple"); [auto|].
  destruct (String.eqb (lower c) "medium"); [auto|].
  destruct (String.eqb (lower c) "complex"); auto.
Qed.

Lemma topology_shapes complexity idea_text :
  let t := _determine_optimal_topology complexity idea_text in
  (topology t, agent_count t) = ("hive", 3%Z) \/
  (topology t, agent_count t) = ("swarm", 5%Z) \/
  (topology t, agent_count t) = ("swarm", 6%Z) \/
  (topology t, agent_count t) = ("swarm", 7%Z) \/
  (topology t, agent_count t) = ("swarm", 8%Z).
Proof.
  cbv zeta. unfold _determine_optimal_topology.
  destruct (complexity_scores_get_range complexity) as [-> | [-> | ->]];
    destruct (2 <=? count_hits parallel_indicators (lower idea_text))%nat; simpl; auto.
Qed.

Lemma agent_count_bounds complexity idea_text :
  (3 <= agent_count (_determine_optimal_topology complexity idea_text) <= 8)%Z.
Proof.
  pose proof (topology_shapes complexity idea_text) as H. cbv zeta in H.
  destruct H as [H|[H|[H|[H|H]]]]; injection H as _ ->; lia.
Qed.

(** X5. For every complexity string, known or not, and every idea text the
    optimizer plans between 3 and 8 agents: hive with exactly 3, or swarm
    with at least 5. *)
Theorem agents_within_limits (complexity idea_text : string) :
  let t := _determine_optimal_topology complexity idea_text in
  (3 <= agent_count t <= 8)%Z /\
  ((topology t = "hive" /\ agent_count t = 3%Z) \/
   (topology t = "swarm" /\ (5 <= agent_count t)%Z)).
Proof.
  cbv zeta. pose proof (topology_shapes complexity idea_text) as H. cbv zeta in H.
  destruct H as [H|[H|[H|[H|H]]]]; injection H as -> ->; (split; [lia|]);
    first [ left; split; [reflexivity|lia] | right; split; [reflexivity|lia] ].
Qed.

Lemma optimize_fields idea_text hint :
  let o := bbam_optimize_claude_flow idea_text hint in
  let t := _determine_optimal_topology hint idea_text in
  let clarity := _analyze_idea_clarity idea_text in
  resource_requirements (analysis o) = _calculate_resource_requirements clarity t hint /\
  optimized_parameters o = _generate_optimized_parameters (analysis o) /\
  resource_allocation o = _allocate_resources (analysis o) /\
  execution_plan o = _create_execution_plan (analysis o) (optimized_parameters o) /\
  optimal_topology (analysis o) = t /\
  clarity_score (analysis o) = clarity.
Proof.
  cbv zeta.
  unfold bbam_optimize_claude_flow, optimize_orchestration, analyze_attention_requirements.
  destruct (_get_attention_priorities _ _ new_manager). repeat split.
Qed.

(** X6. The planned memory is 512 MB per planned agent, between 1536 and
    4096 MB, and the allocation's per-agent share is 512 MB again. *)
Theorem memory_within_limit (idea_text project_complexity : string) :
  let o := bbam_optimize_claude_flow idea_text project_complexity in
  memory_limit_mb (optimized_parameters o) = (512 * param_agent_count (optimized_parameters o))%Z /\
  (1536 <= memory_limit_mb (optimized_parameters o) <= 4096)%Z /\
  total_mb (resource_allocation o) = memory_limit_mb (optimized_parameters o) /\
  per_agent_mb (resource_allocation o) = 512%Z.
Proof.
  cbv zeta.
  destruct (optimize_fields idea_text project_complexity) as (Hr & Hp & Ha & _ & _ & _).
  rewrite Ha, Hp. unfold _allocate_resources, _generate_optimized_parameters.
  cbn [memory_limit_mb param_agent_count total_mb per_agent_mb].
  rewrite Hr. unfold _calculate_resource_requirements.
  cbn [memory_requirements_mb req_agent_count].
  destruct (optimize_fields idea_text project_complexity) as (_ & _ & _ & _ & Ht & _).
  rewrite Ht. unfold max_memory_per_agent.
  pose proof (agent_count_bounds project_complexity idea_text) as Hb.
  set (a := agent_count (_determine_optimal_topology project_complexity idea_text)) in *.
  repeat split; try lia.
  rewrite Z.mul_comm. apply Z.div_mul. lia.
Qed.

Lemma complexity_multiplier_range c :
  complexity_multiplier_get c = 1.0%Q \/ complexity_multiplier_get c = 1.5%Q
  \/ complexity_multiplier_get c = 2.5%Q.
Proof.
  unfold complexity_multiplier_get.
  destruct (String.eqb (lower c) "simple"); [auto|].
  destruct (String.eqb (lower c) "medium"); [auto|].
  destruct (String.eqb (lower c) "complex"); auto.
Qed.

Lemma int_of_Q_bounds (x : Q) (a b : Z) :
  (0 <= a)%Z -> (inject_Z a <= x)%Q -> (x <= inject_Z b)%Q ->
  (a <= Py.int_of_Q x <= b)%Z.
Proof.
  intros Ha Hax Hxb.
  assert (Py.int_of_Q x = Qfloor x) as ->.
  { unfold Py.int_of_Q, Qfloor. destruct x as [n d]. simpl.
    apply Z.quot_div_nonneg; [|lia].
    unfold Qle in Hax. simpl in Hax. nia. }
  split.
  - rewrite <- (Qfloor_Z a). by apply Qfloor_resp_le.
  - rewrite <- (Qfloor_Z b). by apply Qfloor_resp_le.
Qed.

Lemma analyze_clarity_range idea_text :
  (0 <= _analyze_idea_clarity idea_text <= 1)%Q.
Proof. unfold _analyze_idea_clarity. apply clarity_clamped. Qed.

(** X7. The planned time lies between 300 and 1500 seconds; the four plan
    phases take 60, 120, the planned time minus 180, and 120 seconds, the
    implementation phase at least 120; the complexity score lies between
    4.5 and 10. *)
Theorem time_budget_bounds (idea_text project_complexity : string) :
  let o := bbam_optimize_claude_flow idea_text project_complexity in
  let t := timeout_seconds (optimized_parameters o) in
  (300 <= t <= 1500)%Z /\
  map estimated_time (execution_plan o) = [60; 120; t - 180; 120]%Z /\
  implementation_phase (resource_allocation o) = (t - 180)%Z /\
  (120 <= t - 180)%Z /\
  (4.5 <= complexity_threshold (optimized_parameters o) <= 10)%Q.
Proof.
  cbv zeta.
  destruct (optimize_fields idea_text project_complexity) as (Hr & Hp & Ha & He & Ht & _).
  rewrite He, Ha, Hp. unfold _create_execution_plan, _allocate_resources,
    _generate_optimized_parameters.
  cbn [map estimated_time timeout_seconds implementation_phase complexity_threshold].
  rewrite Hr. unfold _calculate_resource_requirements.
  cbn [estimated_time_seconds complexity_score].
  pose proof (analyze_clarity_range idea_text) as [Hc0 Hc1].
  set (c := _analyze_idea_clarity idea_text) in *.
  assert (300 <= Py.int_of_Q (300 * complexity_multiplier_get project_complexity
                               * (1 + (1 - c))) <= 1500)%Z as Htime.
  { apply int_of_Q_bounds; [lia| |];
      destruct (complexity_multiplier_range project_complexity) as [-> | [-> | ->]];
      unfold inject_Z; lra. }
  split; [exact Htime|]. split; [reflexivity|]. split; [reflexivity|].
  split; [lia|].
  pose proof (agent_count_bounds project_complexity idea_text) as Hb.
  set (a := agent_count (_determine_optimal_topology project_complexity idea_text)) in *.
  assert (3 <= inject_Z a)%Q as Ha3 by (unfold Qle; simpl; lia).
  split.
  - apply Q.min_glb; [lra|]. lra.
  - apply Q.le_min_l.
Qed.

(** X8. The allocation never assigns a monitoring agent, assigns at least
    one agent to critical tasks, and the three shares together stay below
    the number of agents. *)
Theorem allocation_shares (idea_text project_complexity : string) :
  let a := resource_allocation (bbam_optimize_claude_flow idea_text project_complexity) in
  monitoring_tasks a = 0%Z /\
  (1 <= critical_tasks a)%Z /\
  (critical_tasks a + high_priority_tasks a + monitoring_tasks a < agents_total a)%Z.
Proof.
  cbv zeta.
  destruct (optimize_fields idea_text project_complexity) as (Hr & _ & Ha & _ & Ht & _).
  rewrite Ha. unfold _allocate_resources.
  cbn [monitoring_tasks critical_tasks high_priority_tasks agents_total].
  rewrite Hr. unfold _calculate_resource_requirements. cbn [req_agent_count].
  pose proof (topology_shapes project_complexity idea_text) as H. cbv zeta in H.
  destruct H as [H|[H|[H|[H|H]]]]; injection H as _ ->; vm_compute; repeat split;
    discriminate.
Qed.

Lemma topology_lower complexity idea_text :
  _determine_optimal_topology complexity idea_text
  = _determine_optimal_topology (lower complexity) idea_text.
Proof.
  unfold _determine_optimal_topology, complexity_scores_get. by rewrite lower_idemp.
Qed.

Lemma requirements_lower clarity topo complexity :
  _calculate_resource_requirements clarity topo complexity
  = _calculate_resource_requirements clarity topo (lower complexity).
Proof.
  unfold _calculate_resource_requirements, complexity_multiplier_get.
  by rewrite lower_idemp.
Qed.

Lemma priorities_lower clarity complexity m :
  _get_attention_priorities clarity complexity m
  = _get_attention_priorities clarity (lower complexity) m.
Proof.
  unfold _get_attention_priorities.
  assert (adjust_priority clarity complexity = adjust_priority clarity (lower complexity))
    as -> by (unfold adjust_priority; by rewrite lower_idemp).
  reflexivity.
Qed.

(** X9. The optimizer's result and its effect on the manager do not depend
    on the letter case of the complexity hint. *)
Theorem complexity_hint_ignores_case (idea_text project_complexity : string)
    (m : BBAMManager) :
  optimize_orchestration idea_text project_complexity m
  = optimize_orchestration idea_text (lower project_complexity) m.
Proof.
  unfold optimize_orchestration, analyze_attention_requirements.
  by rewrite <- topology_lower, <- requirements_lower, <- priorities_lower.
Qed.

Lemma topology_unknown complexity idea_text :
  lower complexity <> "simple" -> lower complexity <> "complex" ->
  _determine_optimal_topology complexity idea_text
  = _determine_optimal_topology "medium" idea_text.
Proof.
  intros Hs Hc. unfold _determine_optimal_topology, complexity_scores_get.
  apply String.eqb_neq in Hs, Hc. rewrite Hs, Hc.
  destruct (String.eqb (lower complexity) "medium"); reflexivity.
Qed.

Lemma requirements_unknown clarity topo complexity :
  lower complexity <> "simple" -> lower complexity <> "complex" ->
  _calculate_resource_requirements clarity topo complexity
  = _calculate_resource_requirements clarity topo "medium".
Proof.
  intros Hs Hc. unfold _calculate_resource_requirements, complexity_multiplier_get.
  apply String.eqb_neq in Hs, Hc. rewrite Hs, Hc.
  destruct (String.eqb (lower complexity) "medium"); reflexivity.
Qed.

Lemma priorities_unknown clarity complexity m :
  lower complexity <> "complex" ->
  _get_attention_priorities clarity complexity m
  = _get_attention_priorities clarity "medium" m.
Proof.
  intros Hc. unfold _get_attention_priorities.
  assert (adjust_priority clarity complexity = adjust_priority clarity "medium") as ->.
  { unfold adjust_priority. apply String.eqb_neq in Hc. rewrite Hc. reflexivity. }
  reflexivity.
Qed.

(** X10. A complexity hint that is neither simple nor complex (in any
    letter case) is treated as medium. *)
Theorem unknown_complexity_is_medium (idea_text project_complexity : string)
    (m : BBAMManager)
    (Hsimple : lower project_complexity <> "simple")
    (Hcomplex : lower project_complexity <> "complex") :
  optimize_orchestration idea_text project_complexity m
  = optimize_orchestration idea_text "medium" m.
Proof.
  unfold optimize_orchestration, analyze_attention_requirements.
  rewrite (topology_unknown project_complexity) by done.
  rewrite (requirements_unknown _ _ project_complexity) by done.
  by rewrite (priorities_unknown _ project_complexity) by done.
Qed.

Lemma unknown_complexity_is_medium_witness :
  optimize_orchestration "Build a dashboard" "Enormous" new_manager
  = optimize_orchestration "Build a dashboard" "medium" new_manager.
Proof.
  apply (unknown_complexity_is_medium "Build a dashboard" "Enormous" new_manager);
    vm_compute; discriminate.
Defined.

End AttentionMore.

(** ** More on the contradiction engine *)

Section ContradictionMore.
Import Text Contradiction Notions.

Lemma compatible_in_sym table tech1 tech2 :
  compatible_in table tech1 tech2 = compatible_in table tech2 tech1.
Proof.
  induction table as [|[tech l] table IH]; simpl; [done|].
  destruct (String.eqb tech1 tech && Py.mem tech2 l);
    destruct (String.eqb tech2 tech && Py.mem tech1 l); auto.
Qed.

(** X11. Technology compatibility is symmetric. *)
Theorem compatibility_is_symmetric (tech1 tech2 : string) :
  _are_compatible tech1 tech2 = _are_compatible tech2 tech1.
Proof. apply compatible_in_sym. Qed.

Lemma flat_map_Forall {A B} (P : B -> Prop) (f : A -> list B) (l : list A) :
  (forall x, Forall P (f x)) -> Forall P (flat_map f l).
Proof.
  intros H. induction l as [|x l IH]; simpl; [constructor|].
  apply Forall_app. auto.
Qed.

Lemma technology_conflicts_medium idea_text implementation_output :
  Forall (fun c => type c = TECHNOLOGY_CONFLICT /\ severity c = MEDIUM)
         (_check_technology_compatibility idea_text implementation_output).
Proof.
  unfold _check_technology_compatibility.
  apply flat_map_Forall. intros tech1. apply flat_map_Forall. intros tech2.
  destruct (_ && _); repeat constructor.
Qed.

Lemma architecture_mismatches_high idea_text implementation_output :
  Forall (fun c => type c = ARCHITECTURE_MISMATCH /\ severity c = HIGH)
         (_check_architecture_constraints idea_text implementation_output).
Proof.
  unfold _check_architecture_constraints.
  apply flat_map_Forall. intros arch_req.
  destruct (negb _); [|constructor].
  destruct (List.filter _ _); repeat constructor.
Qed.

Lemma pattern_contradictions_severity implementation_output :
  Forall (fun c => severity c = _assess_severity (type c))
         (pattern_contradictions implementation_output).
Proof.
  unfold pattern_contradictions.
  apply flat_map_Forall. intros entry. apply flat_map_Forall. intros info.
  destruct (Re.search_ignorecase _ _); repeat constructor.
Qed.

Lemma filter_none {A} (f : A -> bool) (l : list A) :
  Forall (fun x => f x = false) l -> List.filter f l = [].
Proof.
  induction 1 as [|x l Hx _ IH]; simpl; [done|]. by rewrite Hx.
Qed.

(** X12. Technology conflicts never force a rollback: the rollback decision
    is the one taken on the pattern and architecture contradictions alone. *)
Theorem technology_conflicts_never_force_rollback
    (idea_text implementation_output : string) :
  needs_rollback (resolve_contradictions idea_text implementation_output)
  = _needs_rollback (pattern_contradictions implementation_output
                     ++ _check_architecture_constraints idea_text implementation_output).
Proof.
  unfold resolve_contradictions. cbn [needs_rollback].
  unfold detect_contradictions, _needs_rollback.
  pose proof (technology_conflicts_medium idea_text implementation_output) as Ht.
  rewrite !List.filter_app.
  rewrite (filter_none (fun c => severity_eqb (severity c) CRITICAL)
             (_check_technology_compatibility idea_text implementation_output)).
  2:{ eapply Forall_impl; [exact Ht|]. intros c [_ ->]. reflexivity. }
  rewrite (filter_none (fun c => severity_eqb (severity c) HIGH)
             (_check_technology_compatibility idea_text implementation_output)).
  2:{ eapply Forall_impl; [exact Ht|]. intros c [_ ->]. reflexivity. }
  reflexivity.
Qed.

Lemma detect_never_low idea_text implementation_output :
  Forall (fun c => severity c <> LOW)
         (detect_contradictions idea_text implementation_output).
Proof.
  unfold detect_contradictions. rewrite !Forall_app. repeat split.
  - eapply Forall_impl; [apply pattern_contradictions_severity|].
    intros c ->. by destruct (type c).
  - eapply Forall_impl; [apply technology_conflicts_medium|]. by intros c [_ ->].
  - eapply Forall_impl; [apply architecture_mismatches_high|]. by intros c [_ ->].
Qed.

Lemma count_severity_total (l : list contradiction) :
  (Spec.count_severity LOW l + Spec.count_severity MEDIUM l
   + Spec.count_severity HIGH l + Spec.count_severity CRITICAL l = length l)%nat.
Proof.
  unfold Spec.count_severity. induction l as [|c l IH]; simpl; [done|].
  rewrite !filter_cons. destruct (severity c); simpl; lia.
Qed.

Lemma count_severity_zero sev (l : list contradiction) :
  Forall (fun c => severity c <> sev) l -> Spec.count_severity sev l = 0%nat.
Proof.
  unfold Spec.count_severity. induction 1 as [|c l Hc _ IH]; [done|].
  rewrite filter_cons. by rewrite decide_False.
Qed.

(** X13. No detected contradiction has low severity; the medium, high and
    critical counts add up to the number of contradictions found. *)
Theorem severity_distribution_totals (idea_text implementation_output : string) :
  let r := resolve_contradictions idea_text implementation_output in
  let counts := severity_distribution r in
  low counts = 0%nat /\
  (medium counts + high counts + critical counts = contradictions_found r)%nat /\
  length (contradictions r) = contradictions_found r.
Proof.
  cbv zeta. unfold resolve_contradictions.
  cbn [severity_distribution contradictions_found contradictions].
  rewrite count_severity_levels_spec. cbn [low medium high critical].
  pose proof (count_severity_total (detect_contradictions idea_text implementation_output)).
  pose proof (count_severity_zero LOW _ (detect_never_low idea_text implementation_output)).
  repeat split; lia.
Qed.

Lemma mem_In x (l : list string) : Py.mem x l = true <-> In x l.
Proof.
  unfold Py.mem. rewrite existsb_exists. split.
  - intros (y & Hy & E). apply String.eqb_eq in E. by subst.
  - intros H. exists x. split; [done|]. apply String.eqb_refl.
Qed.

Lemma extract_architecture_known text k :
  In k (_extract_architecture_requirements text) -> In k arch_keywords.
Proof. unfold _extract_architecture_requirements. intros H. by apply List.filter_In in H as [H _]. Qed.

Lemma not_extracted text comp :
  ~ In comp arch_keywords ->
  Py.mem comp (_extract_architecture_requirements text) = false.
Proof.
  intros Hn. destruct (Py.mem comp _) eqn:E; [|done].
  apply mem_In, extract_architecture_known in E. by destruct Hn.
Qed.

Lemma dict_get_unknown d key :
  ~ In key (map fst d) -> dict_get d key = [].
Proof.
  induction d as [|[k v] d IH]; simpl; [done|]. intros Hn.
  destruct (String.eqb_spec k key) as [->|_]; [destruct Hn; by left|].
  apply IH. intros H. apply Hn. by right.
Qed.

Lemma not_arch_keyword comp :
  Py.mem comp arch_keywords = false -> ~ In comp arch_keywords.
Proof. intros E H. apply mem_In in H. congruence. Qed.

Lemma missing_components_nonempty text k :
  In k constrained_keywords ->
  List.filter (fun comp => negb (Py.mem comp (_extract_architecture_requirements text)))
              (dict_get architecture_constraints k) <> [].
Proof.
  intros Hk. simpl in Hk.
  destruct Hk as [<-|[<-|[<-|[<-|[<-|[]]]]]]; cbn [dict_get architecture_constraints String.eqb Ascii.eqb Bool.eqb];
    vm_compute dict_get.
  - cbn [List.filter].
    rewrite (not_extracted text "api-gateway") by (by apply not_arch_keyword).
    destruct (negb _); discriminate.
  - cbn [List.filter].
    rewrite (not_extracted text "single-deployment") by (by apply not_arch_keyword).
    discriminate.
  - cbn [List.filter].
    rewrite (not_extracted text "stateless") by (by apply not_arch_keyword).
    discriminate.
  - cbn [List.filter].
    rewrite (not_extracted text "websockets") by (by apply not_arch_keyword).
    discriminate.
  - cbn [List.filter].
    rewrite (not_extracted text "redundancy") by (by apply not_arch_keyword).
    discriminate.
Qed.

Lemma architecture_mismatch_descriptions
    (idea_text implementation_output : string) :
  let idea_arch := _extract_architecture_requirements idea_text in
  let impl_arch := _extract_architecture_requirements implementation_output in
  let found := _check_architecture_constraints idea_text implementation_output in
  map description found =
    map (fun k => "Missing architecture components for " +:+ k)
        (List.filter (fun k => negb (Py.mem k impl_arch) && Py.mem k constrained_keywords)
                     idea_arch) /\
  Forall (fun c => type c = ARCHITECTURE_MISMATCH /\ severity c = HIGH) found.
Proof.
  cbv zeta. split; [|apply architecture_mismatches_high].
  unfold _check_architecture_constraints.
  induction (_extract_architecture_requirements idea_text) as [|k l IH]; [done|].
  cbn [flat_map List.filter]. rewrite map_app, IH. clear IH.
  destruct (negb (Py.mem k (_extract_architecture_requirements implementation_output)));
    cbn [andb]; [|done].
  destruct (Py.mem k constrained_keywords) eqn:Ek.
  - apply mem_In in Ek.
    pose proof (missing_components_nonempty implementation_output k Ek) as Hne.
    destruct (List.filter _ (dict_get architecture_constraints k)); [done|]. reflexivity.
  - rewrite dict_get_unknown; [done|].
    intros H. apply mem_In in H. unfold constrained_keywords in Ek. congruence.
Qed.

(** X14. The architecture check reports exactly one high mismatch for each
    architecture keyword of the idea that has constraints and that the
    output does not name as a keyword, in the idea's keyword order,
    whatever components the output mentions. *)
Theorem architecture_mismatch_per_constrained_keyword
    (idea_text implementation_output : string) :
  let idea_arch := _extract_architecture_requirements idea_text in
  let impl_arch := _extract_architecture_requirements implementation_output in
  let found := _check_architecture_constraints idea_text implementation_output in
  map description found =
    map (fun k => "Missing architecture components for " +:+ k)
        (List.filter (fun k => negb (Py.mem k impl_arch) && Py.mem k constrained_keywords)
                     idea_arch) /\
  Forall (fun c => type c = ARCHITECTURE_MISMATCH /\ severity c = HIGH) found.
Proof. apply architecture_mismatch_descriptions. Qed.

Lemma count_severity_all sev (l : list contradiction) :
  Forall (fun c => severity c = sev) l -> Spec.count_severity sev l = length l.
Proof.
  unfold Spec.count_severity. induction 1 as [|c l Hc _ IH]; [done|].
  rewrite filter_cons, decide_True by done. simpl. by rewrite IH.
Qed.

Lemma no_technology_conflict_without_output idea_text :
  _check_technology_compatibility idea_text "" = [].
Proof.
  unfold _check_technology_compatibility.
  change (_extract_technologies "") with (@nil string).
  induction (_extract_technologies idea_text) as [|t l IH]; [done|]. exact IH.
Qed.

(** X15. Against an empty implementation output the contradictions are one
    high architecture mismatch per constrained architecture keyword of the
    idea, and a rollback is needed exactly when there are two or more. *)
Theorem empty_output_contradictions (idea_text : string) :
  let r := resolve_contradictions idea_text "" in
  let named := List.filter (fun k => Py.mem k constrained_keywords)
                           (_extract_architecture_requirements idea_text) in
  map description (contradictions r) =
    map (fun k => "Missing architecture components for " +:+ k) named /\
  Forall (fun c => type c = ARCHITECTURE_MISMATCH /\ severity c = HIGH) (contradictions r) /\
  contradictions_found r = length named /\
  (needs_rollback r = true <-> (2 <= length named)%nat).
Proof.
  cbv zeta.
  destruct (architecture_mismatch_descriptions idea_text "") as [Hd Hh].
  cbv zeta in Hd.
  change (_extract_architecture_requirements "") with (@nil string) in Hd.
  cbn [Py.mem existsb negb andb] in Hd.
  unfold resolve_contradictions.
  cbn [contradictions contradictions_found needs_rollback].
  unfold detect_contradictions.
  change (pattern_contradictions "") with (@nil contradiction).
  rewrite no_technology_conflict_without_output. cbn [app].
  set (found := _check_architecture_constraints idea_text "") in *.
  assert (length found = length (List.filter (fun k => Py.mem k constrained_keywords)
                                   (_extract_architecture_requirements idea_text))) as Hlen.
  { rewrite <- (length_map description found), Hd. by rewrite length_map. }
  split; [exact Hd|]. split; [exact Hh|]. split; [exact Hlen|].
  rewrite needs_rollback_iff.
  rewrite (count_severity_zero CRITICAL found)
    by (eapply Forall_impl; [exact Hh|]; by intros c [_ ->]).
  rewrite (count_severity_all HIGH found)
    by (eapply Forall_impl; [exact Hh|]; by intros c [_ ->]).
  rewrite Hlen. lia.
Qed.

Lemma startswith_append prefix rest : startswith prefix (prefix +:+ rest) = true.
Proof. apply startswith_spec. by exists rest. Qed.

Lemma filter_map_length {A B} (p : B -> bool) (f : A -> B) (l : list A) :
  length (List.filter p (map f l)) = length (List.filter (fun x => p (f x)) l).
Proof.
  induction l as [|x l IH]; simpl; [done|]. destruct (p (f x)); simpl; by rewrite IH.
Qed.

Lemma severity_eqb_eval a b :
  severity_eqb a b =
  match a, b with
  | LOW, LOW | MEDIUM, MEDIUM | HIGH, HIGH | CRITICAL, CRITICAL => true
  | _, _ => false
  end.
Proof. by destruct a, b. Qed.

Lemma count_severity_pair (l : list contradiction) :
  length (List.filter (fun c => severity_eqb (severity c) CRITICAL
                                || severity_eqb (severity c) HIGH) l)
    = (Spec.count_severity HIGH l + Spec.count_severity CRITICAL l)%nat /\
  length (List.filter (fun c => negb (severity_eqb (severity c) CRITICAL
                                      || severity_eqb (severity c) HIGH)) l)
    = (Spec.count_severity LOW l + Spec.count_severity MEDIUM l)%nat.
Proof.
  rewrite <- !count_filter_eqb.
  induction l as [|c l [IH1 IH2]]; [done|].
  cbn [List.filter]. destruct (severity c);
    rewrite !severity_eqb_eval; cbn [orb negb length]; lia.
Qed.

Lemma corrective_actions_counts (l : list contradiction) :
  let actions := _generate_corrective_actions l in
  length actions = length l /\
  length (List.filter (startswith "CRITICAL: ") actions)
    = (Spec.count_severity HIGH l + Spec.count_severity CRITICAL l)%nat /\
  length (List.filter (startswith "WARNING: ") actions)
    = (Spec.count_severity LOW l + Spec.count_severity MEDIUM l)%nat.
Proof.
  cbv zeta. unfold _generate_corrective_actions.
  split; [apply length_map|].
  rewrite !filter_map_length.
  destruct (count_severity_pair l) as [H1 H2]. rewrite <- H1, <- H2.
  split; f_equal; apply List.filter_ext; intros c; destruct (_ || _);
    first [ apply startswith_append | vm_compute; reflexivity ].
Qed.

(** X16. There is one corrective action per contradiction, its rollback
    action prefixed by CRITICAL: for critical and high severity and by
    WARNING: otherwise; the CRITICAL: actions number the high plus the
    critical contradictions, the WARNING: actions the medium ones. *)
Theorem corrective_actions_labels (idea_text implementation_output : string) :
  let r := resolve_contradictions idea_text implementation_output in
  let counts := severity_distribution r in
  length (corrective_actions r) = contradictions_found r /\
  length (List.filter (startswith "CRITICAL: ") (corrective_actions r))
    = (high counts + critical counts)%nat /\
  length (List.filter (startswith "WARNING: ") (corrective_actions r)) = medium counts /\
  map (fun c => (if severity_eqb (severity c) CRITICAL || severity_eqb (severity c) HIGH
                 then "CRITICAL: " else "WARNING: ") +:+ rollback_action c)
      (contradictions r) = corrective_actions r.
Proof.
  cbv zeta. unfold resolve_contradictions.
  cbn [corrective_actions contradictions_found severity_distribution contradictions].
  rewrite count_severity_levels_spec. cbn [high critical medium].
  destruct (corrective_actions_counts
              (detect_contradictions idea_text implementation_output)) as (H1 & H2 & H3).
  cbv zeta in H1, H2, H3.
  rewrite (count_severity_zero LOW _ (detect_never_low idea_text implementation_output)) in H3.
  repeat split; try done.
  unfold _generate_corrective_actions. apply map_ext. intros c.
  by destruct (_ || _).
Qed.

Lemma rollback_actions_known idea_text implementation_output :
  Forall (fun c => In (rollback_action c) known_rollback_actions)
         (detect_contradictions idea_text implementation_output).
Proof.
  unfold detect_contradictions. rewrite !Forall_app. repeat split.
  - unfold pattern_contradictions.
    apply flat_map_Forall. intros [t ps]. apply flat_map_Forall. intros info.
    destruct (Re.search_ignorecase _ _); [|constructor].
    constructor; [|constructor]. destruct t; simpl; tauto.
  - unfold _check_technology_compatibility.
    apply flat_map_Forall. intros tech1. apply flat_map_Forall. intros tech2.
    destruct (_ && _); [|constructor]. constructor; [|constructor]. simpl. tauto.
  - unfold _check_architecture_constraints.
    apply flat_map_Forall. intros arch_req.
    destruct (negb _); [|constructor].
    destruct (List.filter _ _); [constructor|].
    constructor; [|constructor]. simpl. tauto.
Qed.

End ContradictionMore.

(** ** More on pipeline runs *)

Section PipelineMore.
Import Text Pipeline Notions.
Context (w : World) (pipeline_steps : PipelineStage -> PipelineStep).
Hypothesis Hdeps : forall s,
  dependencies (pipeline_steps s) = dependencies (_define_pipeline_steps s).

Lemma recorded_dependency s r d :
  results (execute_pipeline w pipeline_steps initial) !! s = Some r ->
  In d (dependencies (_define_pipeline_steps s)) ->
  Spec.recorded_success (results (execute_pipeline w pipeline_steps initial)) d.
Proof.
  intros Hr Hd. destruct (execute_pipeline_post w pipeline_steps) as [Hexec _ Hrec _ _].
  apply (Hexec s (command (pipeline_steps s))); [by apply (Hrec s r)|].
  by rewrite Hdeps.
Qed.

Lemma earlier_stages_recorded s r s' :
  results (execute_pipeline w pipeline_steps initial) !! s = Some r ->
  (stage_index s' < stage_index s)%nat ->
  Spec.recorded_success (results (execute_pipeline w pipeline_steps initial)) s'.
Proof.
  intros Hr Hlt.
  assert (forall a b, In b (dependencies (_define_pipeline_steps a)) ->
            (exists ra, results (execute_pipeline w pipeline_steps initial) !! a = Some ra) ->
            Spec.recorded_success (results (execute_pipeline w pipeline_steps initial)) b)
    as Hback.
  { intros a b Hb [ra Hra]. by apply (recorded_dependency a ra). }
  assert (forall b, Spec.recorded_success
                      (results (execute_pipeline w pipeline_steps initial)) b ->
            exists rb, results (execute_pipeline w pipeline_steps initial) !! b = Some rb)
    as Hany by (intros b (rb & Hb & _); eauto).
  assert (exists r0, results (execute_pipeline w pipeline_steps initial) !! s = Some r0)
    as H0 by eauto.
  clear Hr.
  destruct s; destruct s'; simpl in Hlt; try lia;
    repeat first
      [ eassumption
      | apply (Hback DEPLOYMENT TESTING); [simpl; by left|]
      | apply (Hback TESTING IMPLEMENTATION); [simpl; by left|]
      | apply (Hback IMPLEMENTATION PLANNING); [simpl; by left|]
      | apply (Hback PLANNING ANALYSIS); [simpl; by left|]
      | apply (Hback ANALYSIS VALIDATION); [simpl; by left|]
      | apply Hany ].
Qed.

(** X17. With the default dependencies, if a stage has a recorded result in
    a fresh run then every earlier stage has a recorded result with status
    success whose output passed that stage's validation. *)
Theorem recorded_stages_form_a_successful_prefix :
  let st := execute_pipeline w pipeline_steps initial in
  forall s r, results st !! s = Some r ->
  forall s', (stage_index s' < stage_index s)%nat ->
    exists r', results st !! s' = Some r' /\ status r' = SUCCESS /\
               _validate_step_output (pipeline_steps s') (output r') = true.
Proof.
  cbv zeta. intros s r Hr s' Hlt.
  destruct (earlier_stages_recorded s r s' Hr Hlt) as (r' & Hr' & Hs').
  exists r'. split; [done|]. split; [done|].
  destruct (_validate_step_output (pipeline_steps s') (output r')) eqn:Hv; [done|].
  destruct (execute_pipeline_post w pipeline_steps) as [_ _ _ Hfail _].
  assert (Spec.stage_failed pipeline_steps s' r') as Hf by (right; done).
  rewrite (Hfail s' r' Hr' Hf s Hlt) in Hr. discriminate Hr.
Qed.

Lemma run_stage_ok s rest st out err t :
  _check_dependencies (dependencies (pipeline_steps s)) (results st) = true ->
  run w (pipeline_steps s) = Exited 0 out err t ->
  _validate_step_output (pipeline_steps s) out = true ->
  run_stages w pipeline_steps (s :: rest) st =
  run_stages w pipeline_steps rest
    {| results := <[s := {| result_stage := stage (pipeline_steps s); status := SUCCESS;
                            output := out; error := None; execution_time := t |}]>
                    (results st);
       trace := trace st ++ [Executed s (command (pipeline_steps s)); StageCompleted s] |}.
Proof.
  intros Hd Hrun Hval. cbn [run_stages]. rewrite Hd. cbn [negb].
  unfold _execute_step. rewrite Hrun. cbn [Z.eqb status output].
  rewrite Hval. cbn.
  change (status_eqb SUCCESS SUCCESS) with true. change (status_eqb SUCCESS FAILED) with false.
  cbn. unfold emit. cbn. by rewrite <- app_assoc.
Qed.

Hypothesis Hok : forall s, exists out err t,
  run w (pipeline_steps s) = Exited 0 out err t /\
  _validate_step_output (pipeline_steps s) out = true.

Lemma lookup_done (res : gmap PipelineStage PipelineResult) s r :
  _check_dependencies [s] (<[s := r]> res) = status_eqb (status r) SUCCESS.
Proof.
  cbn [_check_dependencies]. rewrite lookup_insert_eq. by destruct (status_eqb _ _).
Qed.

(** X18. With the default dependencies, if every stage's command exits with
    status 0 and an output that passes its validation, a fresh run records
    a success for all six stages, executes the six commands in order and
    ends with the completion report. *)
Theorem successful_run_completes :
  let st := execute_pipeline w pipeline_steps initial in
  (forall s, exists r err, results st !! s = Some r /\ status r = SUCCESS /\
               run w (pipeline_steps s) = Exited 0 (output r) err (execution_time r)) /\
  trace st =
    flat_map (fun s => [Executed s (command (pipeline_steps s)); StageCompleted s]) all_stages
    ++ [PipelineCompleted].
Proof.
  cbv zeta. unfold execute_pipeline, all_stages.
  destruct (Hok VALIDATION) as (o0 & e0 & t0 & R0 & V0).
  destruct (Hok ANALYSIS) as (o1 & e1 & t1 & R1 & V1).
  destruct (Hok PLANNING) as (o2 & e2 & t2 & R2 & V2).
  destruct (Hok IMPLEMENTATION) as (o3 & e3 & t3 & R3 & V3).
  destruct (Hok TESTING) as (o4 & e4 & t4 & R4 & V4).
  destruct (Hok DEPLOYMENT) as (o5 & e5 & t5 & R5 & V5).
  rewrite (run_stage_ok VALIDATION _ _ o0 e0 t0) by (rewrite ?Hdeps; done).
  rewrite (run_stage_ok ANALYSIS _ _ o1 e1 t1)
    by (rewrite ?Hdeps; try done; cbn [results dependencies _define_pipeline_steps];
        by rewrite lookup_done).
  rewrite (run_stage_ok PLANNING _ _ o2 e2 t2)
    by (rewrite ?Hdeps; try done; cbn [results dependencies _define_pipeline_steps];
        by rewrite lookup_done).
  rewrite (run_stage_ok IMPLEMENTATION _ _ o3 e3 t3)
    by (rewrite ?Hdeps; try done; cbn [results dependencies _define_pipeline_steps];
        by rewrite lookup_done).
  rewrite (run_stage_ok TESTING _ _ o4 e4 t4)
    by (rewrite ?Hdeps; try done; cbn [results dependencies _define_pipeline_steps];
        by rewrite lookup_done).
  rewrite (run_stage_ok DEPLOYMENT _ _ o5 e5 t5)
    by (rewrite ?Hdeps; try done; cbn [results dependencies _define_pipeline_steps];
        by rewrite lookup_done).
  cbn [run_stages emit results trace initial]. split.
  - intros s. destruct s; eexists _, _;
      (split; [by simplify_map_eq|]); (split; [reflexivity|]); cbn [output execution_time];
      eassumption.
  - reflexivity.
Qed.

End PipelineMore.

Lemma recorded_stages_form_a_successful_prefix_witness :
  exists r',
    Pipeline.results
      (Pipeline.execute_pipeline Spec.implementation_fails Pipeline._define_pipeline_steps
         Pipeline.initial) !! Pipeline.PLANNING = Some r' /\
    Pipeline.status r' = Pipeline.SUCCESS /\
    Pipeline._validate_step_output (Pipeline._define_pipeline_steps Pipeline.PLANNING)
      (Pipeline.output r') = true.
Proof.
  eapply (recorded_stages_form_a_successful_prefix Spec.implementation_fails
            Pipeline._define_pipeline_steps (fun s => eq_refl) Pipeline.IMPLEMENTATION).
  - vm_compute. reflexivity.
  - simpl. lia.
Defined.

Lemma successful_run_completes_witness :
  let st := Pipeline.execute_pipeline Notions.all_commands_pass
              Pipeline._define_pipeline_steps Pipeline.initial in
  (forall s, exists r err,
     Pipeline.results st !! s = Some r /\ Pipeline.status r = Pipeline.SUCCESS /\
     Pipeline.run Notions.all_commands_pass (Pipeline._define_pipeline_steps s)
     = Pipeline.Exited 0 (Pipeline.output r) err (Pipeline.execution_time r)) /\
  Pipeline.trace st =
    flat_map (fun s => [Pipeline.Executed s
                          (Pipeline.command (Pipeline._define_pipeline_steps s));
                        Pipeline.StageCompleted s]) Pipeline.all_stages
    ++ [Pipeline.PipelineCompleted].
Proof.
  apply (successful_run_completes Notions.all_commands_pass Pipeline._define_pipeline_steps).
  - intros s. reflexivity.
  - intros s. destruct s; eexists _, _, _; (split; [reflexivity|]); vm_compute; reflexivity.
Defined.

Section PipelineOutcomes.
Import Text Pipeline Notions.
Context (w : World) (pipeline_steps : PipelineStage -> PipelineStep).

Lemma rollback_stage_effects failed_stage st :
  exists evs,
    _rollback_stage w pipeline_steps failed_stage st
    = {| results := results st; trace := trace st ++ evs |} /\
    (forall e, In e evs -> calm e).
Proof.
  unfold _rollback_stage.
  destruct (find_previous _ _ _) as [previous|].
  - destruct (truthy (rollback_command (pipeline_steps previous))) as [cmd|].
    + destruct (run_rollback w cmd).
      * exists [RollingBack failed_stage; RollbackExecuted cmd; RollbackSuccessful previous].
        split; [unfold emit; simpl; by rewrite <- !app_assoc|].
        intros e [<-|[<-|[<-|[]]]]; exact I.
      * exists [RollingBack failed_stage; RollbackExecuted cmd; RollbackFailed previous].
        split; [unfold emit; simpl; by rewrite <- !app_assoc|].
        intros e [<-|[<-|[<-|[]]]]; exact I.
    + exists [RollingBack failed_stage]. split; [done|].
      intros e [<-|[]]; exact I.
  - exists [RollingBack failed_stage; NoPreviousStage].
    split; [unfold emit; simpl; by rewrite <- !app_assoc|].
    intros e [<-|[<-|[]]]; exact I.
Qed.

Lemma run_stages_outcome stages : forall st,
  all_passed pipeline_steps (results st) ->
  (forall e, In e (trace st) -> calm e) ->
  run_outcome pipeline_steps (run_stages w pipeline_steps stages st).
Proof.
  induction stages as [|s rest IH]; intros st Hres Htr.
  - apply NoFailure; [done|]. unfold emit. simpl. intros e He.
    apply in_app_iff in He as [He|[<-|[]]]; [by apply Htr | exact I].
  - cbn [run_stages].
    destruct (_check_dependencies _ _); cbn [negb].
    2:{ apply NoFailure; [done|]. unfold emit. simpl. intros e He.
        apply in_app_iff in He as [He|[<-|[]]]; [by apply Htr | exact I]. }
    set (result := _execute_step w (pipeline_steps s)).
    unfold status_eqb.
    destruct (decide (status result = SUCCESS)) as [Hs|Hs].
    + rewrite (bool_decide_eq_true_2 _ Hs). cbn [andb].
      destruct (_validate_step_output (pipeline_steps s) (output result)) eqn:Hval;
        cbn [negb].
      * rewrite bool_decide_eq_false_2 by congruence.
        apply IH.
        -- unfold emit. cbn [results]. intros s' r' Hr'.
           destruct (decide (s = s')) as [->|Hne].
           ++ rewrite lookup_insert_eq in Hr'. injection Hr' as <-. done.
           ++ rewrite lookup_insert_ne in Hr' by done. by apply Hres.
        -- unfold emit. cbn [trace]. intros e He.
           apply in_app_iff in He as [He|[<-|[]]]; [|exact I].
           apply in_app_iff in He as [He|[<-|[]]]; [by apply Htr | exact I].
      * destruct (rollback_stage_effects s
                    (emit (ValidationFailed s)
                       {| results := <[s:=result]> (results (emit (Executed s (command (pipeline_steps s))) st));
                          trace := trace (emit (Executed s (command (pipeline_steps s))) st) |}))
          as (evs & -> & Hevs).
        unfold emit. cbn [results trace].
        apply (HaltedByValidation _ _ s result); cbn [results trace].
        -- apply lookup_insert_eq.
        -- done.
        -- done.
        -- intros s' r' Hr'. destruct (decide (s = s')) as [->|Hne].
           ++ rewrite lookup_insert_eq in Hr'. by injection Hr' as <-.
           ++ rewrite lookup_insert_ne in Hr' by done. by apply (Hres s' r').
        -- apply in_app_iff. left. apply in_app_iff. right. by left.
        -- intros s' He. apply in_app_iff in He as [He|He]; [|by apply Hevs in He].
           apply in_app_iff in He as [He|[He|[]]]; [|discriminate He].
           apply in_app_iff in He as [He|[He|[]]]; [|discriminate He].
           by apply Htr in He.
    + rewrite (bool_decide_eq_false_2 _ Hs). cbn [andb].
      destruct (execute_step_status w (pipeline_steps s)) as [Hst|Hst]; [done|].
      fold result in Hst. rewrite (bool_decide_eq_true_2 _ Hst).
      destruct (rollback_stage_effects s
                  (emit (PipelineFailed s)
                     {| results := <[s:=result]> (results (emit (Executed s (command (pipeline_steps s))) st));
                        trace := trace (emit (Executed s (command (pipeline_steps s))) st) |}))
        as (evs & -> & Hevs).
      unfold emit. cbn [results trace].
      apply (HaltedByFailure _ _ s result); cbn [results trace].
      * apply lookup_insert_eq.
      * done.
      * apply in_app_iff. left. apply in_app_iff. right. by left.
      * intros s' He. apply in_app_iff in He as [He|He]; [|by apply Hevs in He].
        apply in_app_iff in He as [He|[He|[]]]; [|discriminate He].
        apply in_app_iff in He as [He|[He|[]]]; [|discriminate He].
        by apply Htr in He.
Qed.

Lemma execute_pipeline_outcome :
  run_outcome pipeline_steps (execute_pipeline w pipeline_steps initial).
Proof.
  apply run_stages_outcome.
  - intros s r Hr. simpl in Hr. by rewrite lookup_empty in Hr.
  - intros e [].
Qed.

End PipelineOutcomes.

(** ** The orchestrator *)

Section OrchestratorFacts.
Import Text Integrated Notions.

Lemma optimal_sparc_mode_known idea_text :
  In (Attention._determine_optimal_sparc_mode idea_text)
     ["architect"; "api"; "ui"; "ml"; "tdd"; "devops"].
Proof.
  rewrite sparc_mode_agrees.
  destruct (suggest_sparc_mode_first_best idea_text) as (before & kws & after & E & _).
  change ["architect"; "api"; "ui"; "ml"; "tdd"; "devops"]
    with (map fst Validation.sparc_mode_keywords).
  rewrite E, map_app, in_app_iff. right. by left.
Qed.

Lemma update_commands (p : Attention.OptimizedParameters) :
  In (Attention.sparc_mode p) ["architect"; "api"; "ui"; "ml"; "tdd"; "devops"] ->
  In (Attention.param_agent_count p) [3; 5; 6; 7; 8]%Z ->
  map (fun s => Pipeline.command
                  (_update_pipeline_with_bbam Pipeline._define_pipeline_steps p s))
      Pipeline.all_stages =
  [ "python3 wfgy_validation.py";
    "claude-flow sparc " +:+ Attention.sparc_mode p
      +:+ " 'Analyze requirements and suggest architecture'";
    "claude-flow swarm --agents " +:+ pretty (Attention.param_agent_count p)
      +:+ " 'Create detailed implementation plan'";
    "claude-flow swarm --agents " +:+ pretty (Attention.param_agent_count p)
      +:+ " 'Implement the project according to plan'";
    "claude-flow sparc tdd 'Run comprehensive tests'";
    "claude-flow sparc devops 'Deploy and verify'" ].
Proof.
  destruct p as [mode topo n t mem thr]. cbn [Attention.sparc_mode Attention.param_agent_count].
  intros Hm Hn. simpl in Hm, Hn.
  destruct Hm as [<-|[<-|[<-|[<-|[<-|[<-|[]]]]]]];
    destruct Hn as [<-|[<-|[<-|[<-|[<-|[]]]]]]; vm_compute; reflexivity.
Qed.

(** X19. Overriding the default step table with the optimizer's parameters
    rewrites the analysis command to the optimizer's SPARC mode and gives
    the two swarm commands the planned agent count; the validation,
    testing and deployment commands and every step's stage, dependencies,
    rollback command, validation check and timeout are unchanged. *)
Theorem optimized_commands (idea_text project_complexity : string) :
  let p := Attention.optimized_parameters
             (Attention.bbam_optimize_claude_flow idea_text project_complexity) in
  let steps := _update_pipeline_with_bbam Pipeline._define_pipeline_steps p in
  map (fun s => Pipeline.command (steps s)) Pipeline.all_stages =
    [ "python3 wfgy_validation.py";
      "claude-flow sparc " +:+ Attention.sparc_mode p
        +:+ " 'Analyze requirements and suggest architecture'";
      "claude-flow swarm --agents " +:+ pretty (Attention.param_agent_count p)
        +:+ " 'Create detailed implementation plan'";
      "claude-flow swarm --agents " +:+ pretty (Attention.param_agent_count p)
        +:+ " 'Implement the project according to plan'";
      "claude-flow sparc tdd 'Run comprehensive tests'";
      "claude-flow sparc devops 'Deploy and verify'" ] /\
  forall s,
    Pipeline.stage (steps s) = Pipeline.stage (Pipeline._define_pipeline_steps s) /\
    Pipeline.dependencies (steps s) = Pipeline.dependencies (Pipeline._define_pipeline_steps s) /\
    Pipeline.rollback_command (steps s)
      = Pipeline.rollback_command (Pipeline._define_pipeline_steps s) /\
    Pipeline.validation_check (steps s)
      = Pipeline.validation_check (Pipeline._define_pipeline_steps s) /\
    Pipeline.timeout (steps s) = Pipeline.timeout (Pipeline._define_pipeline_steps s).
Proof.
  cbv zeta. split.
  - apply update_commands.
    + destruct (optimize_parameters idea_text project_complexity) as (-> & _ & _).
      apply optimal_sparc_mode_known.
    + destruct (optimize_parameters idea_text project_complexity) as (_ & _ & ->).
      pose proof (topology_shapes project_complexity idea_text) as H. cbv zeta in H.
      destruct H as [H|[H|[H|[H|H]]]]; injection H as _ ->; simpl; tauto.
  - intros s. unfold _update_pipeline_with_bbam, update_step.
    destruct (contains "claude-flow" _); repeat split.
Qed.


Lemma stage_is_implementation s :
  contains "implementation" (lower (Pipeline.stage_value s))
  = bool_decide (s = Pipeline.IMPLEMENTATION).
Proof. by destruct s. Qed.

Lemma extract_implementation_output_lookup
    (res : gmap Pipeline.PipelineStage Pipeline.PipelineResult) :
  _extract_implementation_output res =
  match res !! Pipeline.IMPLEMENTATION with
  | Some r => Pipeline.output r
  | None => ""
  end.
Proof.
  unfold _extract_implementation_output, recorded_stages, Pipeline.all_stages.
  unfold omap. cbn [list_omap].
  destruct (res !! Pipeline.VALIDATION), (res !! Pipeline.ANALYSIS),
    (res !! Pipeline.PLANNING), (res !! Pipeline.IMPLEMENTATION),
    (res !! Pipeline.TESTING), (res !! Pipeline.DEPLOYMENT);
    cbn [fmap option_fmap option_map first_implementation];
    rewrite ?stage_is_implementation; reflexivity.
Qed.

Lemma recorded_stages_In (res : gmap Pipeline.PipelineStage Pipeline.PipelineResult) s r :
  In (s, r) (recorded_stages res) <-> res !! s = Some r.
Proof.
  unfold recorded_stages. rewrite <- list_elem_of_In, list_elem_of_omap. split.
  - intros (s' & _ & H). destruct (res !! s') eqn:E; simpl in H; [|done].
    injection H as <- <-. done.
  - intros H. exists s. split; [|by rewrite H].
    apply list_elem_of_In. destruct s; simpl; tauto.
Qed.

Lemma all_success_iff (res : gmap Pipeline.PipelineStage Pipeline.PipelineResult) :
  all_success res = true <->
  forall s r, res !! s = Some r -> Pipeline.status r = Pipeline.SUCCESS.
Proof.
  unfold all_success. rewrite forallb_forall. split.
  - intros H s r Hr. apply recorded_stages_In in Hr. apply H in Hr. simpl in Hr.
    by destruct (Pipeline.status r).
  - intros H [s r] Hin. apply recorded_stages_In in Hin. simpl.
    by rewrite (H s r Hin).
Qed.

Lemma all_success_no_failure (w : Pipeline.World)
    (steps : Pipeline.PipelineStage -> Pipeline.PipelineStep) :
  let final := Pipeline.execute_pipeline w steps Pipeline.initial in
  (all_success (Pipeline.results final) = true <->
     forall s, ~ In (Pipeline.PipelineFailed s) (Pipeline.trace final)) /\
  ((exists s, In (Pipeline.ValidationFailed s) (Pipeline.trace final)) ->
     all_success (Pipeline.results final) = true).
Proof.
  cbv zeta. rewrite all_success_iff.
  destruct (execute_pipeline_outcome w steps)
    as [Hall Hcalm | s r Hr Hs Hv Hall Hin Hno | s r Hr Hs Hin Hno].
  - split; [split|].
    + intros _ s Hin. by apply Hcalm in Hin.
    + intros _ s r Hr. by apply (Hall s r).
    + intros [s Hin]. by apply Hcalm in Hin.
  - split; [split|]; [intros _; exact Hno | intros _; exact Hall | intros _; exact Hall].
  - split; [split|].
    + intros H. specialize (H s r Hr). congruence.
    + intros H. destruct (H s Hin).
    + intros [s' Hin']. destruct (Hno s' Hin').
Qed.

Lemma bbpf_execution_value env project_name idea_text o :
  let steps := _update_pipeline_with_bbam Pipeline._define_pipeline_steps
                 (Attention.optimized_parameters o) in
  let final := Pipeline.execute_pipeline (world env) steps Pipeline.initial in
  _bbpf_execution env project_name idea_text (OptimizationDone o) =
  if all_success (Pipeline.results final)
  then ({| success := true;
           stage := "bbpf_execution";
           message := "BBPF: Pipeline execution completed";
           data := PipelineDone (Pipeline.results final)
                     (match Pipeline.results final !! Pipeline.IMPLEMENTATION with
                      | Some r => Pipeline.output r
                      | None => ""
                      end);
           execution_time := elapsed env "bbpf_execution";
           rollback_needed := false |}, map PipelineEvent (Pipeline.trace final))
  else ({| success := false;
           stage := "bbpf_execution";
           message := "BBPF: Pipeline execution failed";
           data := PipelineFailedWith (Pipeline.results final);
           execution_time := elapsed env "bbpf_execution";
           rollback_needed := true |}, map PipelineEvent (Pipeline.trace final)).
Proof.
  cbv zeta. unfold _bbpf_execution.
  rewrite extract_implementation_output_lookup.
  by destruct (all_success _).
Qed.

(** X20. The orchestrator's pipeline stage reports success exactly when no
    stage command failed; a run halted because an output failed validation
    is reported as success.  It asks for a rollback exactly when it
    reports failure, and on success hands on the implementation stage's
    output, or the empty text when that stage has no result. *)
Theorem pipeline_stage_report
    (env : Env) (project_name idea_text : string) (o : Attention.Optimization) :
  let steps := _update_pipeline_with_bbam Pipeline._define_pipeline_steps
                 (Attention.optimized_parameters o) in
  let final := Pipeline.execute_pipeline (world env) steps Pipeline.initial in
  let out := _bbpf_execution env project_name idea_text (OptimizationDone o) in
  snd out = map PipelineEvent (Pipeline.trace final) /\
  stage (fst out) = "bbpf_execution" /\
  (success (fst out) = true <->
     forall s, ~ In (Pipeline.PipelineFailed s) (Pipeline.trace final)) /\
  ((exists s, In (Pipeline.ValidationFailed s) (Pipeline.trace final)) ->
     success (fst out) = true) /\
  rollback_needed (fst out) = negb (success (fst out)) /\
  (success (fst out) = true ->
     data (fst out) =
       PipelineDone (Pipeline.results final)
         (match Pipeline.results final !! Pipeline.IMPLEMENTATION with
          | Some r => Pipeline.output r
          | None => ""
          end)).
Proof.
  cbv zeta. rewrite bbpf_execution_value. cbv zeta.
  destruct (all_success_no_failure (world env)
              (_update_pipeline_with_bbam Pipeline._define_pipeline_steps
                 (Attention.optimized_parameters o))) as [Hiff Hval].
  cbv zeta in Hiff, Hval.
  destruct (all_success _); cbn [fst snd success stage rollback_needed data negb];
    repeat split; try done; try (by apply Hiff).
Qed.

Lemma no_cleanup_action idea_text implementation_output :
  Forall (fun action => contains "cleanup" (lower action) = false)
         (Contradiction.corrective_actions
            (Contradiction.resolve_contradictions idea_text implementation_output)).
Proof.
  unfold Contradiction.resolve_contradictions. cbn [Contradiction.corrective_actions].
  unfold Contradiction._generate_corrective_actions. rewrite Forall_map.
  eapply Forall_impl; [apply rollback_actions_known|].
  intros c Hc. simpl in Hc.
  destruct (_ || _);
    destruct Hc as [<-|[<-|[<-|[<-|[<-|[<-|[<-|[<-|[]]]]]]]]]; vm_compute; reflexivity.
Qed.

Lemma execute_rollback_quiet idea_text implementation_output :
  _execute_rollback (Contradiction.corrective_actions
                       (Contradiction.resolve_contradictions idea_text implementation_output))
  = (true, []).
Proof.
  unfold _execute_rollback. f_equal.
  pose proof (no_cleanup_action idea_text implementation_output) as H.
  induction H as [|a l Ha _ IH]; [done|].
  cbn [flat_map]. rewrite Ha, IH. by destruct (contains "rollback" (lower a)).
Qed.

Lemma classic_failed (tr : list Pipeline.Event) :
  (exists s, In (Pipeline.PipelineFailed s) tr) \/
  (forall s, ~ In (Pipeline.PipelineFailed s) tr).
Proof.
  induction tr as [|e tr [[s Hs]|IH]].
  - right. intros s [].
  - left. exists s. by right.
  - destruct e; try (right; intros s0 [H|H]; [discriminate H | by apply (IH s0)]).
    left. exists s. by left.
Qed.

Lemma handle_rollback_report env idea_text implementation_output :
  _handle_rollback env (_bbcr_validation env idea_text implementation_output) =
  ({| success := true;
      stage := "rollback";
      message := "Rollback completed";
      data := RollbackDone
                (Contradiction.corrective_actions
                   (Contradiction.resolve_contradictions idea_text implementation_output))
                true;
      execution_time := elapsed env "rollback";
      rollback_needed := false |}, []).
Proof.
  unfold _handle_rollback, _bbcr_validation,
    Contradiction.bbcr_validate_claude_flow_output. cbn [data].
  by rewrite execute_rollback_quiet.
Qed.

(** X21. For the corrective actions the contradiction engine produces, the
    rollback handler runs no clean-up command and reports success, stage
    rollback, and no further rollback needed. *)
Theorem rollback_handler_reports_success
    (env : Env) (idea_text implementation_output : string) :
  let handled := _handle_rollback env (_bbcr_validation env idea_text implementation_output) in
  success (fst handled) = true /\
  stage (fst handled) = "rollback" /\
  rollback_needed (fst handled) = false /\
  snd handled = [] /\
  data (fst handled) =
    RollbackDone (Contradiction.corrective_actions
                    (Contradiction.resolve_contradictions idea_text implementation_output))
                 true.
Proof. cbv zeta. rewrite handle_rollback_report. repeat split. Qed.

Lemma orchestrate_when_invalid env project_name idea_text project_complexity :
  Validation.is_valid (Validation.validate_idea_structure idea_text) = false ->
  orchestrate_claude_flow_project env project_name idea_text project_complexity =
  ({| success := false;
      stage := "bbmc_validation";
      message := "BBMC: Idea validation failed";
      data := ValidationRejected (Validation.validate_idea_structure idea_text)
                (Validation.missing_elements (Validation.validate_idea_structure idea_text))
                (Validation.recommendations (Validation.validate_idea_structure idea_text));
      execution_time := elapsed env "bbmc_validation";
      rollback_needed := false |}, []).
Proof.
  intros Hinvalid.
  unfold orchestrate_claude_flow_project, _bbmc_validation,
    Validation.validate_claude_flow_input.
  rewrite Hinvalid. reflexivity.
Qed.

Lemma orchestrate_when_valid env project_name idea_text project_complexity :
  Validation.is_valid (Validation.validate_idea_structure idea_text) = true ->
  let v := Validation.validate_idea_structure idea_text in
  let o := Attention.bbam_optimize_claude_flow idea_text project_complexity in
  let steps := _update_pipeline_with_bbam Pipeline._define_pipeline_steps
                 (Attention.optimized_parameters o) in
  let final := Pipeline.execute_pipeline (world env) steps Pipeline.initial in
  let implementation :=
    match Pipeline.results final !! Pipeline.IMPLEMENTATION with
    | Some r => Pipeline.output r
    | None => ""
    end in
  let verdict := Contradiction.resolve_contradictions idea_text implementation in
  orchestrate_claude_flow_project env project_name idea_text project_complexity =
  if all_success (Pipeline.results final)
  then
    if Contradiction.needs_rollback verdict
    then ({| success := true;
             stage := "rollback";
             message := "Rollback completed";
             data := RollbackDone (Contradiction.corrective_actions verdict) true;
             execution_time := elapsed env "rollback";
             rollback_needed := false |}, map PipelineEvent (Pipeline.trace final))
    else ({| success := true;
             stage := "completed";
             message := "WFGY orchestration completed successfully";
             data := Completed (ValidationPassed v) (OptimizationDone o)
                       (PipelineDone (Pipeline.results final) implementation)
                       (ContradictionsChecked verdict);
             execution_time := elapsed env "total";
             rollback_needed := false |}, map PipelineEvent (Pipeline.trace final))
  else ({| success := false;
           stage := "bbpf_execution";
           message := "BBPF: Pipeline execution failed";
           data := PipelineFailedWith (Pipeline.results final);
           execution_time := elapsed env "bbpf_execution";
           rollback_needed := true |}, map PipelineEvent (Pipeline.trace final)).
Proof.
  intros Hvalid. cbv zeta. unfold orchestrate_claude_flow_project.
  assert (_bbmc_validation env idea_text =
          {| success := true; stage := "bbmc_validation";
             message := "BBMC: Idea validation passed";
             data := ValidationPassed (Validation.validate_idea_structure idea_text);
             execution_time := elapsed env "bbmc_validation";
             rollback_needed := false |}) as ->.
  { unfold _bbmc_validation, Validation.validate_claude_flow_input. by rewrite Hvalid. }
  unfold _bbam_optimization. cbn [negb success data].
  rewrite bbpf_execution_value. cbv zeta.
  destruct (all_success _); cbn [negb success data implementation_output_of]; [|done].
  pose proof (handle_rollback_report env idea_text
    (match Pipeline.results (Pipeline.execute_pipeline (world env)
        (_update_pipeline_with_bbam Pipeline._define_pipeline_steps
           (Attention.optimized_parameters
              (Attention.bbam_optimize_claude_flow idea_text project_complexity)))
        Pipeline.initial) !! Pipeline.IMPLEMENTATION with
     | Some r => Pipeline.output r
     | None => ""
     end)) as Hh.
  destruct (rollback_needed (_bbcr_validation env idea_text _)) eqn:Hrb.
  - rewrite Hh. unfold _bbcr_validation, Contradiction.bbcr_validate_claude_flow_output in Hrb.
    cbn [rollback_needed] in Hrb. rewrite Hrb. by rewrite app_nil_r.
  - unfold _bbcr_validation, Contradiction.bbcr_validate_claude_flow_output in Hrb |- *.
    cbn [rollback_needed data] in Hrb |- *. by rewrite Hrb.
Qed.

(** X22. An orchestration ends in one of four ways: validation rejected
    (failure, nothing run), a stage command failed (failure, rollback
    needed), contradictions forced a rollback (reported as success), or
    completed (success).  The clean-up command is never executed. *)
Theorem orchestration_outcomes
    (env : Env) (project_name idea_text project_complexity : string) :
  let o := Attention.bbam_optimize_claude_flow idea_text project_complexity in
  let steps := _update_pipeline_with_bbam Pipeline._define_pipeline_steps
                 (Attention.optimized_parameters o) in
  let final := Pipeline.execute_pipeline (world env) steps Pipeline.initial in
  let implementation :=
    match Pipeline.results final !! Pipeline.IMPLEMENTATION with
    | Some r => Pipeline.output r
    | None => ""
    end in
  let verdict := Contradiction.resolve_contradictions idea_text implementation in
  let valid := Validation.is_valid (Validation.validate_idea_structure idea_text) in
  let command_failed := exists s, In (Pipeline.PipelineFailed s) (Pipeline.trace final) in
  let out := orchestrate_claude_flow_project env project_name idea_text project_complexity in
  let r := fst out in
  ((stage r = "bbmc_validation" /\ success r = false /\ rollback_needed r = false /\
    snd out = [] /\ valid = false) \/
   (stage r = "bbpf_execution" /\ success r = false /\ rollback_needed r = true /\
    valid = true /\ command_failed) \/
   (stage r = "rollback" /\ success r = true /\ rollback_needed r = false /\
    valid = true /\ ~ command_failed /\ Contradiction.needs_rollback verdict = true) \/
   (stage r = "completed" /\ success r = true /\ rollback_needed r = false /\
    valid = true /\ ~ command_failed /\ Contradiction.needs_rollback verdict = false)) /\
  (valid = true -> snd out = map PipelineEvent (Pipeline.trace final)) /\
  (forall cmd, ~ In (CleanupExecuted cmd) (snd out)).
Proof.
  cbv zeta.
  destruct (Validation.is_valid (Validation.validate_idea_structure idea_text)) eqn:Hv.
  2:{ rewrite orchestrate_when_invalid by done. cbn [fst snd success stage rollback_needed].
      split; [left; repeat split|]. split; [done|]. intros cmd []. }
  rewrite orchestrate_when_valid by done. cbv zeta.
  destruct (all_success_no_failure (world env)
              (_update_pipeline_with_bbam Pipeline._define_pipeline_steps
                 (Attention.optimized_parameters
                    (Attention.bbam_optimize_claude_flow idea_text project_complexity))))
    as [Hiff _].
  cbv zeta in Hiff.
  assert (forall (l : list Pipeline.Event) cmd,
            ~ In (CleanupExecuted cmd) (map PipelineEvent l)) as Hclean.
  { intros l cmd Hin. apply in_map_iff in Hin as (e & He & _). discriminate He. }
  destruct (all_success _).
  - assert (~ (exists s, In (Pipeline.PipelineFailed s)
                 (Pipeline.trace (Pipeline.execute_pipeline (world env)
                    (_update_pipeline_with_bbam Pipeline._define_pipeline_steps
                       (Attention.optimized_parameters
                          (Attention.bbam_optimize_claude_flow idea_text project_complexity)))
                    Pipeline.initial)))) as Hnf
      by (intros [s Hin]; by apply (proj1 Hiff eq_refl s)).
    destruct (Contradiction.needs_rollback _) eqn:Hn;
      cbn [fst snd success stage rollback_needed];
      (split; [|split; [done|apply Hclean]]).
    + right. right. left. repeat split; done.
    + right. right. right. repeat split; done.
  - cbn [fst snd success stage rollback_needed].
    split; [|split; [done|apply Hclean]].
    right. left. repeat split; try done.
    destruct (classic_failed (Pipeline.trace (Pipeline.execute_pipeline (world env)
                (_update_pipeline_with_bbam Pipeline._define_pipeline_steps
                   (Attention.optimized_parameters
                      (Attention.bbam_optimize_claude_flow idea_text project_complexity)))
                Pipeline.initial))) as [H|H]; [done|].
    apply Hiff in H. discriminate H.
Qed.

End OrchestratorFacts.
